(** * md_spa : mean-squared-displacement analysis

    A shallow embedding of the numerical core of [md_spa]
    ([md_spa/msd.py], [md_spa/fit_data.py] and
    [md_spa_utils/data_manipulation.py]) and the properties its
    specification states about it, followed by further properties of
    these files, of [md_spa/cluster.py] and of
    [md_spa/monte_carlo_volume.py].

    Conventions of the embedding.

    - A NumPy [float64] is a value of [Np.float]: a rational number, or one
      of the three special values NaN, +inf and -inf.  Arithmetic on the
      special values follows IEEE 754 (NaN is absorbing, every ordered
      comparison with NaN is false, inf - inf is NaN ...); arithmetic on
      finite values is exact, so rounding and signed zeros are not
      represented.
    - A Python exception is a value [Raise e] of the type [result]; code
      that can raise runs in this error monad.  [warnings.warn] appends
      to a list of warnings returned next to the value.
    - Functions of NumPy and SciPy whose result on finite input is
      transcendental or is computed by library code outside the repository
      (logarithms, square roots, the FFT twiddle factors, [linregress], the
      FITPACK splines, the Gaussian filter) are fields of the class
      [Extern]; the special-value behaviour of [np.log], [np.sqrt] ... is
      written out around them.
    - [autocorrelation] is written against a class [Scalar] of the
      operations it uses, and has three instances: [Np.float], on which
      [msd] runs it, the real numbers, on which its three modes are
      compared exactly, and the binary64 floats of IEEE 754
      ([Float64]), on which the rounding of the modes is read at
      concrete inputs.
    - The functions embedded for the further properties can raise
      exceptions of more classes; they run in the error monad of
      [Px.outcome].  What they take from SciPy's statistics, NumPy's
      random generator and the NumPy release are fields of the class
      [Library].
    - Plotting and printing have no effect on the returned values and are
      left out; the arguments that only steer them ([show_plot],
      [save_plot], [title], [plot_name], [verbose]) are not arguments of
      the embedded functions. *)

From Stdlib Require Import String Ascii DecimalString Sorted.
From Stdlib Require Import ZArith QArith Qabs Qreduction Qround Bool Arith Lia Lqa Lra Reals List.
From Stdlib Require Floats.
Import ListNotations.

Set Implicit Arguments.
Close Scope R_scope.
Close Scope Q_scope.
Open Scope string_scope.
Open Scope list_scope.
Open Scope nat_scope.

(* ================================================================== *)
(** ** Python: exceptions, warnings, indexing and slicing              *)
(* ================================================================== *)

Module Py.

Inductive exn : Type :=
| ValueError (msg : string)
| IndexError (msg : string).

Inductive result (A : Type) : Type :=
| Ok (a : A)
| Raise (e : exn).
Arguments Ok {A} a.
Arguments Raise {A} e.

Definition bind {A B} (m : result A) (k : A -> result B) : result B :=
  match m with
  | Ok a => k a
  | Raise e => Raise e
  end.

Definition is_ok {A} (m : result A) : bool :=
  match m with Ok _ => true | Raise _ => false end.

(** [for a in l: acc = body(acc, a)] where the body may raise. *)
Fixpoint foldM {A S} (body : S -> A -> result S) (l : list A) (acc : S)
  : result S :=
  match l with
  | [] => Ok acc
  | a :: l' => bind (body acc a) (foldM body l')
  end.

(** [[f(a) for a in l]] where [f] may raise. *)
Fixpoint mapM {A B} (f : A -> result B) (l : list A) : result (list B) :=
  match l with
  | [] => Ok []
  | a :: l' => bind (f a) (fun b => bind (mapM f l') (fun bs => Ok (b :: bs)))
  end.

(** A slice bound, as Python normalises it against a length: negative
    bounds count from the end, and the outcome is clamped to [0, len]. *)
Definition norm_index (len : nat) (i : Z) : nat :=
  let j := if (i <? 0)%Z then (Z.of_nat len + i)%Z else i in
  Nat.min len (Z.to_nat j).

(** [l[:stop]] *)
Definition slice_to {A} (l : list A) (stop : Z) : list A :=
  firstn (norm_index (length l) stop) l.

(** [l[start:]] *)
Definition slice_from {A} (l : list A) (start : Z) : list A :=
  skipn (norm_index (length l) start) l.

(** [l[start:stop]] *)
Definition slice {A} (l : list A) (start stop : Z) : list A :=
  let a := norm_index (length l) start in
  let b := norm_index (length l) stop in
  firstn (b - a) (skipn a l).

(** [l[i]]: negative indices count from the end, out of range raises. *)
Definition index {A} (l : list A) (i : Z) : result A :=
  let j := if (i <? 0)%Z then (Z.of_nat (length l) + i)%Z else i in
  if (j <? 0)%Z then Raise (IndexError "index out of bounds")
  else match nth_error l (Z.to_nat j) with
       | Some a => Ok a
       | None => Raise (IndexError "index out of bounds")
       end.

(** [range(start, stop, step)]: ascending for a positive step,
    descending for a negative one, a [ValueError] for a zero step. *)
Fixpoint range_up (fuel : nat) (start stop step : Z) : list Z :=
  match fuel with
  | O => []
  | S fuel' =>
      if (start <? stop)%Z
      then start :: range_up fuel' (start + step) stop step
      else []
  end.

Fixpoint range_down (fuel : nat) (start stop step : Z) : list Z :=
  match fuel with
  | O => []
  | S fuel' =>
      if (stop <? start)%Z
      then start :: range_down fuel' (start + step) stop step
      else []
  end.

Definition range_list (start stop step : Z) : list Z :=
  if (0 <? step)%Z
  then range_up (Z.to_nat (stop - start)) start stop step
  else range_down (Z.to_nat (start - stop)) start stop step.

Definition range (start stop step : Z) : result (list Z) :=
  if (step =? 0)%Z then Raise (ValueError "range() arg 3 must not be zero")
  else Ok (range_list start stop step).

(** [l[i] = v] for an index known to be in range. *)
Fixpoint set_item {A} (l : list A) (i : nat) (v : A) : list A :=
  match l, i with
  | [], _ => []
  | _ :: l', O => v :: l'
  | a :: l', S i' => a :: set_item l' i' v
  end.

(** [int(x)] of a finite float: truncation towards zero. *)
Definition int (x : Q) : Z := Z.quot (Qnum x) (Zpos (Qden x)).

(** ["{}".format(n)] for a non-negative integer. *)
Definition str_of_nat (n : nat) : string :=
  NilEmpty.string_of_uint (Nat.to_uint n).

(** ["{}".format(z)] for an integer. *)
Definition str_of_Z (z : Z) : string :=
  NilZero.string_of_int (Z.to_int z).

End Py.

Export Py.

Declare Scope py_scope.
Notation "x <- m ;; k" := (Py.bind m (fun x => k))
  (at level 61, m at next level, right associativity) : py_scope.
Notation "' pat <- m ;; k" := (Py.bind m (fun x => match x with pat => k end))
  (at level 61, pat pattern, m at next level, right associativity) : py_scope.
Open Scope py_scope.

(* ================================================================== *)
(** ** NumPy floats                                                    *)
(* ================================================================== *)

Module Np.

Local Open Scope Q_scope.

Inductive float : Type :=
| NaN
| NInf
| Fin (q : Q)
| PInf.

Definition Qlt_bool (a b : Q) : bool := negb (Qle_bool b a).

Definition of_Z (z : Z) : float := Fin (inject_Z z).
Definition of_nat (n : nat) : float := of_Z (Z.of_nat n).
Definition zero : float := Fin 0.
Definition one : float := Fin 1.

Definition isnan (x : float) : bool :=
  match x with NaN => true | _ => false end.

Definition isinf (x : float) : bool :=
  match x with NInf | PInf => true | _ => false end.

Definition isfinite (x : float) : bool :=
  match x with Fin _ => true | _ => false end.

Definition neg (x : float) : float :=
  match x with
  | NaN => NaN
  | NInf => PInf
  | PInf => NInf
  | Fin q => Fin (Qred (- q))
  end.

Definition add (x y : float) : float :=
  match x, y with
  | NaN, _ | _, NaN => NaN
  | PInf, NInf | NInf, PInf => NaN
  | PInf, _ | _, PInf => PInf
  | NInf, _ | _, NInf => NInf
  | Fin a, Fin b => Fin (Qred (a + b))
  end.

Definition sub (x y : float) : float :=
  match x, y with
  | NaN, _ | _, NaN => NaN
  | PInf, PInf | NInf, NInf => NaN
  | PInf, _ | _, NInf => PInf
  | NInf, _ | _, PInf => NInf
  | Fin a, Fin b => Fin (Qred (a - b))
  end.

(** The sign of an infinite product or quotient: [true] for +inf. *)
Definition signed_inf (positive : bool) : float :=
  if positive then PInf else NInf.

Definition mul (x y : float) : float :=
  match x, y with
  | NaN, _ | _, NaN => NaN
  | Fin a, Fin b => Fin (Qred (a * b))
  | Fin a, PInf | PInf, Fin a =>
      if Qeq_bool a 0 then NaN else signed_inf (Qlt_bool 0 a)
  | Fin a, NInf | NInf, Fin a =>
      if Qeq_bool a 0 then NaN else signed_inf (Qlt_bool a 0)
  | PInf, PInf | NInf, NInf => PInf
  | PInf, NInf | NInf, PInf => NInf
  end.

(** NumPy division: a finite non-zero value over zero is an infinity
    (with a RuntimeWarning, not an exception), 0/0 is NaN. *)
Definition div (x y : float) : float :=
  match x, y with
  | NaN, _ | _, NaN => NaN
  | Fin a, Fin b =>
      if Qeq_bool b 0
      then (if Qeq_bool a 0 then NaN else signed_inf (Qlt_bool 0 a))
      else Fin (Qred (a / b))
  | Fin _, (PInf | NInf) => Fin 0
  | (PInf | NInf), (PInf | NInf) => NaN
  | PInf, Fin b => signed_inf (Qle_bool 0 b)
  | NInf, Fin b => signed_inf (Qlt_bool b 0)
  end.

Definition abs (x : float) : float :=
  match x with
  | NaN => NaN
  | NInf | PInf => PInf
  | Fin q => Fin (Qred (Qabs q))
  end.

(** [x < y]; false as soon as one side is NaN. *)
Definition ltb (x y : float) : bool :=
  match x, y with
  | NaN, _ | _, NaN => false
  | _, NInf => false
  | NInf, _ => true
  | PInf, _ => false
  | _, PInf => true
  | Fin a, Fin b => Qlt_bool a b
  end.

(** [x <= y]; false as soon as one side is NaN. *)
Definition leb (x y : float) : bool :=
  match x, y with
  | NaN, _ | _, NaN => false
  | NInf, _ => true
  | _, PInf => true
  | _, NInf => false
  | PInf, _ => false
  | Fin a, Fin b => Qle_bool a b
  end.

Definition gtb (x y : float) : bool := ltb y x.
Definition geb (x y : float) : bool := leb y x.

(** [x == y]; false as soon as one side is NaN. *)
Definition eqb (x y : float) : bool :=
  match x, y with
  | NInf, NInf | PInf, PInf => true
  | Fin a, Fin b => Qeq_bool a b
  | _, _ => false
  end.

(** [np.minimum] as [np.min] folds it: NaN wins. *)
Definition minimum (x y : float) : float :=
  if isnan x then NaN else if isnan y then NaN
  else if leb x y then x else y.

(** [np.sum] of a one-dimensional array. *)
Definition sum (l : list float) : float := fold_right add zero l.

(** [np.mean] of a one-dimensional array. *)
Definition mean (l : list float) : float := div (sum l) (of_nat (length l)).

(** [np.min] of a one-dimensional, non-empty array. *)
Definition min (l : list float) : float :=
  match l with
  | [] => NaN
  | x :: l' => fold_left minimum l' x
  end.

(** [np.where(cond)[0]]: the indices at which the condition holds. *)
Definition where_ (cond : list bool) : list nat :=
  map fst (filter snd (combine (seq 0%nat (length cond)) cond)).

(** [np.all] *)
Definition all (cond : list bool) : bool := forallb (fun b => b) cond.

End Np.

(* ================================================================== *)
(** ** Scalars an array can hold                                       *)
(* ================================================================== *)

(** [autocorrelation] is written once, against the operations it uses.
    [cos2pi n k] and [sin2pi n k] stand for the twiddle factors
    cos(2 pi k / n) and sin(2 pi k / n) of a length-[n] transform. *)
Class Scalar (A : Type) : Type := {
  s_zero : A;
  s_add : A -> A -> A;
  s_sub : A -> A -> A;
  s_mul : A -> A -> A;
  s_div : A -> A -> A;
  s_of_nat : nat -> A;
  s_sqrt : A -> A;
  cos2pi : nat -> nat -> A;
  sin2pi : nat -> nat -> A
}.

(** The scalars of exact real arithmetic.  They are not NumPy's
    [float64]: there is no rounding in them.  On them the three modes of
    [autocorrelation] are compared as the functions they compute; what
    rounding does to the modes is read on [Float64.scalar] below. *)
#[export] Instance R_scalar : Scalar R := {
  s_zero := 0%R;
  s_add := Rplus;
  s_sub := Rminus;
  s_mul := Rmult;
  s_div := Rdiv;
  s_of_nat := INR;
  s_sqrt := sqrt;
  cos2pi := fun n k => cos (2 * PI * INR k / INR n)%R;
  sin2pi := fun n k => sin (2 * PI * INR k / INR n)%R
}.

(** NumPy's [float64]: the binary64 numbers of IEEE 754 with their
    correctly rounded sum, difference, product, quotient and square
    root (round to nearest, ties to even), as the kernel's primitive
    floats have them.

    The twiddle factors of a transform are given at the quarter turns
    only, where they are exactly 0, 1 and -1, as in NumPy's transform;
    at the other angles they are NaN, so that this instance gives a
    transform of 1, 2 or 4 points its value and any other transform
    none.  [np.abs] of a complex number is C's [hypot]; [cabs] computes
    sqrt(re^2 + im^2), which is the same number whenever re^2 + im^2
    rounds to the square of a float, as on the examples below. *)
Module Float64.

Import PrimFloat.

Definition float64 : Type := PrimFloat.float.

(** The angle 2 pi k / n in quarter turns, when it is a whole number of
    them. *)
Definition quarter_turns (n k : nat) : option nat :=
  if (n =? 0)%nat then None
  else if ((4 * (k mod n)) mod n =? 0)%nat then Some (4 * (k mod n) / n)
  else None.

Definition cos_turn (n k : nat) : float64 :=
  match quarter_turns n k with
  | Some 0%nat => 1%float
  | Some 2%nat => PrimFloat.opp 1%float
  | Some _ => 0%float
  | None => PrimFloat.nan
  end.

Definition sin_turn (n k : nat) : float64 :=
  match quarter_turns n k with
  | Some 1%nat => 1%float
  | Some 3%nat => PrimFloat.opp 1%float
  | Some _ => 0%float
  | None => PrimFloat.nan
  end.

#[export] Instance scalar : Scalar float64 := {
  s_zero := 0%float;
  s_add := PrimFloat.add;
  s_sub := PrimFloat.sub;
  s_mul := PrimFloat.mul;
  s_div := PrimFloat.div;
  s_of_nat := fun n => PrimFloat.of_uint63 (Uint63.of_Z (Z.of_nat n));
  s_sqrt := PrimFloat.sqrt;
  cos2pi := cos_turn;
  sin2pi := sin_turn
}.

(** The signal [2**33, 2**-33]: two samples that are 66 binary orders
    of magnitude apart.  Both are floats, and so is their product 1. *)
Definition wide_signal : list float64 := [8589934592%float; 0x1p-33%float].

(** [a] and [b] agree within the relative tolerance [rtol]:
    |a - b| <= rtol * |b|. *)
Definition within (rtol a b : float64) : bool :=
  PrimFloat.leb (PrimFloat.abs (PrimFloat.sub a b))
                (PrimFloat.mul rtol (PrimFloat.abs b)).

End Float64.

(* ================================================================== *)
(** ** data_manipulation.py : autocorrelation                          *)
(* ================================================================== *)

Module DataManipulation.
Section WithScalar.

Context {A : Type} `{Scalar A}.

Definition complex : Type := (A * A)%type.

Definition cadd (z w : complex) : complex :=
  (s_add (fst z) (fst w), s_add (snd z) (snd w)).

Definition cmul (z w : complex) : complex :=
  (s_sub (s_mul (fst z) (fst w)) (s_mul (snd z) (snd w)),
   s_add (s_mul (fst z) (snd w)) (s_mul (snd z) (fst w))).

Definition cconj (z : complex) : complex := (fst z, s_sub s_zero (snd z)).

Definition of_real (a : A) : complex := (a, s_zero).

Definition csum (l : list complex) : complex :=
  fold_right cadd (s_zero, s_zero) l.

Definition rsum (l : list A) : A := fold_right s_add s_zero l.

(** exp(2 pi i k / n) *)
Definition cis (n k : nat) : complex := (cos2pi n k, sin2pi n k).

(** [np.abs] of a complex number. *)
Definition cabs (z : complex) : A :=
  s_sqrt (s_add (s_mul (fst z) (fst z)) (s_mul (snd z) (snd z))).

(** The input of [np.fft.fft(x, n)]: cropped or zero-padded to [n]. *)
Definition pad (x : list A) (n : nat) : list A :=
  firstn n x ++ repeat s_zero (n - length x).

(** [np.fft.fft(x, n=n)] of a real array: the discrete Fourier
    transform X[k] = sum_j x[j] exp(-2 pi i j k / n).  NumPy refuses a
    transform of no points. *)
Definition fft (x : list A) (n : nat) : result (list complex) :=
  if n <? 1
  then Raise (ValueError "Invalid number of FFT data points (0) specified.")
  else
    let xp := pad x n in
    Ok (map (fun k =>
               csum (map (fun j => cmul (of_real (nth j xp s_zero))
                                        (cconj (cis n (j * k))))
                         (seq 0 n)))
            (seq 0 n)).

(** [np.fft.ifft(X)]: x[m] = (1/n) sum_k X[k] exp(2 pi i k m / n). *)
Definition ifft (X : list complex) : result (list complex) :=
  let n := length X in
  if n <? 1
  then Raise (ValueError "Invalid number of FFT data points (0) specified.")
  else
    Ok (map (fun m =>
               let s := csum (map (fun k => cmul (nth k X (s_zero, s_zero))
                                                 (cis n (k * m)))
                                  (seq 0 n)) in
               (s_div (fst s) (s_of_nat n), s_div (snd s) (s_of_nat n)))
            (seq 0 n)).

(** [np.correlate(a, v, mode='full')] of real arrays: entry [i] is the
    sum of a[n + k] * v[n] at the lag k = i - (len(v) - 1), over the [n]
    at which both factors exist.  NumPy refuses empty arguments. *)
Definition correlate_full (a v : list A) : result (list A) :=
  let la := length a in
  let lv := length v in
  if la =? 0 then Raise (ValueError "first array argument cannot be empty")
  else if lv =? 0
  then Raise (ValueError "second array argument cannot be empty")
  else
    Ok (map (fun i =>
               let lo := (lv - 1) - i in
               let hi := Nat.min lv (la + (lv - 1) - i) in
               rsum (map (fun n => s_mul (nth (n + i - (lv - 1)) a s_zero)
                                         (nth n v s_zero))
                         (seq lo (hi - lo))))
            (seq 0 (la + lv - 1))).

(** [Cx[:len(ys)] += ys] *)
Fixpoint add_prefix (Cx ys : list A) : list A :=
  match Cx, ys with
  | c :: Cx', y :: ys' => s_add c y :: add_prefix Cx' ys'
  | _, _ => Cx
  end.

(** The body of the [loop] mode:
    [for j in range(lx): Cx[:lx-j] += x[j]*x[j:]]. *)
Definition loop_body (x : list A) (Cx : list A) (j : nat) : list A :=
  add_prefix Cx (map (s_mul (nth j x s_zero)) (skipn j x)).

(** [lx - np.arange(0, lx)] *)
Definition norm (lx : nat) : list A :=
  map (fun k => s_of_nat (lx - k)) (seq 0 lx).

(** [Cx / norm], element by element. *)
Definition divide (Cx nrm : list A) : list A :=
  map (fun p => s_div (fst p) (snd p)) (combine Cx nrm).

Definition autocorrelation (x : list A) (mode : string) : result (list A) :=
  let lx := length x in
  Cx <- (if String.eqb mode "fft" then
           X <- fft x (2 * lx) ;;
           y <- ifft (map (fun z => of_real (s_mul (cabs z) (cabs z))) X) ;;
           Ok (map fst (firstn lx y))
         else if String.eqb mode "numpy" then
           c <- correlate_full x x ;;
           Ok (skipn (lx - 1) c)
         else if String.eqb mode "loop" then
           Ok (fold_left (loop_body x) (seq 0 lx) (repeat s_zero lx))
         else
           Raise (ValueError ("The autocorrelation method, " ++ mode
                              ++ ", is not supported"))) ;;
  Ok (divide Cx (norm lx)).

(** The lag-[k] correlation sum, x[0] x[k] + ... + x[L-1-k] x[L-1]. *)
Definition lag_sum (x : list A) (k : nat) : A :=
  rsum (map (fun j => s_mul (nth j x s_zero) (nth (j + k) x s_zero))
            (seq 0 (length x - k))).

End WithScalar.
End DataManipulation.

(* ================================================================== *)
(** ** NumPy and SciPy routines taken as given                         *)
(* ================================================================== *)

(** What [scipy.stats.linregress] returns. *)
Record LinregressResult : Type := {
  slope : Np.float;
  intercept : Np.float;
  rvalue : Np.float;
  pvalue : Np.float;
  stderr : Np.float
}.

(** The library routines the repository calls and does not define.  The
    fields on [Q] give the value of a function at a finite argument inside
    its domain; the functions of [Special] below complete them with the
    special values.  [spline] is the type of the objects that
    [scipy.interpolate.InterpolatedUnivariateSpline(x, y, k=k)] builds,
    with their call, [derivative()] and [roots()] methods. *)
Class Extern : Type := {
  lnq : Q -> Q;
  log10q : Q -> Q;
  pow10q : Q -> Q;
  sqrtq : Q -> Q;
  cos2piq : nat -> nat -> Q;
  sin2piq : nat -> nat -> Q;
  linregress : list Np.float -> list Np.float -> result LinregressResult;
  gaussian_filter1d : list Np.float -> Np.float -> list Np.float;
  spline : Type;
  InterpolatedUnivariateSpline :
    list Np.float -> list Np.float -> nat -> result spline;
  call : spline -> Np.float -> Np.float;
  derivative : spline -> spline;
  roots : spline -> list Np.float
}.

Module Special.
Section WithExtern.

Context `{Extern}.
Import Np.
Local Open Scope Q_scope.

(** [np.log]: NaN below zero, -inf at zero. *)
Definition log (x : float) : float :=
  match x with
  | NaN | NInf => NaN
  | PInf => PInf
  | Fin q =>
      if Qlt_bool q 0 then NaN
      else if Qeq_bool q 0 then NInf
      else Fin (Qred (lnq q))
  end.

(** [np.log10]: NaN below zero, -inf at zero. *)
Definition log10 (x : float) : float :=
  match x with
  | NaN | NInf => NaN
  | PInf => PInf
  | Fin q =>
      if Qlt_bool q 0 then NaN
      else if Qeq_bool q 0 then NInf
      else Fin (Qred (log10q q))
  end.

(** [10**x] *)
Definition pow10 (x : float) : float :=
  match x with
  | NaN => NaN
  | NInf => Fin 0
  | PInf => PInf
  | Fin q => Fin (Qred (pow10q q))
  end.

(** [np.sqrt]: NaN below zero, zero at zero. *)
Definition sqrt (x : float) : float :=
  match x with
  | NaN | NInf => NaN
  | PInf => PInf
  | Fin q =>
      if Qlt_bool q 0 then NaN
      else if Qeq_bool q 0 then Fin 0
      else Fin (Qred (sqrtq q))
  end.

(** The scalars of a [float64] array. *)
#[export] Instance float_scalar : Scalar float := {
  s_zero := zero;
  s_add := add;
  s_sub := sub;
  s_mul := mul;
  s_div := div;
  s_of_nat := of_nat;
  s_sqrt := sqrt;
  cos2pi := fun n k => Fin (Qred (cos2piq n k));
  sin2pi := fun n k => Fin (Qred (sin2piq n k))
}.

End WithExtern.
End Special.

(* ================================================================== *)
(** ** msd.py                                                          *)
(* ================================================================== *)

(** The seven entries of a [best] or [longest] array of
    [find_diffusivity], in the order of the array. *)
Record region : Type := {
  r_diffusivity : Np.float;   (* [0] *)
  r_sterror : Np.float;       (* [1] *)
  r_t_start : Np.float;       (* [2] *)
  r_t_end : Np.float;         (* [3] *)
  r_exponent : Np.float;      (* [4] *)
  r_intercept : Np.float;     (* [5] *)
  r_npts : Np.float           (* [6], also [-1] *)
}.

(** [np.array([np.nan for x in range(7)])] *)
Definition nan_region : region :=
  {| r_diffusivity := Np.NaN; r_sterror := Np.NaN; r_t_start := Np.NaN;
     r_t_end := Np.NaN; r_exponent := Np.NaN; r_intercept := Np.NaN;
     r_npts := Np.NaN |}.

Definition all_nan (r : region) : bool :=
  Np.isnan (r_diffusivity r) && Np.isnan (r_sterror r)
  && Np.isnan (r_t_start r) && Np.isnan (r_t_end r)
  && Np.isnan (r_exponent r) && Np.isnan (r_intercept r)
  && Np.isnan (r_npts r).

(** An argument that is a NumPy array of one, two or three dimensions.
    The nested lists are rectangular, as the rows of an array are. *)
Inductive ndarray : Type :=
| Arr1 (a : list Np.float)
| Arr2 (a : list (list Np.float))
| Arr3 (a : list (list (list Np.float))).

(** A value that is a NumPy scalar or a one-dimensional array. *)
Inductive scalar_or_array : Type :=
| Scalar0 (x : Np.float)
| Array1 (a : list Np.float).

Module Msd.
Section WithExtern.

Context `{Extern}.
Import Np.
Import Special.
Import DataManipulation.

(** *** diffusivity (lines 513-567) *)

Definition diffusivity (time msd : list float) (dim : Z)
  : result (float * float * float * float * float) :=
  if negb (length msd =? length time)
  then Raise (ValueError "Arrays for time and msd are not of equal length.")
  else
    (* Find Exponent *)
    t0 <- Py.index time 0 ;;
    let t_log := map log (map (fun t => sub t t0) (slice_from time 1)) in
    m0 <- Py.index msd 0 ;;
    let msd_log := map log (map (fun m => sub m m0) (slice_from msd 1)) in
    result <- linregress t_log msd_log ;;
    let exponent := slope result in
    let r_squared := mul (rvalue result) (rvalue result) in
    result <- linregress time msd ;;
    let diffusivity := div (div (slope result) (of_Z 2)) (of_Z dim) in
    let sterror := div (div (stderr result) (of_Z 2)) (of_Z dim) in
    let intercept := intercept result in
    Ok (diffusivity, sterror, exponent, intercept, r_squared).

(** *** find_diffusivity (lines 322-460) *)

(** Lines 393-394: keep the first [use_frac] fraction of both arrays. *)
Definition truncate (time msd : list float) (use_frac : Q)
  : list float * list float :=
  let n := Py.int (inject_Z (Z.of_nat (length time)) * use_frac)%Q in
  let msd := slice_to msd n in
  let time := slice_to time n in
  (time, msd).

(** [bounds[k] is not None and not np.isnan(bounds[k])] *)
Definition given (b : option float) : bool :=
  match b with
  | None => false
  | Some v => negb (isnan v)
  end.

(** Lines 395-402: the lower bound. *)
Definition clip_lower (time msd : list float) (b : option float)
  : result (list float * list float) :=
  match b with
  | Some lo =>
      if negb (isnan lo) then
        let inds := where_ (map (fun t => gtb t lo) time) in
        if 0 <? length inds then
          ind <- Py.index inds 0 ;;
          let msd := slice_from msd (Z.of_nat ind) in
          let time := slice_from time (Z.of_nat ind) in
          Ok (time, msd)
        else
          Raise (ValueError "Provided minimum in time is greater that the time interval provided")
      else Ok (time, msd)
  | None => Ok (time, msd)
  end.

(** Lines 403-410: the upper bound. *)
Definition clip_upper (time msd : list float) (b : option float)
  : result (list float * list float) :=
  match b with
  | Some hi =>
      if negb (isnan hi) then
        let inds := where_ (map (fun t => ltb t hi) time) in
        if 0 <? length inds then
          ind <- Py.index inds 0 ;;
          let msd := slice_to msd (Z.of_nat ind) in
          let time := slice_to time (Z.of_nat ind) in
          Ok (time, msd)
        else
          Raise (ValueError "Provided maximum in time is greater that the time interval provided")
      else Ok (time, msd)
  | None => Ok (time, msd)
  end.

(** Lines 393-410: the data the scan runs on. *)
Definition preprocess (time msd : list float) (use_frac : Q)
           (bounds : option float * option float)
  : result (list float * list float) :=
  let '(time, msd) := truncate time msd use_frac in
  '(time, msd) <- clip_lower time msd (fst bounds) ;;
  clip_upper time msd (snd bounds).

(** Lines 412-414: the window size the scan starts from, and the
    warning when it had to be reset. *)
Definition reset_min_Npts (min_Npts : Z) (len : nat) : Z * list string :=
  if (Z.of_nat len <? min_Npts)%Z
  then ((Z.of_nat len - 1)%Z,
        [("Resetting minimum number of points, " ++ str_of_Z min_Npts
          ++ ", to be within length of provided data * use_frac, "
          ++ str_of_nat len)%string])
  else (min_Npts, []).

(** The entries written at lines 426 and 430. *)
Definition new_region (d_tmp stder_tmp t_first t_last exp_tmp icept : float)
           (npts : Z) : region :=
  {| r_diffusivity := d_tmp; r_sterror := stder_tmp; r_t_start := t_first;
     r_t_end := t_last; r_exponent := exp_tmp; r_intercept := icept;
     r_npts := of_Z npts |}.

(** Line 425: does the window replace [best]? *)
Definition best_updates (best : region) (exp_tmp : float) : bool :=
  ltb (abs (sub exp_tmp one)) (abs (sub (r_exponent best) one))
  || isnan (r_exponent best).

(** Lines 428-429: does the window replace [longest]? *)
Definition longest_updates (longest : region) (exp_tmp min_exp : float)
           (npts : Z) : bool :=
  ((geb exp_tmp min_exp && leb (r_npts longest) (of_Z npts))
   || isnan (r_exponent longest))
  && ((ltb (r_npts longest) (of_Z npts)
       || gtb (abs (sub (r_exponent longest) one)) (abs (sub exp_tmp one)))
      || isnan (r_exponent longest)).

(** Lines 420-430: the body of the inner loop, for the window of [npts]
    points that starts at index [i]. *)
Definition scan_window (time msd : list float) (dim : Z)
           (min_exp min_R2 : float) (npts : Z)
           (st : region * region) (i : Z) : result (region * region) :=
  let '(best, longest) := st in
  let t_tmp := slice time i (i + npts) in
  let msd_tmp := slice msd i (i + npts) in
  '(d_tmp, stder_tmp, exp_tmp, icept, r2_tmp)
    <- diffusivity t_tmp msd_tmp dim ;;
  if gtb r2_tmp min_R2 then
    best <- (if best_updates best exp_tmp then
               t_first <- Py.index t_tmp 0 ;;
               t_last <- Py.index t_tmp (-1) ;;
               Ok (new_region d_tmp stder_tmp t_first t_last exp_tmp icept npts)
             else Ok best) ;;
    longest <- (if longest_updates longest exp_tmp min_exp npts then
                  t_first <- Py.index t_tmp 0 ;;
                  t_last <- Py.index t_tmp (-1) ;;
                  Ok (new_region d_tmp stder_tmp t_first t_last exp_tmp icept npts)
                else Ok longest) ;;
    Ok (best, longest)
  else Ok (best, longest).

(** Lines 419-430: the inner loop, over the start indices. *)
Definition scan_size (time msd : list float) (dim : Z)
           (min_exp min_R2 : float) (skip : Z)
           (st : region * region) (npts : Z) : result (region * region) :=
  starts <- Py.range 0 (Z.of_nat (length time) - npts) skip ;;
  foldM (scan_window time msd dim min_exp min_R2 npts) starts st.

(** Lines 416-430: the scan over the window sizes. *)
Definition scan (time msd : list float) (dim : Z)
           (min_exp min_R2 : float) (min_Npts skip : Z)
  : result (region * region) :=
  sizes <- Py.range min_Npts (Z.of_nat (length time)) skip ;;
  foldM (scan_size time msd dim min_exp min_R2 skip) sizes
        (nan_region, nan_region).

Definition find_diffusivity (time msd : list float)
           (min_exp : float) (min_Npts skip : Z) (dim : Z) (use_frac : Q)
           (min_R2 : float) (bounds : option float * option float)
  : result (region * region * list string) :=
  if negb (length msd =? length time)
  then Raise (ValueError "Arrays for time and msd are not of equal length.")
  else
    '(time, msd) <- preprocess time msd use_frac bounds ;;
    let '(min_Npts, warnings) := reset_min_Npts min_Npts (length time) in
    '(best, longest) <- scan time msd dim min_exp min_R2 min_Npts skip ;;
    Ok (best, longest, warnings).

(** *** msd (lines 462-511) *)

(** [a - b] and [a + b] on arrays of one shape, element by element. *)
Definition vsub (a b : list float) : list float :=
  map (fun p => sub (fst p) (snd p)) (combine a b).

Definition vadd (a b : list float) : list float :=
  map (fun p => add (fst p) (snd p)) (combine a b).

(** Line 488: [coords[i] = coords[i] - coords[i][0]] *)
Definition recenter (particle : list (list float))
  : result (list (list float)) :=
  first <- Py.index particle 0 ;;
  Ok (map (fun row => vsub row first) particle).

(** Lines 491-492: one row of [DSQ], with the zero appended to it. *)
Definition dsq_row (particle : list (list float)) : list float :=
  map (fun row => Np.sum (map (fun c => mul c c) row)) particle ++ [zero].

(** Lines 497-499: the autocorrelations of the coordinates, summed. *)
Definition sab (npts dims : nat) (particle : list (list float))
  : result (list float) :=
  foldM (fun Sab dim =>
           c <- autocorrelation (map (fun row => nth dim row zero) particle)
                                "fft" ;;
           Ok (vadd Sab c))
        (seq 0 dims) (repeat zero npts).

(** Lines 501-503: the loop over the lags, on the running [SUMSQ[i]]
    and the row [particle_msd[i]]. *)
Definition lag_step (npts : nat) (DSQ_i Sab : list float)
           (st : float * list float) (t : nat)
  : result (float * list float) :=
  let '(SUMSQ_i, row) := st in
  a <- Py.index DSQ_i (Z.of_nat t - 1) ;;
  b <- Py.index DSQ_i (Z.of_nat npts - Z.of_nat t) ;;
  let SUMSQ_i := sub SUMSQ_i (add a b) in
  s <- Py.index Sab (Z.of_nat t) ;;
  Ok (SUMSQ_i,
      set_item row t (sub (div SUMSQ_i (of_nat (npts - t)))
                          (mul (of_Z 2) s))).

(** Lines 496-503: the row of [particle_msd] of one particle. *)
Definition particle_row (npts dims : nat) (particle : list (list float))
  : result (list float) :=
  let DSQ_i := dsq_row particle in
  let SUMSQ_i := mul (of_Z 2) (Np.sum DSQ_i) in
  Sab <- sab npts dims particle ;;
  st <- foldM (lag_step npts DSQ_i Sab) (seq 0 npts)
              (SUMSQ_i, repeat zero npts) ;;
  Ok (snd st).

(** [np.mean(a, axis=0)] of a two-dimensional array with [npts]
    columns. *)
Definition mean_axis0 (a : list (list float)) (npts : nat) : list float :=
  map (fun t => Np.mean (map (fun row => nth t row NaN) a)) (seq 0 npts).

Definition msd3 (coords : list (list (list float)))
  : result (list float * scalar_or_array) :=
  let nparticles := length coords in
  let npts := length (hd [] coords) in
  let dims := length (hd [] (hd [] coords)) in
  coords <- mapM recenter coords ;;
  particle_msd <- mapM (particle_row npts dims) coords ;;
  let msd := mean_axis0 particle_msd npts in
  let stderror :=
    if 1 <? nparticles
    then Scalar0 (div (Np.mean msd) (sqrt (of_nat nparticles)))
    else Array1 (map (mul NaN) (repeat one npts)) in
  Ok (msd, stderror).

Definition msd (coords : ndarray) : result (list float * scalar_or_array) :=
  match coords with
  | Arr1 _ => Raise (ValueError "An MSD cannot be calculated with a 1D array.")
  | Arr2 c => msd3 [c]
  | Arr3 c => msd3 c
  end.

(** *** debye_waller (lines 197-320) *)

(** The message of the [ValueError] of line 255 goes on with the two
    arrays, which are not printed here. *)

Definition n_min : nat := 50.

(** The arrays [tau], [dw] and [min_value] and the counter [i]. *)
Record dw_state : Type := {
  st_tau : list float;
  st_dw : list float;
  st_min_value : list float;
  st_i : nat
}.

(** Lines 267-274. *)
Fixpoint dw_loop (sp dspline concavity : spline) (extrema : list float)
         (st : dw_state) : dw_state :=
  match extrema with
  | [] => st
  | min_max :: rest =>
      let st :=
        if gtb (call concavity min_max) zero
        then {| st_tau := set_item (st_tau st) (st_i st) (pow10 min_max);
                st_dw := set_item (st_dw st) (st_i st)
                                  (pow10 (call sp min_max));
                st_min_value := set_item (st_min_value st) (st_i st)
                                         (call dspline min_max);
                st_i := S (st_i st) |}
        else st in
      if st_i st =? n_min then st
      else dw_loop sp dspline concavity rest st
  end.

Definition debye_waller (time msd : list float) (use_frac : Q)
           (sigma_spline : option float)
  : result (float * float * list string) :=
  if negb (length msd =? length time)
  then Raise (ValueError "Arrays for time and msd are not of equal length.")
  else
    let '(time, msd) := truncate time msd use_frac in
    let logtime := map log10 time in
    let logmsd := map log10 msd in
    m0 <- Py.index logmsd 0 ;;
    t0 <- Py.index logtime 0 ;;
    let '(logtime, logmsd) :=
      if isnan m0 || isinf t0
      then (slice_from logtime 1, slice_from logmsd 1)
      else (logtime, logmsd) in
    let logmsd :=
      match sigma_spline with
      | Some sigma => gaussian_filter1d logmsd sigma
      | None => logmsd
      end in
    if Np.all (map isnan logmsd)
    then Raise (ValueError "Spline could not be created with provided data")
    else
      sp <- InterpolatedUnivariateSpline logtime logmsd 5 ;;
      let dspline := derivative sp in
      let d2spline := derivative dspline in
      let extrema := roots d2spline in
      let extrema_concavity := derivative (derivative dspline) in
      let st := dw_loop sp dspline extrema_concavity extrema
                  {| st_tau := map (fun o => mul o NaN) (repeat one n_min);
                     st_dw := map (fun o => mul o NaN) (repeat one n_min);
                     st_min_value := map (fun o => mul o PInf)
                                         (repeat one n_min);
                     st_i := 0 |} in
      (* Cut off minima after deepest *)
      let m := Np.min (st_min_value st) in
      ind_min <- Py.index
                   (where_ (map (fun v => eqb v m) (st_min_value st))) 0 ;;
      dw <- Py.index (st_dw st) (Z.of_nat ind_min) ;;
      tau <- Py.index (st_tau st) (Z.of_nat ind_min) ;;
      let warnings :=
        if isnan dw
        then ["This msd array does not contain a caged-region"]
        else [] in
      Ok (dw, tau, warnings).

End WithExtern.
End Msd.

(* ================================================================== *)
(** ** fit_data.py : pull_extrema                                      *)
(* ================================================================== *)

Module FitData.
Section WithExtern.

Context `{Extern}.
Import Np.

(** The defaults of [error_length] and [extrema_cutoff]. *)
Definition default_error_length : Z := 25.
Definition default_extrema_cutoff : float := zero.

(** [np.array(points).T] for a list of [x, y] pairs: the row of the
    locations and the row of the values. *)
Definition transpose (points : list (float * float))
  : list float * list float :=
  (map fst points, map snd points).

Definition pull_extrema (xarray yarray : list float)
           (smooth_sigma : option float) (error_length : Z)
           (extrema_cutoff : float)
  : result ((list float * list float) * (list float * list float)
            * (list float * list float)) :=
  let yarray :=
    match smooth_sigma with
    | Some sigma => gaussian_filter1d yarray sigma
    | None => yarray
    end in
  sp <- InterpolatedUnivariateSpline xarray yarray 4 ;;
  let extrema := roots (derivative sp) in
  let extrema :=
    filter (fun x => gtb (abs (call sp x)) extrema_cutoff) extrema in
  if (error_length <? Z.of_nat (length extrema))%Z
  then Raise (ValueError ("Found " ++ str_of_nat (length extrema)
                ++ " extrema, consider smoothing the data with `smooth_sigma` option."))
  else
    let tmp_spline := derivative (derivative sp) in
    let concavity := map (call tmp_spline) extrema in
    let minima :=
      map (fun p => (fst p, call sp (fst p)))
          (filter (fun p => gtb (snd p) zero) (combine extrema concavity)) in
    let maxima :=
      map (fun p => (fst p, call sp (fst p)))
          (filter (fun p => negb (gtb (snd p) zero))
                  (combine extrema concavity)) in
    sp5 <- InterpolatedUnivariateSpline xarray yarray 5 ;;
    let tmp_inflections := roots (derivative (derivative sp5)) in
    let tmp_inflections :=
      filter (fun x => gtb (abs (call sp x)) extrema_cutoff)
             tmp_inflections in
    let inflections := map (fun r => (r, call sp r)) tmp_inflections in
    Ok (transpose minima, transpose maxima, transpose inflections).

End WithExtern.
End FitData.

(* ================================================================== *)
(** ** A reference implementation of the library routines              *)
(* ================================================================== *)

(** One instance of [Extern], on which the functions above can be run.
    It is exact wherever the true value is rational (square roots of
    rational squares, powers of ten at integers, the twiddle factors of
    transforms of 1, 2 and 4 points, least squares, single-piece splines
    with rational roots) and a truncated series elsewhere.  The theorems
    below hold for every instance; this one serves the examples. *)
Module Reference.

Import Np.
Local Open Scope Q_scope.

Definition Qpow (q : Q) (n : nat) : Q := Qred (Qpower q (Z.of_nat n)).

(** 2 atanh((u-1)/(u+1)), the series cut after eight terms; it is ln u
    to eight digits for u between 1/2 and 2. *)
Definition ln_series (u : Q) : Q :=
  let z := Qred ((u - 1) / (u + 1)) in
  Qred (2 * fold_right (fun i acc =>
                          Qred (Qpow z (2 * i + 1)
                                / inject_Z (Z.of_nat (2 * i + 1)) + acc))
                       0 (seq 0 8)).

(** The power of two next to q > 0: k with 2^k <= q < 2^(k+1) when
    q >= 1, and with 1 <= q 2^(-k) <= 2 when q < 1. *)
Definition binary_exponent (q : Q) : Z :=
  if Qle_bool 1 q then Z.log2 (Qfloor q)
  else - Z.log2_up (Qceiling (/ q)).

(** ln q = k ln 2 + ln (q / 2^k) *)
Definition lnq (q : Q) : Q :=
  let k := binary_exponent q in
  Qred (inject_Z k * ln_series 2 + ln_series (Qred (q / Qpower 2 k))).

(** The exponent k when q = 10^k with k >= 0. *)
Fixpoint power_of_ten (fuel : nat) (q : Q) : option Z :=
  match fuel with
  | O => None
  | S fuel' =>
      if Qeq_bool q 1 then Some 0%Z
      else if Qle_bool 10 q
           then option_map Z.succ (power_of_ten fuel' (Qred (q / 10)))
           else None
  end.

(** log10: exact at the powers of ten, ln q / ln 10 elsewhere. *)
Definition log10q (q : Q) : Q :=
  let fuel := Z.to_nat (Z.log2 (Z.abs (Qnum q)) + Z.log2 (Zpos (Qden q)) + 2) in
  let exact :=
    if Qle_bool 1 q then power_of_ten fuel q
    else option_map Z.opp (power_of_ten fuel (Qred (/ q))) in
  match exact with
  | Some k => inject_Z k
  | None => Qred (lnq q / lnq 10)
  end.

(** 10^q: exact at the integers, linear between two of them. *)
Definition pow10q (q : Q) : Q :=
  let f := Qfloor q in
  Qred (Qpower 10 f * (1 + 9 * (q - inject_Z f))).

(** The square root of n/d as sqrt(n d s^2) / (d s), rounded down at
    the scale s = 10^6; exact on the squares of rationals. *)
Definition sqrtq (q : Q) : Q :=
  let q := Qred q in
  let s := (10 ^ 6)%Z in
  let n := Qnum q in
  let d := Zpos (Qden q) in
  Qred (Qmake (Z.sqrt (n * d * s * s)) (Z.to_pos (d * s))).

(** cos and sin of 2 pi k / n: exact for n = 1, 2, 4; a Taylor
    polynomial at the angle reduced to [0, 2 pi), with pi = 355/113,
    otherwise. *)
Definition angle (n k : nat) : Q :=
  Qred (2 * (355 # 113) * inject_Z (Z.of_nat (k mod n)) / inject_Z (Z.of_nat n)).

Definition cos2piq (n k : nat) : Q :=
  match n, (k mod n)%nat with
  | 1%nat, _ | 2%nat, 0%nat | 4%nat, 0%nat => 1
  | 2%nat, _ | 4%nat, 2%nat => -1
  | 4%nat, _ => 0
  | _, _ =>
      let a := angle n k in
      Qred (1 - Qpow a 2 / 2 + Qpow a 4 / 24 - Qpow a 6 / 720)
  end.

Definition sin2piq (n k : nat) : Q :=
  match n, (k mod n)%nat with
  | 1%nat, _ | 2%nat, _ | 4%nat, 0%nat | 4%nat, 2%nat => 0
  | 4%nat, 1%nat => 1
  | 4%nat, _ => -1
  | _, _ =>
      let a := angle n k in
      Qred (a - Qpow a 3 / 6 + Qpow a 5 / 120 - Qpow a 7 / 5040)
  end.

(** [np.sqrt] with the square root above, for [linregress]. *)
Definition fsqrt (x : float) : float :=
  match x with
  | NaN | NInf => NaN
  | PInf => PInf
  | Fin q => if Qlt_bool q 0 then NaN else Fin (sqrtq q)
  end.

(** Least squares as [scipy.stats.linregress] documents it: the slope
    is cov(x, y) / var(x), the correlation coefficient is
    cov(x, y) / sqrt(var(x) var(y)) brought back into [-1, 1], the
    standard error of the slope is sqrt((1 - r^2) var(y) / var(x) / (n - 2)).
    The p-value is not computed. *)
Definition linregress (x y : list float) : result LinregressResult :=
  let n := length x in
  if (n =? 0)%nat || (length y =? 0)%nat
  then Raise (ValueError "Inputs must not be empty.")
  else if negb (n =? length y)%nat
  then Raise (ValueError "all the input array dimensions must match")
  else
    let xmean := Np.mean x in
    let ymean := Np.mean y in
    let dx := map (fun a => sub a xmean) x in
    let dy := map (fun b => sub b ymean) y in
    let ssxm := Np.mean (map (fun a => mul a a) dx) in
    let ssym := Np.mean (map (fun b => mul b b) dy) in
    let ssxym := Np.mean (map (fun p => mul (fst p) (snd p)) (combine dx dy)) in
    let r := div ssxym (fsqrt (mul ssxm ssym)) in
    let r := if gtb r one then one
             else if ltb r (neg one) then neg one else r in
    let slope := div ssxym ssxm in
    let intercept := sub ymean (mul slope xmean) in
    let stderr :=
      if (n =? 2)%nat then zero
      else fsqrt (div (div (mul (sub one (mul r r)) ssym) ssxm)
                      (of_Z (Z.of_nat n - 2))) in
    Ok {| slope := slope; intercept := intercept; rvalue := r;
          pvalue := NaN; stderr := stderr |}.

(** The Gaussian filter of vanishing width: the data unchanged. *)
Definition gaussian_filter1d (y : list float) (sigma : float) : list float :=
  y.

(** *** Single-piece splines: polynomials *)

(** A polynomial, by its coefficients from the constant one up. *)
Definition poly : Type := list Q.

Fixpoint peval (p : poly) (x : Q) : Q :=
  match p with
  | [] => 0
  | c :: p' => c + x * peval p' x
  end.

Fixpoint padd (p q : poly) : poly :=
  match p, q with
  | [], _ => q
  | _, [] => p
  | a :: p', b :: q' => Qred (a + b) :: padd p' q'
  end.

Definition pscale (c : Q) (p : poly) : poly := map (fun a => Qred (c * a)) p.

(** (x - r) p *)
Definition pmul_linear (r : Q) (p : poly) : poly :=
  padd (pscale (- r) p) (0 :: p).

Fixpoint pderiv_from (k : nat) (p : poly) : poly :=
  match p with
  | [] => []
  | c :: p' => Qred (inject_Z (Z.of_nat k) * c) :: pderiv_from (S k) p'
  end.

Definition pderiv (p : poly) : poly :=
  match p with
  | [] => []
  | _ :: p' => pderiv_from 1 p'
  end.

(** The Lagrange interpolant of the points (xs[i], ys[i]). *)
Definition lagrange (xs ys : list Q) : poly :=
  fold_right padd []
    (map (fun i =>
            let xi := nth i xs 0 in
            fold_right
              (fun j acc =>
                 if (j =? i)%nat then acc
                 else let xj := nth j xs 0 in
                      pscale (/ (xi - xj)) (pmul_linear xj acc))
              [nth i ys 0] (seq 0 (length xs)))
         (seq 0 (length xs))).

(** The rational roots of a polynomial, in increasing order: for the
    integer polynomial obtained by clearing denominators and dividing by
    the largest power of x, the fractions +-a/b with a dividing the
    constant coefficient and b the leading one (and 0 when x was a
    factor). *)
Definition divisors (n : Z) : list Z :=
  filter (fun d => (Z.rem n d =? 0)%Z)
         (map (fun k => Z.of_nat (S k)) (seq 0 (Z.to_nat (Z.abs n)))).

Fixpoint strip_zeros (p : poly) : poly :=
  match p with
  | c :: p' => if Qeq_bool c 0 then strip_zeros p' else p
  | [] => []
  end.

Fixpoint insert_sorted (q : Q) (l : list Q) : list Q :=
  match l with
  | [] => [q]
  | a :: l' =>
      if Qeq_bool q a then l
      else if Qle_bool q a then q :: l
      else a :: insert_sorted q l'
  end.

Definition rational_roots (p : poly) : list Q :=
  let p := rev (strip_zeros (rev p)) in
  let s := strip_zeros p in
  let m := fold_right (fun c acc => Z.lcm (Zpos (Qden (Qred c))) acc) 1%Z s in
  let ints := map (fun c => Qnum (Qred (c * inject_Z m))) s in
  let a0 := hd 0%Z ints in
  let an := last ints 0%Z in
  let cands :=
    flat_map (fun a => flat_map (fun b => [Qred (Qmake a (Z.to_pos b));
                                           Qred (Qmake (- a) (Z.to_pos b))])
                                (divisors an))
             (divisors a0) in
  let cands := if (length s <? length p)%nat then 0 :: cands else cands in
  fold_right insert_sorted []
             (filter (fun r => Qeq_bool (peval p r) 0) cands).

Definition finite_values (l : list float) : option (list Q) :=
  fold_right (fun x acc =>
                match x, acc with
                | Fin q, Some qs => Some (q :: qs)
                | _, _ => None
                end) (Some []) l.

(** [InterpolatedUnivariateSpline(x, y, k=k)] on k + 1 finite points,
    where the spline has no interior knot and is the interpolating
    polynomial. *)
Definition InterpolatedUnivariateSpline (x y : list float) (k : nat)
  : result poly :=
  match finite_values x, finite_values y with
  | Some xs, Some ys =>
      if negb (length xs =? length ys)%nat
      then Raise (ValueError "x and y should have a same length")
      else if negb (length xs =? S k)%nat
      then Raise (ValueError "the reference splines have k + 1 data points")
      else Ok (lagrange xs ys)
  | _, _ => Raise (ValueError "x and y array must not contain NaNs or infs.")
  end.

Definition call (p : poly) (x : float) : float :=
  match x with
  | Fin q => Fin (Qred (peval p q))
  | _ => NaN
  end.

Definition roots (p : poly) : list float := map Fin (rational_roots p).

#[export] Instance extern : Extern :=
  @Build_Extern lnq log10q pow10q sqrtq cos2piq sin2piq linregress
                gaussian_filter1d poly InterpolatedUnivariateSpline
                call pderiv roots.

End Reference.

(* ================================================================== *)
(** ** Vocabulary of the statements                                    *)
(* ================================================================== *)

Module Windows.
Section WithExtern.

Context `{Extern}.
Import Np.
Import Msd.

(** A window of the scan, once fitted: its size and start index, the
    entries that lines 426 and 430 would record for it, and the R^2 of
    its log-log fit. *)
Record fitted : Type := {
  f_npts : Z;
  f_start : Z;
  f_region : region;
  f_r2 : float
}.

(** The fit of the window [time[i:i+npts]], [msd[i:i+npts]]. *)
Definition window_fit (time msd : list float) (dim : Z) (p : Z * Z)
  : result fitted :=
  let '(npts, i) := p in
  let t_tmp := slice time i (i + npts) in
  let msd_tmp := slice msd i (i + npts) in
  '(d_tmp, stder_tmp, exp_tmp, icept, r2_tmp)
    <- diffusivity t_tmp msd_tmp dim ;;
  t_first <- Py.index t_tmp 0 ;;
  t_last <- Py.index t_tmp (-1) ;;
  Ok {| f_npts := npts; f_start := i;
        f_region := new_region d_tmp stder_tmp t_first t_last exp_tmp
                               icept npts;
        f_r2 := r2_tmp |}.

Definition f_exponent (w : fitted) : float := r_exponent (f_region w).

(** Line 424: the R^2 gate. *)
Definition passes (min_R2 : float) (w : fitted) : bool :=
  gtb (f_r2 w) min_R2.

(** [np.abs(exponent - 1.0)] *)
Definition dev (exponent : float) : float := abs (sub exponent one).

(** What one window does to [best] and to [longest]. *)
Definition record_best (min_R2 : float) (best : region) (w : fitted)
  : region :=
  if passes min_R2 w && best_updates best (f_exponent w)
  then f_region w else best.

Definition record_longest (min_exp min_R2 : float) (longest : region)
           (w : fitted) : region :=
  if passes min_R2 w
     && longest_updates longest (f_exponent w) min_exp (f_npts w)
  then f_region w else longest.

(** The windows in the order of the two loops at lines 418-419:
    pairs (npts, i). *)
Definition window_list (len : nat) (min_Npts skip : Z) : list (Z * Z) :=
  flat_map (fun npts =>
              map (pair npts) (range_list 0 (Z.of_nat len - npts) skip))
           (range_list min_Npts (Z.of_nat len) skip).

(** The pairs (npts, i) that the two loops visit, in closed form. *)
Definition scanned (len : nat) (min_Npts skip : Z) (p : Z * Z) : Prop :=
  let '(npts, i) := p in
  (0 < skip /\
   min_Npts <= npts < Z.of_nat len /\ (npts - min_Npts) mod skip = 0 /\
   0 <= i < Z.of_nat len - npts /\ i mod skip = 0)%Z.


Definition record_both (min_exp min_R2 : float) (st : region * region)
           (w : fitted) : region * region :=
  (record_best min_R2 (fst st) w, record_longest min_exp min_R2 (snd st) w).

(** The entries recorded for a window carry its size. *)
Definition sized (w : fitted) : Prop :=
  r_npts (f_region w) = of_Z (f_npts w).

Definition by_size (u w : fitted) : Prop := (f_npts u <= f_npts w)%Z.

(** [best] after the windows [ws]: the NaN array when none passed the
    gate, otherwise the entries of a passing window than which no
    passing window has an exponent strictly closer to one. *)
Definition best_spec (min_R2 : float) (ws : list fitted) (b : region)
  : Prop :=
  (Forall (fun w => passes min_R2 w = false) ws /\ b = nan_region)
  \/ exists w,
    In w ws /\ passes min_R2 w = true /\ b = f_region w /\
    (forall u, In u ws -> passes min_R2 u = true ->
               ltb (dev (f_exponent u)) (dev (f_exponent w)) = false) /\
    (isnan (f_exponent w) = true ->
     forall u, In u ws -> passes min_R2 u = true ->
               isnan (f_exponent u) = true).

(** [longest] after the windows [ws]: the NaN array when none passed
    the gate, otherwise the entries of a passing window [w] such that no
    passing window with exponent at least [min_exp] has more points
    than [w], or as many points and an exponent strictly closer to
    one. *)
Definition longest_spec (min_exp min_R2 : float) (ws : list fitted)
           (l : region) : Prop :=
  (Forall (fun w => passes min_R2 w = false) ws /\ l = nan_region)
  \/ exists w,
    In w ws /\ passes min_R2 w = true /\ l = f_region w /\
    (forall u, In u ws -> passes min_R2 u = true ->
               geb (f_exponent u) min_exp = true ->
               (f_npts u <= f_npts w)%Z /\
               (f_npts u = f_npts w ->
                ltb (dev (f_exponent u)) (dev (f_exponent w)) = false)) /\
    (isnan (f_exponent w) = true ->
     forall u, In u ws -> passes min_R2 u = true ->
               isnan (f_exponent u) = true).

(** The window size the scan starts from (lines 412-414). *)
Definition effective_min_Npts (min_Npts : Z) (len : nat) : Z :=
  fst (reset_min_Npts min_Npts len).

End WithExtern.
End Windows.

Module Caging.
Section WithExtern.

Context `{Extern}.
Import Np.
Import Special.
Import Msd.

(** Lines 241-256 of [debye_waller]: the checks and the quintic spline of
    log10(msd) against log10(time). *)
Definition dw_spline (time msd : list float) (use_frac : Q)
           (sigma_spline : option float) : result spline :=
  if negb (length msd =? length time)
  then Raise (ValueError "Arrays for time and msd are not of equal length.")
  else
    let '(time, msd) := truncate time msd use_frac in
    let logtime := map log10 time in
    let logmsd := map log10 msd in
    m0 <- Py.index logmsd 0 ;;
    t0 <- Py.index logtime 0 ;;
    let '(logtime, logmsd) :=
      if isnan m0 || isinf t0
      then (slice_from logtime 1, slice_from logmsd 1)
      else (logtime, logmsd) in
    let logmsd :=
      match sigma_spline with
      | Some sigma => gaussian_filter1d logmsd sigma
      | None => logmsd
      end in
    if Np.all (map isnan logmsd)
    then Raise (ValueError "Spline could not be created with provided data")
    else InterpolatedUnivariateSpline logtime logmsd 5.

(** The candidates of lines 262-274: the roots of the second derivative
    at which the third derivative is positive, in the order of the roots,
    the first [n_min] = 50 of them at most. *)
Definition dw_candidates (sp : spline) : list float :=
  firstn n_min
         (filter (fun r =>
                    gtb (call (derivative (derivative (derivative sp))) r)
                        zero)
                 (roots (derivative (derivative sp)))).

(** Lines 262-281, from the spline on. *)
Definition dw_select (sp : spline) : result (float * float * list string) :=
  let dspline := derivative sp in
  let st := dw_loop sp dspline (derivative (derivative dspline))
              (roots (derivative dspline))
              {| st_tau := map (fun o => mul o NaN) (repeat one n_min);
                 st_dw := map (fun o => mul o NaN) (repeat one n_min);
                 st_min_value := map (fun o => mul o PInf) (repeat one n_min);
                 st_i := 0 |} in
  let m := Np.min (st_min_value st) in
  ind_min <- Py.index (where_ (map (fun v => eqb v m) (st_min_value st))) 0 ;;
  dw <- Py.index (st_dw st) (Z.of_nat ind_min) ;;
  tau <- Py.index (st_tau st) (Z.of_nat ind_min) ;;
  let warnings :=
    if isnan dw
    then ["This msd array does not contain a caged-region"]
    else [] in
  Ok (dw, tau, warnings).

(** [l] with the values [vals] written from index [i] on. *)
Definition place (l vals : list float) (i : nat) : list float :=
  firstn i l ++ vals ++ skipn (i + length vals) l.

End WithExtern.
End Caging.

Module Regression.

Import Np.


(** A strictly positive, finite value. *)
Definition positive (m : float) : Prop :=
  exists q : Q, m = Fin q /\ (0 < q)%Q.

End Regression.

Module Correlation.
Section WithScalar.

Context {A : Type} `{Scalar A}.
Import DataManipulation.

(** The autocorrelation the contract asks for: entry [k] is the lag-[k]
    correlation sum divided by [L - k]. *)
Definition normalised_lag_sums (x : list A) : list A :=
  map (fun k => s_div (lag_sum x k) (s_of_nat (length x - k)))
      (seq 0 (length x)).

End WithScalar.
End Correlation.

Module Spectrum.

Import DataManipulation.
Local Open Scope R_scope.

(** The angular step 2 pi j / N. *)
Definition omega (N j : nat) : R := 2 * PI * INR j / INR N.

(** The real and (negated) imaginary parts of the transform of [x] at
    the frequency [k] of a transform of [N] points. *)
Definition cos_series (x : list R) (N k : nat) : R :=
  rsum (map (fun j => nth j x 0 * cos (INR k * omega N j))
            (seq 0 (length x))).

Definition sin_series (x : list R) (N k : nat) : R :=
  rsum (map (fun j => nth j x 0 * sin (INR k * omega N j))
            (seq 0 (length x))).

(** The power spectrum |X[k]|^2. *)
Definition power (x : list R) (N k : nat) : R :=
  cos_series x N k * cos_series x N k + sin_series x N k * sin_series x N k.

End Spectrum.

(* ================================================================== *)
(** ** Inputs of the examples                                          *)
(* ================================================================== *)

Module Examples.

Import Np.
#[local] Existing Instance Reference.extern.

Definition default_min_exp : float := Fin (991 # 1000).
Definition default_min_R2 : float := Fin (97 # 100).

(** A sub-diffusive curve, msd = sqrt(time). *)
Definition sqrt_time : list float := map of_Z [0; 1; 4; 9]%Z.
Definition sqrt_msd : list float := map of_Z [0; 1; 2; 3]%Z.

(** [find_diffusivity(sqrt_time, sqrt_msd, min_Npts=3)] *)
Definition sqrt_call : result (region * region * list string) :=
  Msd.find_diffusivity sqrt_time sqrt_msd default_min_exp 3 1 3 1
                       default_min_R2 (None, None).

Definition sqrt_best : region :=
  Eval vm_compute in
    match sqrt_call with Ok (b, _, _) => b | Raise _ => nan_region end.

Definition sqrt_longest : region :=
  Eval vm_compute in
    match sqrt_call with Ok (_, l, _) => l | Raise _ => nan_region end.

(** A diffusive curve of five samples, msd = time. *)
Definition line : list float := map of_Z [0; 1; 2; 3; 4]%Z.

(** [find_diffusivity(line, line)], with the default [min_Npts=10]. *)
Definition line_call : result (region * region * list string) :=
  Msd.find_diffusivity line line default_min_exp 10 1 3 1
                       default_min_R2 (None, None).

Definition line_best : region :=
  Eval vm_compute in
    match line_call with Ok (b, _, _) => b | Raise _ => nan_region end.

Definition line_longest : region :=
  Eval vm_compute in
    match line_call with Ok (_, l, _) => l | Raise _ => nan_region end.

Definition line_warnings : list string :=
  Eval vm_compute in
    match line_call with Ok (_, _, w) => w | Raise _ => [] end.

(** Two particles on a line, at two times. *)
Definition two_particles : ndarray :=
  Arr3 [[[of_Z 0]; [of_Z 1]]; [[of_Z 0]; [of_Z 2]]].

(** The data of y = x^4 - 2 x^2 + 2 at x = -2 .. 2: three critical
    points, at -1, 0 and 1. *)
Definition quartic_x : list float := map of_Z [-2; -1; 0; 1; 2]%Z.
Definition quartic_y : list float := map of_Z [10; 1; 2; 1; 10]%Z.

Definition quartic_spline : Reference.poly :=
  Eval vm_compute in
    match Reference.InterpolatedUnivariateSpline quartic_x quartic_y 4 with
    | Ok p => p
    | Raise _ => []
    end.

(** Times at the decades 1, 10, ..., 10^5. *)
Definition decades : list float :=
  map (fun k => Fin (Qpower 10 k)) [0; 1; 2; 3; 4; 5]%Z.

(** A curve whose log-log spline is
    3 x^5 - 30 x^4 + 110 x^3 - 180 x^2 + 100 x: its second derivative
    60 (x - 1)(x - 2)(x - 3) vanishes with a positive third derivative at
    x = 1 and x = 3. *)
Definition caged_msd : list float :=
  map (fun k => Fin (Qpower 10 k)) [0; 3; -24; -51; -48; 375]%Z.


(** The spline of the power law msd = time. *)
Definition power_law_spline : Reference.poly :=
  Eval vm_compute in
    match Caging.dw_spline decades decades 1 None with
    | Ok p => p
    | Raise _ => []
    end.




(** A curve on five samples whose slope changes at time 4: the scan
    with [min_Npts = 3] has the three windows of 3 points from index 0,
    3 points from index 1 and 4 points from index 0. *)
Definition kink_time : list float := map of_Z [0; 1; 4; 7; 8]%Z.
Definition kink_msd : list float := map of_Z [0; 1; 2; 5; 6]%Z.

(** [find_diffusivity(kink_time, kink_msd, min_Npts=3)] *)
Definition kink_call : result (region * region * list string) :=
  Msd.find_diffusivity kink_time kink_msd default_min_exp 3 1 3 1
                       default_min_R2 (None, None).

Definition kink_best : region :=
  Eval vm_compute in
    match kink_call with Ok (b, _, _) => b | Raise _ => nan_region end.

Definition kink_longest : region :=
  Eval vm_compute in
    match kink_call with Ok (_, l, _) => l | Raise _ => nan_region end.

(** The fit of the window of 3 points from index 1 of the kinked
    curve. *)
Definition kink_second_window : Windows.fitted :=
  Eval vm_compute in
    match Windows.window_fit kink_time kink_msd 3 (3, 1)%Z with
    | Ok w => w
    | Raise _ => Windows.Build_fitted 0 0 nan_region NaN
    end.

(** A curve on the same times on which all three windows pass the R^2
    gate, with three different exponents. *)
Definition ramp_msd : list float := map of_Z [0; 1; 2; 3; 4]%Z.

(** [find_diffusivity(kink_time, ramp_msd, min_Npts=3)] *)
Definition ramp_call : result (region * region * list string) :=
  Msd.find_diffusivity kink_time ramp_msd default_min_exp 3 1 3 1
                       default_min_R2 (None, None).

Definition ramp_best : region :=
  Eval vm_compute in
    match ramp_call with Ok (b, _, _) => b | Raise _ => nan_region end.

Definition ramp_longest : region :=
  Eval vm_compute in
    match ramp_call with Ok (_, l, _) => l | Raise _ => nan_region end.




End Examples.
(* ================================================================== *)
(** ** Trajectories: vocabulary for the input of msd                   *)
(* ================================================================== *)

Module Trajectories.

Import Np.

(** The trajectory [particle] moved as a whole by the vector [shift]:
    every position [row] becomes [row + shift]. *)
Definition translate (shift : list float) (particle : list (list float))
  : list (list float) :=
  map (fun row => Msd.vadd row shift) particle.

(** Every particle of [coords] moved by its own vector of [shifts]. *)
Definition translate_each (shifts : list (list float))
           (coords : list (list (list float))) : list (list (list float)) :=
  map (fun p => translate (fst p) (snd p)) (combine shifts coords).

(** An array of [npts] time steps and [dims] coordinates per position,
    for every particle. *)
Definition rectangular (npts dims : nat) (coords : list (list (list float)))
  : Prop :=
  Forall (fun particle =>
            length particle = npts /\
            Forall (fun row => length row = dims) particle) coords.

Definition finite_array (coords : list (list (list float))) : Prop :=
  Forall (Forall (Forall (fun c => isfinite c = true))) coords.

End Trajectories.

(* ================================================================== *)
(** ** Python: the other built-in exceptions                           *)
(* ================================================================== *)

(** The functions embedded from here on can raise exceptions of more
    classes than the two of [Py.exn].  They run in the error monad of
    [Px.outcome], whose exceptions are those of [Py.exn] and four more
    classes; [Px.lift] runs a computation of [Py.result] in it. *)
Module Px.

Inductive exn : Type :=
| Std (e : Py.exn)
| KeyError
| TypeError (msg : string)
| NameError (msg : string)
| AttributeError (msg : string)
| OverflowError (msg : string).

Inductive outcome (A : Type) : Type :=
| Done (a : A)
| Fail (e : exn).
Arguments Done {A} a.
Arguments Fail {A} e.

Definition bind {A B} (m : outcome A) (k : A -> outcome B) : outcome B :=
  match m with
  | Done a => k a
  | Fail e => Fail e
  end.

Definition lift {A} (m : Py.result A) : outcome A :=
  match m with
  | Py.Ok a => Done a
  | Py.Raise e => Fail (Std e)
  end.

(** [for a in l: acc = body(acc, a)] where the body may raise. *)
Fixpoint foldM {A S} (body : S -> A -> outcome S) (l : list A) (acc : S)
  : outcome S :=
  match l with
  | [] => Done acc
  | a :: l' => bind (body acc a) (foldM body l')
  end.

(** [int(x)] of a float: truncation towards zero; NaN and the
    infinities have no integer. *)
Definition int (x : Np.float) : outcome Z :=
  match x with
  | Np.NaN => Fail (Std (ValueError "cannot convert float NaN to integer"))
  | Np.PInf | Np.NInf =>
      Fail (OverflowError "cannot convert float infinity to integer")
  | Np.Fin q => Done (Py.int q)
  end.

End Px.

Declare Scope px_scope.
Notation "x <- m ;; k" := (Px.bind m (fun x => k))
  (at level 61, m at next level, right associativity) : px_scope.
Notation "' pat <- m ;; k" := (Px.bind m (fun x => match x with pat => k end))
  (at level 61, pat pattern, m at next level, right associativity) : px_scope.

(* ================================================================== *)
(** ** cluster.py : analyze_clustering                                 *)
(* ================================================================== *)

(** [cluster_array] holds one row per frame and one cluster number per
    particle; a particle that is absent from a frame has the number
    NaN.  [ncut] is an integer.  The plots of [show_plot] are left
    out. *)
Module Cluster.

Import Np Px.
Local Open Scope px_scope.

(** [np.fmax]: the larger of two values, a NaN giving way to a number. *)
Definition fmax (x y : float) : float :=
  if isnan x then y
  else if isnan y then x
  else if leb x y then y else x.

(** [np.nanmax] of the entries of an array: the largest entry that is
    not NaN, or NaN when all entries are; an array without entries is
    refused. *)
Definition nanmax (entries : list float) : outcome float :=
  match entries with
  | [] => Fail (Std (ValueError "zero-size array to reduction operation fmax which has no identity"))
  | x :: rest => Done (fold_left fmax rest x)
  end.

(** [max] of a list of lengths; an empty list is refused. *)
Definition max_of (lens : list nat) : outcome nat :=
  match lens with
  | [] => Fail (Std (ValueError "max() arg is an empty sequence"))
  | n :: rest => Done (fold_left Nat.max rest n)
  end.

(** Line 121: [np.sum([x == y for x in tmp])], the number of particles
    of the frame [tmp] with the cluster number [y]. *)
Definition population (tmp : list float) (y : Z) : Z :=
  Z.of_nat (length (filter (fun x => eqb x (of_Z y)) tmp)).

(** Line 121: the populations of the clusters 1 .. [nclusters]. *)
Definition frame_clusters (nclusters : Z) (tmp : list float) : list Z :=
  map (population tmp) (range_list 1 (nclusters + 1) 1).

(** [clusters[np.where(cond)]]: the entries at which [cond] holds. *)
Definition take_where (cond : Z -> bool) (clusters : list Z) : list Z :=
  map (fun x => nth x clusters 0%Z) (where_ (map cond clusters)).

(** Line 122: the number of particles in clusters of at most [ncut]
    particles. *)
Definition unclustered (ncut : Z) (clusters : list Z) : Z :=
  fold_right Z.add 0%Z
             (take_where (fun c => (c <? ncut + 1)%Z && (0 <? c)%Z) clusters).

(** Line 123: the populations above [ncut]. *)
Definition clustered (ncut : Z) (clusters : list Z) : list Z :=
  take_where (fun c => (ncut <? c)%Z) clusters.

(** Lines 128-130: a row of [cluster_output], padded with zeros. *)
Definition padded (lx : nat) (tmp : list Z) : list float :=
  map of_Z tmp ++ repeat zero (lx - length tmp).

Definition analyze_clustering (cluster_array : ndarray) (ncut : Z)
  : outcome (list (list float) * list float) :=
  match cluster_array with
  | Arr2 frames =>
      top <- nanmax (concat frames) ;;
      nclusters <- Px.int top ;;
      let nparticles :=
        map (fun tmp => of_Z (unclustered ncut (frame_clusters nclusters tmp)))
            frames in
      let cluster_list :=
        map (fun tmp => clustered ncut (frame_clusters nclusters tmp))
            frames in
      lx <- max_of (map (@length Z) cluster_list) ;;
      let cluster_output := map (padded lx) cluster_list in
      Done (cluster_output, nparticles)
  | _ => Fail (Std (ValueError "Input array should be 2D"))
  end.

End Cluster.

Module Clusters.

Import Np.

(** A cluster number: one of the values 1, 2, 3, ... *)
Definition is_cluster_number (x : float) : bool :=
  match x with
  | Fin q => Qeq_bool q (inject_Z (Qfloor q)) && (1 <=? Qfloor q)%Z
  | _ => false
  end.

End Clusters.

(* ================================================================== *)
(** ** data_manipulation.py : remove_duplicate_pairs                   *)
(* ================================================================== *)

(** The entries of the lists are values of a type [V] with the equality
    test [eqb] that Python's [==] and [in] run.  [array] is a list of
    lists, so both [isiterable] tests of lines 234-237 pass; what is left
    of the second one is the test on the length of [array[0]]. *)
Module Pairs.
Section WithEq.

Variable V : Type.
Variable eqb : V -> V -> bool.

(** [v in l] *)
Definition member (v : V) (l : list V) : bool :=
  existsb (fun e => eqb e v) l.

(** Line 243: [[tmp2[1] for tmp2 in new_array if tmp2[0] == key]] *)
Fixpoint seconds_with_first (key : V) (new_array : list (list V))
  : result (list V) :=
  match new_array with
  | [] => Ok []
  | tmp2 :: rest =>
      first <- Py.index tmp2 0 ;;
      if eqb first key then
        second <- Py.index tmp2 1 ;;
        others <- seconds_with_first key rest ;;
        Ok (second :: others)
      else seconds_with_first key rest
  end.

(** Lines 241-244: the body of the loop, on [new_array]. *)
Definition keep_if_new (new_array : list (list V)) (tmp_set : list V)
  : result (list (list V)) :=
  first <- Py.index tmp_set 0 ;;
  firsts <- mapM (fun tmp => Py.index tmp 0) new_array ;;
  if negb (member first firsts) then Ok (new_array ++ [tmp_set])
  else
    second <- Py.index tmp_set 1 ;;
    seconds <- seconds_with_first first new_array ;;
    if negb (member second seconds) then Ok (new_array ++ [tmp_set])
    else Ok new_array.

Definition remove_duplicate_pairs (array : list (list V))
  : result (list (list V)) :=
  if match array with
     | [] => false
     | first :: _ => length first <? 2
     end
  then Raise (ValueError "Each element in the second dimension must be iterable and at least of length two.")
  else foldM keep_if_new array [].

End WithEq.
End Pairs.

Module Sequences.

(** [l1] is [l2] with some of its entries left out, the others in
    their order. *)
Inductive Subseq {A : Type} : list A -> list A -> Prop :=
| Subseq_nil : Subseq [] []
| Subseq_skip (a : A) (l1 l2 : list A) : Subseq l1 l2 -> Subseq l1 (a :: l2)
| Subseq_keep (a : A) (l1 l2 : list A) :
    Subseq l1 l2 -> Subseq (a :: l1) (a :: l2).

(** The first two entries of an entry: the pair that
    [remove_duplicate_pairs] compares. *)
Definition pair_of {A : Type} (entry : list A) : list A := firstn 2 entry.

(** An equality test that decides equality. *)
Definition decides {A : Type} (eqb : A -> A -> bool) : Prop :=
  forall x y : A, eqb x y = true <-> x = y.

End Sequences.

(* ================================================================== *)
(** ** data_manipulation.py : array2dict                               *)
(* ================================================================== *)

(** A Python [dict] is a list of key-value pairs in the order of
    insertion, with one pair per key. *)
Module Dict.
Section WithKey.

Variables K W : Type.
Variable eqb : K -> K -> bool.

Definition dict : Type := list (K * W).

(** [d.get(k)] *)
Fixpoint get (d : dict) (k : K) : option W :=
  match d with
  | [] => None
  | (k', w) :: d' => if eqb k' k then Some w else get d' k
  end.

(** [k in d] *)
Definition contains (d : dict) (k : K) : bool :=
  match get d k with Some _ => true | None => false end.

(** [d[k]] *)
Definition item (d : dict) (k : K) : Px.outcome W :=
  match get d k with
  | Some w => Px.Done w
  | None => Px.Fail Px.KeyError
  end.

(** [d[k] = w]: the value of an existing key is replaced where it is, a
    new key goes to the end. *)
Fixpoint set (d : dict) (k : K) (w : W) : dict :=
  match d with
  | [] => [(k, w)]
  | (k', w') :: d' => if eqb k' k then (k', w) :: d' else (k', w') :: set d' k w
  end.

End WithKey.
End Dict.

(** The rows of [array] are lists of values of a type [V] with the
    equality test [eqb] of Python's [==]; [keys] is a list of strings.
    The lists that line 176 appends to are created one per key and per
    row label at line 172, so no two of them are the same object, and the
    append is an update of the dictionary. *)
Module Grouping.
Section WithEq.

Variable V : Type.
Variable eqb : V -> V -> bool.

Import Px.
Local Open Scope px_scope.

(** The value of one row label: a list of values for every key. *)
Definition columns : Type := Dict.dict string (list V).

(** Line 172: [{key: [] for key in keys}] *)
Definition empty_columns (keys : list string) : columns :=
  fold_left (fun d key => Dict.set String.eqb d key []) keys [].

(** Line 176: [dictionary[line[0]][keys[i-1]].append(line[i])] *)
Definition append_entry (keys : list string) (line : list V)
           (dictionary : Dict.dict V columns) (i : Z)
  : outcome (Dict.dict V columns) :=
  label <- lift (Py.index line 0) ;;
  entry <- Dict.item eqb dictionary label ;;
  key <- lift (Py.index keys (i - 1)) ;;
  values <- Dict.item String.eqb entry key ;;
  v <- lift (Py.index line i) ;;
  Done (Dict.set eqb dictionary label
                 (Dict.set String.eqb entry key (values ++ [v]))).

(** Lines 171-176: the body of the loop over the rows. *)
Definition add_line (keys : list string) (dictionary : Dict.dict V columns)
           (line : list V) : outcome (Dict.dict V columns) :=
  label <- lift (Py.index line 0) ;;
  let dictionary :=
    if negb (Dict.contains eqb dictionary label)
    then Dict.set eqb dictionary label (empty_columns keys)
    else dictionary in
  if negb (length keys =? length (slice_from line 1))
  then Fail (Std (ValueError "The number of keys must equal the number of entries len(array[i][1:])"))
  else foldM (append_entry keys line)
             (range_list 1 (Z.of_nat (length line)) 1) dictionary.

Definition array2dict (array : list (list V)) (keys : list string)
  : outcome (Dict.dict V columns) :=
  foldM (add_line keys) array [].

End WithEq.
End Grouping.

Module Tables.

(** The rows of [array] whose first entry is [label]. *)
Definition rows_of {V : Type} (eqb : V -> V -> bool) (label : V)
           (array : list (list V)) : list (list V) :=
  filter (fun line => match line with
                      | first :: _ => eqb first label
                      | [] => false
                      end) array.

(** What line 176 does to the columns [entry] of a row label for one
    key and one value. *)
Definition extend {V : Type} (entry : Grouping.columns V)
           (kv : string * V) : Grouping.columns V :=
  match Dict.get String.eqb entry (fst kv) with
  | Some values => Dict.set String.eqb entry (fst kv) (values ++ [snd kv])
  | None => entry
  end.

(** The columns of [label] in [dictionary] after lines 171-172: those it
    has, or the empty ones created for it. *)
Definition columns_of {V : Type} (eqb : V -> V -> bool) (keys : list string)
           (dictionary : Dict.dict V (Grouping.columns V)) (label : V)
  : Grouping.columns V :=
  match Dict.get eqb dictionary label with
  | Some entry => entry
  | None => Grouping.empty_columns V keys
  end.

(** Every key of [keys] has a list in the columns [entry]. *)
Definition present {V : Type} (keys : list string)
           (entry : Grouping.columns V) : Prop :=
  forall key, In key keys ->
              exists values, Dict.get String.eqb entry key = Some values.

(** The entries at the index [j] of the rows that have one. *)
Definition column {V : Type} (j : nat) (rows : list (list V)) : list V :=
  flat_map (fun line => firstn 1 (skipn j line)) rows.

End Tables.

(* ================================================================== *)
(** ** data_manipulation.py : basic_stats                              *)
(* ================================================================== *)

(** What SciPy's statistics routines and NumPy's random generator
    return is taken as given, as is the NumPy release the code runs on:
    [np.float] is an alias of the built-in [float] up to NumPy 1.23 and
    is not defined from NumPy 1.24 on.  [normaltest_pvalue data] stands
    for [scipy.stats.normaltest(data).pvalue] and [t_ppf q df] for
    [scipy.stats.t.ppf(q, df)].  A [generator] is a state of
    [np.random]; [seed] is [np.random.seed()] and [uniform g low high n]
    is [np.random.uniform(low, high, n)], which returns [n] draws. *)
Class Library : Type := {
  has_np_float : bool;
  t_ppf : Np.float -> Np.float -> Np.float;
  normaltest_pvalue : list Np.float -> Px.outcome Np.float;
  generator : Type;
  seed : generator -> generator;
  uniform : generator -> Np.float -> Np.float -> nat
            -> Px.outcome (list Np.float * generator);
  uniform_length :
    forall g low high n draws g',
      uniform g low high n = Px.Done (draws, g') -> length draws = n
}.

(** [data] is a list of floats, so the [isiterable] test of line 32
    passes. *)
Module Statistics.
Section WithLibrary.

Context `{Extern} `{Library}.
Import Np Px Special.
Local Open Scope px_scope.

(** [np.isnan(data).sum()] *)
Definition count_nan (data : list float) : nat := length (filter isnan data).

(** The entries that [np.nanmean] and [np.nanstd] work on. *)
Definition numbers (data : list float) : list float :=
  filter (fun x => negb (isnan x)) data.

(** [np.nanmean] *)
Definition nanmean (data : list float) : float := Np.mean (numbers data).

(** [np.nanstd]: the square root of the mean squared deviation from
    the mean, over the entries that are not NaN. *)
Definition nanstd (data : list float) : float :=
  let avg := nanmean data in
  sqrt (Np.mean (map (fun x => mul (sub x avg) (sub x avg)) (numbers data))).

(** The names of the parameters of [basic_stats]. *)
Definition basic_stats_parameters : list string :=
  ["data"; "confidence"; "error_type"].

Definition basic_stats (data : list float) (confidence : float)
           (error_type : string) : outcome (float * float) :=
  if negb (length data =? 0) && negb (length data =? count_nan data) then
    (* data = np.array(data, np.float); the message is the first line
       of NumPy's *)
    _ <- (if has_np_float then Done tt
          else Fail (AttributeError "module 'numpy' has no attribute 'float'")) ;;
    let lx := length data - count_nan data in
    let se := div (nanstd data) (sqrt (of_nat lx)) in
    std <- (if String.eqb error_type "standard_error" then Done se
            else if String.eqb error_type "confidence" then
              Done (mul se (t_ppf (div (add one confidence) (of_Z 2))
                                  (of_Z (Z.of_nat lx - 1))))
            else if String.eqb error_type "standard_dev" then
              Done (nanstd data)
            else
              Fail (Std (ValueError ("error_type, " ++ error_type
                                     ++ ", is not supported")))) ;;
    let mean := nanmean data in
    _ <- (if 8 <? lx then
            tmp <- normaltest_pvalue data ;;
            if ltb tmp (Fin (5 # 100))
            then (* warning.warn(...): the module is imported as warnings *)
              Fail (NameError "name 'warning' is not defined")
            else Done tt
          else Done tt) ;;
    Done (mean, std)
  else Done (NaN, NaN).

End WithLibrary.
End Statistics.

(* ================================================================== *)
(** ** monte_carlo_volume.py                                           *)
(* ================================================================== *)

(** [ref_pts] is a list of points, each a list of as many floats;
    [rcut] is a float or a one-dimensional array; [npts] is a float
    (the default is [1e+4]) or [None]; [repeats] is an integer. *)
Module MonteCarloVolume.
Section WithLibrary.

Context `{Extern} `{Library}.
Import Np Px Special Statistics.
Local Open Scope px_scope.

(** A call [fname(..., k=v, ...)]: a keyword that names no parameter of
    the function is a [TypeError], raised before the body runs. *)
Definition check_keywords (fname : string) (parameters keywords : list string)
  : outcome unit :=
  match filter (fun k => negb (existsb (String.eqb k) parameters)) keywords
  with
  | [] => Done tt
  | k :: _ =>
      Fail (TypeError (fname ++ "() got an unexpected keyword argument '"
                       ++ k ++ "'"))
  end.

(** [np.maximum] as [np.max] folds it: NaN wins. *)
Definition maximum (x y : float) : float :=
  if isnan x then NaN else if isnan y then NaN
  else if leb x y then y else x.

(** [np.max] of a one-dimensional, non-empty array. *)
Definition amax (l : list float) : float :=
  match l with
  | [] => NaN
  | x :: l' => fold_left maximum l' x
  end.

(** [a[:, i]] of an array of rows. *)
Definition column (rows : list (list float)) (i : nat) : list float :=
  map (fun row => nth i row NaN) rows.

(** [random_points(npts, ranges)] (lines 6-33): one row per point, one
    column of draws per range. *)
Definition random_points (g : generator) (npts : float)
           (ranges : list (float * float))
  : outcome (list (list float) * generator) :=
  let g := seed g in
  n <- Px.int npts ;;
  if (n <? 0)%Z
  then Fail (Std (ValueError "negative dimensions are not allowed"))
  else
    st <- foldM (fun (st : list (list float) * generator)
                     (range : float * float) =>
                   r <- uniform (snd st) (fst range) (snd range)
                                (Z.to_nat n) ;;
                   Done (fst st ++ [fst r], snd r))
                ranges ([], g) ;;
    Done (map (fun i => map (fun draws => nth i draws zero) (fst st))
              (seq 0 (Z.to_nat n)),
          snd st).

(** Lines 59-80 of [overlapping_spheres]: the volumes found by the
    [repeats] Monte Carlo runs. *)
Definition region_volumes (g : generator) (rcut : scalar_or_array)
           (ref_pts : list (list float)) (npts : option float) (repeats : Z)
  : outcome (list float * generator) :=
  rcut <- match rcut with
          | Scalar0 x => Done (map (mul x) (repeat one (length ref_pts)))
          | Array1 a =>
              if negb (length ref_pts =? length a)
              then Fail (Std (ValueError "Length of rcut (circle radii) and number of reference points (circle centers) must be equal"))
              else Done a
          end ;;
  let dims := length (hd [] ref_pts) in
  let means := map (fun i => Np.mean (column ref_pts i)) (seq 0 dims) in
  let ref_pts := map (fun row => Msd.vsub row means) ref_pts in
  ranges <- lift (mapM (fun i =>
                          let x := column ref_pts i in
                          Py.bind (Py.index rcut (Z.of_nat i))
                                  (fun r => Ok (sub (Np.min x) r,
                                                add (amax x) r)))
                       (seq 0 dims)) ;;
  let volume :=
    fold_left mul (map (fun r => sub (snd r) (fst r)) ranges) one in
  npts <- match npts with
          | None => v <- Px.int volume ;; Done (of_Z (v * 10))
          | Some n => Done n
          end ;;
  if (repeats <? 0)%Z
  then Fail (Std (ValueError "negative dimensions are not allowed"))
  else
    foldM (fun (st : list float * generator) (k : nat) =>
             pts <- random_points (snd st) npts ranges ;;
             let in_vol :=
               map (fun x =>
                      existsb (fun j =>
                                 leb (Np.sum
                                        (map (fun c => mul c c)
                                             (Msd.vsub (nth j ref_pts []) x)))
                                     (mul (nth j rcut NaN) (nth j rcut NaN)))
                              (seq 0 (length rcut)))
                   (fst pts) in
             let inside := length (filter (fun b => b) in_vol) in
             Done (set_item (fst st) k
                            (div (mul volume (of_nat inside)) npts),
                   snd pts))
          (seq 0 (Z.to_nat repeats))
          (repeat zero (Z.to_nat repeats), g).

Definition overlapping_spheres (g : generator) (rcut : scalar_or_array)
           (ref_pts : list (list float)) (npts : option float) (repeats : Z)
  : outcome (float * float) :=
  volumes <- region_volumes g rcut ref_pts npts repeats ;;
  (* dm.basic_stats(region_volumes, error_descriptor="sample") *)
  _ <- check_keywords "basic_stats" basic_stats_parameters
                      ["error_descriptor"] ;;
  final_stats <- basic_stats (fst volumes) (Fin (95 # 100))
                             "standard_error" ;;
  Done (fst final_stats, snd final_stats).

End WithLibrary.
End MonteCarloVolume.

(** An environment for the examples: a NumPy that has [np.float], the
    median 0 for every quantile of Student's t, a normality test that
    rejects every sample (p = 0), and a generator that counts its calls
    and draws the middle of the range. *)
Module ReferenceLibrary.

Import Np Px.

Definition uniform (g : nat) (low high : float) (n : nat)
  : outcome (list float * nat) :=
  Done (repeat (div (add low high) (of_Z 2)) n, S g).

Definition uniform_length (g : nat) (low high : float) (n : nat)
           (draws : list float) (g' : nat)
           (drawn : uniform g low high n = Done (draws, g'))
  : length draws = n :=
  match drawn in (_ = r)
        return match r with
               | Done p => length (fst p) = n
               | Fail _ => True
               end
  with
  | eq_refl => repeat_length (div (add low high) (of_Z 2)) n
  end.

#[export] Instance library : Library :=
  @Build_Library true (fun _ _ => zero) (fun _ => Done zero)
                 nat S uniform uniform_length.

End ReferenceLibrary.

(** The same environment on a NumPy release without [np.float]. *)
Module NumpyWithoutFloat.

Import Np Px.

#[export] Instance library : Library :=
  @Build_Library false (fun _ _ => zero) (fun _ => Done zero)
                 nat S ReferenceLibrary.uniform
                 ReferenceLibrary.uniform_length.

End NumpyWithoutFloat.

(* ================================================================== *)
(** ** Splines of data on a polynomial, and inputs of more examples    *)
(* ================================================================== *)

(** A second instance of [Extern]: as [Reference], but with the splines
    of any number of data points that lie on one polynomial of degree at
    most [k].  The interpolating spline of degree [k] of such data is
    that polynomial. *)
Module PolynomialSplines.

Import Np Reference.

Definition degree_at_most (k : nat) (p : poly) : bool :=
  forallb (fun c => Qeq_bool c 0) (skipn (S k) p).

Definition InterpolatedUnivariateSpline (x y : list float) (k : nat)
  : result poly :=
  match finite_values x, finite_values y with
  | Some xs, Some ys =>
      if negb (length xs =? length ys)%nat
      then Raise (ValueError "x and y should have a same length")
      else if (length xs <? S k)%nat
      then Raise (ValueError "m > k must hold")
      else
        let p := lagrange xs ys in
        if degree_at_most k p then Ok p
        else Raise (ValueError "the data are not on a polynomial of degree k")
  | _, _ => Raise (ValueError "x and y array must not contain NaNs or infs.")
  end.

#[export] Instance extern : Extern :=
  @Build_Extern lnq log10q pow10q sqrtq cos2piq sin2piq linregress
                gaussian_filter1d poly InterpolatedUnivariateSpline
                call pderiv roots.

End PolynomialSplines.

Module MoreExamples.

Import Np.

(** The data of y = x^4 - 2 x^2 + 2 at x = -2 .. 3. *)
Definition six_x : list float := map of_Z [-2; -1; 0; 1; 2; 3]%Z.
Definition six_y : list float := map of_Z [10; 1; 2; 1; 10; 65]%Z.

(** [pull_extrema(six_x, six_y)] *)
Definition six_extrema
  : (list float * list float) * (list float * list float)
    * (list float * list float) :=
  Eval vm_compute in
    match @FitData.pull_extrema PolynomialSplines.extern six_x six_y None 25
                                zero
    with
    | Ok r => r
    | Raise _ => (([], []), ([], []), ([], []))
    end.

(** Rows of three integers; the first two start alike. *)
Definition triples : list (list Z) := [[1; 2; 3]; [1; 2; 4]; [1; 3; 5]]%Z.

(** Two frames of four particles: the clusters 1 and 2 have two
    particles each in the second frame; in the first, cluster 2 has one
    particle and one particle is absent. *)
Definition two_frames : list (list float) :=
  [[of_Z 1; of_Z 1; of_Z 2; NaN]; [of_Z 1; of_Z 1; of_Z 2; of_Z 2]].

(** [analyze_clustering(two_frames, ncut=1)] *)
Definition two_frames_result : list (list float) * list float :=
  Eval vm_compute in
    match Cluster.analyze_clustering (Arr2 two_frames) 1 with
    | Px.Done r => r
    | Px.Fail _ => ([], [])
    end.

(** Three rows with the labels 1, 2 and 1, for the keys "a" and "b". *)
Definition labelled_rows : list (list Z) :=
  [[1; 10; 11]; [2; 20; 21]; [1; 12; 13]]%Z.

(** [array2dict(labelled_rows, ["a", "b"])] *)
Definition labelled_table : Dict.dict Z (Grouping.columns Z) :=
  Eval vm_compute in
    match Grouping.array2dict Z.eqb labelled_rows ["a"; "b"] with
    | Px.Done d => d
    | Px.Fail _ => []
    end.

(** Nine numbers. *)
Definition nine : list float := map of_Z [1; 2; 3; 4; 5; 6; 7; 8; 9]%Z.

End MoreExamples.


(* ================================================================== *)
(** ** The embedding on small inputs                                   *)
(* ================================================================== *)

Module Sanity.

Import Np Msd DataManipulation Examples.
#[local] Existing Instance Reference.extern.
#[local] Existing Instance Special.float_scalar.

Example slice_drops_last : slice [1; 2; 3; 4] 0 (-1) = [1; 2; 3].
Proof. reflexivity. Qed.

Example slice_window : slice [1; 2; 3; 4; 5] 1 (1 + 3) = [2; 3; 4].
Proof. reflexivity. Qed.

Example index_last : Py.index [1; 2; 3] (-1) = Ok 3.
Proof. reflexivity. Qed.

Example index_empty :
  Py.index (@nil nat) 0 = Raise (IndexError "index out of bounds").
Proof. reflexivity. Qed.

Example range_by_three : Py.range 3 10 3 = Ok [3; 6; 9]%Z.
Proof. reflexivity. Qed.

Example range_empty_backwards : Py.range 3 10 (-1) = Ok [].
Proof. reflexivity. Qed.

Example int_truncates : Py.int (7 # 2) = 3%Z /\ Py.int (- 7 # 2) = (-3)%Z.
Proof. split; reflexivity. Qed.

Example where_greater :
  where_ (map (fun t => gtb t (of_Z 1)) line) = [2; 3; 4].
Proof. reflexivity. Qed.

Example nan_compares_false :
  ltb NaN one = false /\ ltb one NaN = false /\ eqb NaN NaN = false.
Proof. repeat split. Qed.

Example inf_minus_inf : sub PInf PInf = NaN /\ div one zero = PInf.
Proof. split; reflexivity. Qed.

Example truncate_half :
  truncate line line (1 # 2) = (map of_Z [0; 1]%Z, map of_Z [0; 1]%Z).
Proof. reflexivity. Qed.

Example lower_bound_beyond_data :
  preprocess line line 1 (Some (of_Z 10), None)
  = Raise (ValueError "Provided minimum in time is greater that the time interval provided").
Proof. reflexivity. Qed.

Example upper_bound_before_data :
  preprocess line line 1 (None, Some (of_Z (-1)))
  = Raise (ValueError "Provided maximum in time is greater that the time interval provided").
Proof. reflexivity. Qed.

Example reset_warning :
  line_warnings
  = ["Resetting minimum number of points, 10, to be within length of provided data * use_frac, 5"].
Proof. reflexivity. Qed.

Example autocorrelation_loop :
  autocorrelation (map of_Z [1; 2; 3]%Z) "loop"
  = Ok [Fin (14 # 3); Fin 4; Fin 3].
Proof. vm_compute. reflexivity. Qed.

Example autocorrelation_numpy :
  autocorrelation (map of_Z [1; 2; 3]%Z) "numpy"
  = Ok [Fin (14 # 3); Fin 4; Fin 3].
Proof. vm_compute. reflexivity. Qed.

Example autocorrelation_fft :
  autocorrelation (map of_Z [3; 4]%Z) "fft" = Ok [Fin (25 # 2); Fin 12].
Proof. vm_compute. reflexivity. Qed.

Example autocorrelation_unknown_mode :
  autocorrelation (map of_Z [1; 2]%Z) "direct"
  = Raise (ValueError
             "The autocorrelation method, direct, is not supported").
Proof. reflexivity. Qed.

Example msd_one_dimensional :
  msd (Arr1 [one; one])
  = Raise (ValueError "An MSD cannot be calculated with a 1D array.").
Proof. reflexivity. Qed.

Example msd_moving_particle :
  msd (Arr2 [[of_Z 0; of_Z 0]; [of_Z 1; of_Z 2]])
  = Ok ([Fin 0; Fin 5], Array1 [NaN; NaN]).
Proof. vm_compute. reflexivity. Qed.

Example debye_waller_caged :
  debye_waller decades caged_msd 1 None = Ok (Fin 1000, Fin 10, []).
Proof. vm_compute. reflexivity. Qed.

End Sanity.

(* ================================================================== *)
(** ** Lemmas on the Python and NumPy layer                            *)
(* ================================================================== *)

Module PyFacts.

Lemma bind_ok {A B} (m : result A) (k : A -> result B) (b : B) :
  Py.bind m k = Ok b -> exists a, m = Ok a /\ k a = Ok b.
Proof.
  destruct m as [a|e]; simpl; intros Hk; [now exists a | discriminate].
Qed.

Lemma foldM_app {A S} (body : S -> A -> result S) (l1 l2 : list A) (s : S) :
  foldM body (l1 ++ l2) s = Py.bind (foldM body l1 s) (foldM body l2).
Proof.
  revert s; induction l1 as [|a l1 IH]; intros s; simpl; [reflexivity|].
  destruct (body s a) as [s'|e]; simpl; [apply IH | reflexivity].
Qed.

(** A loop whose body first computes something from the item alone and
    then updates the state without raising is a [mapM] followed by a
    pure fold. *)
Lemma foldM_split {A W S} (g : A -> result W) (f : S -> W -> S)
      (l : list A) (s : S) :
  foldM (fun st a => Py.bind (g a) (fun w => Ok (f st w))) l s
  = Py.bind (mapM g l) (fun ws => Ok (fold_left f ws s)).
Proof.
  revert s; induction l as [|a l IH]; intros s; simpl; [reflexivity|].
  destruct (g a) as [w|e]; simpl; [|reflexivity].
  rewrite IH. destruct (mapM g l); reflexivity.
Qed.

Lemma mapM_app {A B} (f : A -> result B) (l1 l2 : list A) :
  mapM f (l1 ++ l2)
  = Py.bind (mapM f l1)
            (fun b1 => Py.bind (mapM f l2) (fun b2 => Ok (b1 ++ b2))).
Proof.
  induction l1 as [|a l1 IH]; simpl.
  - destruct (mapM f l2); reflexivity.
  - destruct (f a) as [b|e]; simpl; [|reflexivity].
    rewrite IH. destruct (mapM f l1) as [b1|e]; simpl; [|reflexivity].
    destruct (mapM f l2); reflexivity.
Qed.

Lemma mapM_Forall2 {A B} (f : A -> result B) (l : list A) (bs : list B) :
  mapM f l = Ok bs -> Forall2 (fun a b => f a = Ok b) l bs.
Proof.
  revert bs; induction l as [|a l IH]; simpl; intros bs Hm.
  - injection Hm as <-. constructor.
  - destruct (f a) as [b|e] eqn:Hf; simpl in Hm; [|discriminate].
    destruct (mapM f l) as [bs'|e]; simpl in Hm; [|discriminate].
    injection Hm as <-. constructor; auto.
Qed.

Lemma range_up_In (fuel : nat) (start stop step x : Z) :
  (0 < step)%Z -> (stop - start <= Z.of_nat fuel)%Z ->
  In x (range_up fuel start stop step)
  <-> ((start <= x < stop)%Z /\ ((x - start) mod step = 0)%Z).
Proof.
  intros Hstep. revert start.
  induction fuel as [|fuel IH]; intros start Hfuel; simpl.
  - split; [tauto | intros [? _]; lia].
  - destruct (Z.ltb_spec start stop) as [Hlt|Hge]; simpl.
    + rewrite IH by lia. split.
      * intros [<- | [Hr Hm]].
        -- split; [lia|]. now rewrite Z.sub_diag, Z.mod_0_l by lia.
        -- split; [lia|].
           replace (x - start)%Z with (x - (start + step) + 1 * step)%Z
             by ring.
           now rewrite Z.mod_add by lia.
      * intros [Hr Hm].
        destruct (Z.eq_dec start x) as [->|Hne]; [now left | right].
        assert (Hd : (step <= x - start)%Z).
        { apply Z.mod_divide in Hm; [|lia].
          destruct Hm as [c Hc].
          assert (0 < c)%Z by nia. nia. }
        split; [lia|].
        replace (x - (start + step))%Z with (x - start + (-1) * step)%Z
          by ring.
        now rewrite Z.mod_add by lia.
    + split; [tauto | intros [? _]; lia].
Qed.

Lemma range_up_bounds (fuel : nat) (start stop step : Z) :
  (0 < step)%Z ->
  Forall (fun x => (start <= x)%Z) (range_up fuel start stop step).
Proof.
  intros Hstep. revert start.
  induction fuel as [|fuel IH]; intros start; simpl; [constructor|].
  destruct (start <? stop)%Z; [|constructor].
  constructor; [lia|].
  eapply Forall_impl; [|apply IH]. simpl; intros; lia.
Qed.

Lemma range_up_sorted (fuel : nat) (start stop step : Z) :
  (0 < step)%Z ->
  StronglySorted Z.lt (range_up fuel start stop step).
Proof.
  intros Hstep. revert start.
  induction fuel as [|fuel IH]; intros start; simpl; [constructor|].
  destruct (start <? stop)%Z; [|constructor].
  constructor; [apply IH|].
  eapply Forall_impl; [|apply range_up_bounds; assumption].
  simpl; intros; lia.
Qed.

Lemma range_down_nil (fuel : nat) (start stop step : Z) :
  (start <= stop)%Z -> range_down fuel start stop step = [].
Proof.
  intros Hle. destruct fuel; simpl; [reflexivity|].
  destruct (Z.ltb_spec stop start); [lia | reflexivity].
Qed.

Lemma foldM_map {A B S} (body : S -> B -> result S) (g : A -> B)
      (l : list A) (s : S) :
  foldM body (map g l) s = foldM (fun st a => body st (g a)) l s.
Proof.
  revert s; induction l as [|a l IH]; intros s; simpl; [reflexivity|].
  destruct (body s (g a)); simpl; [apply IH | reflexivity].
Qed.

Lemma foldM_ext {A S} (body body' : S -> A -> result S) (l : list A) (s : S) :
  (forall st a, body st a = body' st a) ->
  foldM body l s = foldM body' l s.
Proof.
  intros He. revert s; induction l as [|a l IH]; intros s; simpl;
    [reflexivity|].
  rewrite He. destruct (body' s a); simpl; [apply IH | reflexivity].
Qed.

Lemma index_0_cons {A} (a : A) (l : list A) : Py.index (a :: l) 0 = Ok a.
Proof. reflexivity. Qed.

Lemma index_0_ok {A} (l : list A) (a : A) :
  Py.index l 0 = Ok a -> exists l', l = a :: l'.
Proof.
  destruct l as [|b l]; [discriminate|].
  rewrite index_0_cons. intros [= ->]. now exists l.
Qed.

Lemma index_last_cons {A} (a : A) (l : list A) :
  exists b, Py.index (a :: l) (-1) = Ok b.
Proof.
  unfold Py.index.
  replace (Z.of_nat (length (a :: l)) + -1)%Z with (Z.of_nat (length l))
    by (simpl length; lia).
  cbn [Z.ltb Z.compare].
  destruct (Z.ltb_spec (Z.of_nat (length l)) 0); [lia|].
  rewrite Nat2Z.id.
  destruct (nth_error (a :: l) (length l)) as [b|] eqn:Hn; [now exists b|].
  apply nth_error_None in Hn. simpl in Hn. lia.
Qed.

Lemma index_nth_error {A} (l : list A) (j : nat) (a : A) :
  nth_error l j = Some a -> Py.index l (Z.of_nat j) = Ok a.
Proof.
  intros Hn. unfold Py.index.
  destruct (Z.ltb_spec (Z.of_nat j) 0); [lia|].
  destruct (Z.ltb_spec (Z.of_nat j) 0); [lia|].
  now rewrite Nat2Z.id, Hn.
Qed.

End PyFacts.

Module NpFacts.

Import Np.
Local Open Scope Q_scope.

Lemma Qlt_bool_iff (a b : Q) : Qlt_bool a b = true <-> a < b.
Proof.
  unfold Qlt_bool. rewrite negb_true_iff.
  split.
  - intros Hf. apply Qnot_le_lt. intros Hle.
    apply Qle_bool_iff in Hle. congruence.
  - intros Hlt. destruct (Qle_bool b a) eqn:Hb; [|reflexivity].
    apply Qle_bool_iff in Hb. exfalso. now apply (Qlt_not_le a b).
Qed.

Lemma Qlt_bool_false (a b : Q) : Qlt_bool a b = false <-> b <= a.
Proof.
  unfold Qlt_bool. rewrite negb_false_iff. apply Qle_bool_iff.
Qed.

Lemma ltb_irrefl (x : float) : ltb x x = false.
Proof.
  destruct x; simpl; try reflexivity.
  apply Qlt_bool_false. apply Qle_refl.
Qed.

Lemma ltb_trans (x y z : float) :
  ltb x y = true -> ltb y z = true -> ltb x z = true.
Proof.
  destruct x, y, z; simpl; try congruence.
  rewrite !Qlt_bool_iff. apply Qlt_trans.
Qed.

Lemma ltb_nan_l (y : float) : ltb NaN y = false.
Proof. reflexivity. Qed.

Lemma ltb_nan_r (x : float) : ltb x NaN = false.
Proof. destruct x; reflexivity. Qed.

Lemma ltb_not_nan (x y : float) :
  ltb x y = true -> isnan x = false /\ isnan y = false.
Proof. destruct x, y; simpl; try discriminate; auto. Qed.

Lemma leb_not_nan (x y : float) :
  leb x y = true -> isnan x = false /\ isnan y = false.
Proof. destruct x, y; simpl; try discriminate; auto. Qed.

(** On values that are not NaN the order is total. *)
Lemma ltb_false_leb (x y : float) :
  isnan x = false -> isnan y = false -> ltb x y = false -> leb y x = true.
Proof.
  destruct x, y; simpl; try congruence.
  intros _ _. rewrite Qlt_bool_false. apply Qle_bool_iff.
Qed.

Lemma leb_ltb_false (x y : float) : leb x y = true -> ltb y x = false.
Proof.
  destruct x, y; simpl; try congruence.
  rewrite Qle_bool_iff. apply Qlt_bool_false.
Qed.

Lemma ltb_of_Z (a b : Z) : ltb (of_Z a) (of_Z b) = (a <? b)%Z.
Proof.
  unfold of_Z; simpl. destruct (Z.ltb_spec a b) as [Hlt|Hge].
  - apply Qlt_bool_iff. now rewrite <- Zlt_Qlt.
  - apply Qlt_bool_false. now rewrite <- Zle_Qle.
Qed.

Lemma leb_of_Z (a b : Z) : leb (of_Z a) (of_Z b) = (a <=? b)%Z.
Proof.
  unfold of_Z; simpl. destruct (Z.leb_spec a b) as [Hle|Hgt].
  - apply Qle_bool_iff. now rewrite <- Zle_Qle.
  - destruct (Qle_bool (inject_Z a) (inject_Z b)) eqn:Hb; [|reflexivity].
    apply Qle_bool_iff in Hb. rewrite <- Zle_Qle in Hb. lia.
Qed.

Lemma isnan_abs (x : float) : isnan (abs x) = isnan x.
Proof. destruct x; reflexivity. Qed.

Lemma isnan_sub_one (x : float) : isnan (sub x one) = isnan x.
Proof. destruct x; reflexivity. Qed.

End NpFacts.

(* ================================================================== *)
(** ** The region scan of find_diffusivity                             *)
(* ================================================================== *)

Module ScanFacts.
Section WithExtern.

Context `{Extern}.
Import Np NpFacts PyFacts Msd Windows.

(** What [diffusivity] computed when it returned. *)
Lemma diffusivity_ok (time msd : list float) (dim : Z)
      (d se e ic r2 : float) :
  diffusivity time msd dim = Ok (d, se, e, ic, r2) ->
  exists t0 m0 fit_log fit_lin,
    length msd = length time /\
    Py.index time 0 = Ok t0 /\ Py.index msd 0 = Ok m0 /\
    linregress (map Special.log (map (fun t => sub t t0) (slice_from time 1)))
               (map Special.log (map (fun m => sub m m0) (slice_from msd 1)))
    = Ok fit_log /\
    linregress time msd = Ok fit_lin /\
    e = slope fit_log /\
    r2 = mul (rvalue fit_log) (rvalue fit_log) /\
    d = div (div (slope fit_lin) (of_Z 2)) (of_Z dim) /\
    se = div (div (stderr fit_lin) (of_Z 2)) (of_Z dim) /\
    ic = intercept fit_lin.
Proof.
  unfold diffusivity.
  destruct (length msd =? length time) eqn:Hlen; simpl; [|discriminate].
  apply Nat.eqb_eq in Hlen.
  intros Hd.
  apply bind_ok in Hd as (t0 & Ht0 & Hd).
  apply bind_ok in Hd as (m0 & Hm0 & Hd).
  apply bind_ok in Hd as (fit_log & Hlog & Hd).
  apply bind_ok in Hd as (fit_lin & Hlin & Hd).
  injection Hd as <- <- <- <- <-.
  exists t0, m0, fit_log, fit_lin. repeat split; assumption.
Qed.

Lemma scan_window_fit (time msd : list float) (dim : Z)
      (min_exp min_R2 : float) (npts i : Z) (best longest : region) :
  scan_window time msd dim min_exp min_R2 npts (best, longest) i
  = (w <- window_fit time msd dim (npts, i) ;;
     Ok (record_best min_R2 best w, record_longest min_exp min_R2 longest w)).
Proof.
  unfold scan_window, window_fit.
  destruct (diffusivity (slice time i (i + npts)) (slice msd i (i + npts)) dim)
    as [[[[[d se] e] ic] r2]|err] eqn:Hd; simpl; [|reflexivity].
  apply diffusivity_ok in Hd as (t0 & _ & _ & _ & _ & Ht0 & _).
  apply index_0_ok in Ht0 as (l' & Hl). rewrite Hl.
  rewrite index_0_cons.
  destruct (index_last_cons t0 l') as (tl & Htl). rewrite Htl. simpl.
  unfold record_best, record_longest, passes, f_exponent; simpl.
  destruct (gtb r2 min_R2); simpl; [|reflexivity].
  destruct (best_updates best e), (longest_updates longest e min_exp npts);
    reflexivity.
Qed.

Lemma fold_record_both (min_exp min_R2 : float) (ws : list fitted)
      (st : region * region) :
  fold_left (record_both min_exp min_R2) ws st
  = (fold_left (record_best min_R2) ws (fst st),
     fold_left (record_longest min_exp min_R2) ws (snd st)).
Proof.
  revert st; induction ws as [|w ws IH]; intros [b l]; simpl;
    [reflexivity|].
  now rewrite IH.
Qed.

Lemma scan_sizes_fold (time msd : list float) (dim : Z)
      (min_exp min_R2 : float) (skip : Z) (sizes : list Z)
      (st : region * region) :
  skip <> 0%Z ->
  foldM (scan_size time msd dim min_exp min_R2 skip) sizes st
  = foldM (fun st p => scan_window time msd dim min_exp min_R2
                                   (fst p) st (snd p))
          (flat_map (fun npts =>
                       map (pair npts)
                           (range_list 0 (Z.of_nat (length time) - npts) skip))
                    sizes)
          st.
Proof.
  intros Hskip. revert st.
  induction sizes as [|npts sizes IH]; intros st; simpl; [reflexivity|].
  rewrite foldM_app, foldM_map. simpl.
  unfold scan_size at 1. unfold Py.range.
  destruct (Z.eqb_spec skip 0) as [|_]; [contradiction|]. simpl.
  destruct (foldM _ (range_list 0 _ skip) st); simpl;
    [apply IH | reflexivity].
Qed.

(** The scan, as one pass over the fitted windows. *)
Lemma scan_ok (time msd : list float) (dim : Z) (min_exp min_R2 : float)
      (min_Npts skip : Z) (best longest : region) :
  scan time msd dim min_exp min_R2 min_Npts skip = Ok (best, longest) ->
  skip <> 0%Z /\
  exists ws,
    mapM (window_fit time msd dim) (window_list (length time) min_Npts skip)
    = Ok ws /\
    best = fold_left (record_best min_R2) ws nan_region /\
    longest = fold_left (record_longest min_exp min_R2) ws nan_region.
Proof.
  unfold scan, Py.range.
  destruct (Z.eqb_spec skip 0) as [|Hskip]; [discriminate|]. simpl.
  rewrite scan_sizes_fold by assumption.
  fold (window_list (length time) min_Npts skip).
  rewrite (foldM_ext _
             (fun st p => w <- window_fit time msd dim p ;;
                          Ok (record_both min_exp min_R2 st w))).
  2:{ intros [b l] [npts i]. apply scan_window_fit. }
  rewrite foldM_split.
  intros Hs. apply bind_ok in Hs as (ws & Hws & Hs).
  rewrite fold_record_both in Hs. injection Hs as <- <-.
  split; [assumption|]. exists ws. auto.
Qed.

End WithExtern.
End ScanFacts.

Module RecordFacts.
Section WithExtern.

Context `{Extern}.
Import Np NpFacts PyFacts Msd Windows.

Variables min_exp min_R2 : float.

Lemma isnan_dev (e : float) : isnan (dev e) = isnan e.
Proof. unfold dev. now rewrite isnan_abs, isnan_sub_one. Qed.

Lemma ltb_dev_nan_l (e e' : float) :
  isnan e = true -> ltb (dev e) (dev e') = false.
Proof.
  intros He. destruct (ltb (dev e) (dev e')) eqn:Hl; [|reflexivity].
  apply ltb_not_nan in Hl as [Hl _]. rewrite isnan_dev in Hl. congruence.
Qed.

Lemma ltb_dev_not_nan (e e' : float) :
  ltb (dev e) (dev e') = true -> isnan e = false /\ isnan e' = false.
Proof.
  intros Hl. apply ltb_not_nan in Hl. now rewrite !isnan_dev in Hl.
Qed.

Lemma geb_not_nan (e m : float) : geb e m = true -> isnan e = false.
Proof. unfold geb. intros Hl. now apply leb_not_nan in Hl. Qed.

Ltac recorded w :=
  right; exists w; split; [| split; [| split; [reflexivity | split]]].

Lemma best_fold (ws : list fitted) :
  best_spec min_R2 ws (fold_left (record_best min_R2) ws nan_region).
Proof.
  induction ws as [|x pre IH] using rev_ind.
  - left. split; [constructor | reflexivity].
  - rewrite fold_left_app. simpl.
    set (b0 := fold_left (record_best min_R2) pre nan_region) in *.
    unfold record_best.
    destruct (passes min_R2 x) eqn:Hpx; simpl.
    + (* the window passes the gate *)
      destruct IH as [[Hnone ->] | (w0 & Hin & Hp0 & -> & Hopt & Hnan)].
      * (* first passing window *)
        replace (best_updates nan_region (f_exponent x)) with true
          by (unfold best_updates; simpl; now rewrite orb_true_r).
        recorded x; [apply in_or_app; right; now left | assumption | | ].
        -- intros u Hu Hpu. apply in_app_or in Hu as [Hu | [<- | []]].
           ++ rewrite Forall_forall in Hnone. rewrite (Hnone u Hu) in Hpu.
              discriminate.
           ++ apply ltb_irrefl.
        -- intros Hx u Hu Hpu. apply in_app_or in Hu as [Hu | [<- | []]].
           ++ rewrite Forall_forall in Hnone. rewrite (Hnone u Hu) in Hpu.
              discriminate.
           ++ assumption.
      * unfold best_updates. fold (dev (f_exponent x)).
        change (r_exponent (f_region w0)) with (f_exponent w0).
        fold (dev (f_exponent w0)).
        destruct (ltb (dev (f_exponent x)) (dev (f_exponent w0))) eqn:Hlt;
          simpl.
        -- (* strictly closer: replaces *)
           recorded x; [apply in_or_app; right; now left | assumption | | ].
           ++ intros u Hu Hpu. apply in_app_or in Hu as [Hu | [<- | []]].
              ** destruct (ltb (dev (f_exponent u)) (dev (f_exponent x)))
                   eqn:Hux; [|reflexivity].
                 rewrite <- (Hopt u Hu Hpu). symmetry.
                 eapply ltb_trans; eassumption.
              ** apply ltb_irrefl.
           ++ intros Hx. apply ltb_dev_not_nan in Hlt as [Hlt _]. congruence.
        -- destruct (isnan (f_exponent w0)) eqn:Hn0.
           ++ (* the recorded exponent is NaN: replaces *)
              recorded x;
                [apply in_or_app; right; now left | assumption | | ].
              ** intros u Hu Hpu. apply in_app_or in Hu as [Hu | [<- | []]].
                 --- apply ltb_dev_nan_l. now apply Hnan.
                 --- apply ltb_irrefl.
              ** intros Hx u Hu Hpu.
                 apply in_app_or in Hu as [Hu | [<- | []]];
                   [now apply Hnan | assumption].
           ++ (* kept *)
              recorded w0; [apply in_or_app; now left | assumption | | ].
              ** intros u Hu Hpu. apply in_app_or in Hu as [Hu | [<- | []]];
                   [now apply Hopt | assumption].
              ** intros Hx. congruence.
    + (* the window fails the gate *)
      destruct IH as [[Hnone ->] | (w0 & Hin & Hp0 & -> & Hopt & Hnan)].
      * left. split; [|reflexivity].
        apply Forall_app. split; [assumption | now constructor].
      * recorded w0; [apply in_or_app; now left | assumption | | ].
        -- intros u Hu Hpu. apply in_app_or in Hu as [Hu | [<- | []]];
             [now apply Hopt | congruence].
        -- intros Hx u Hu Hpu. apply in_app_or in Hu as [Hu | [<- | []]];
             [now apply Hnan | congruence].
Qed.

Lemma sorted_snoc (pre : list fitted) (x : fitted) :
  StronglySorted by_size (pre ++ [x]) ->
  StronglySorted by_size pre /\ Forall (fun u => by_size u x) pre.
Proof.
  induction pre as [|a pre IH]; simpl; intros Hs.
  - split; constructor.
  - apply StronglySorted_inv in Hs as [Hs Ha].
    destruct (IH Hs) as [Hs' Hx].
    apply Forall_app in Ha as [Ha Hax].
    split; [now constructor|].
    constructor; [now inversion Hax | assumption].
Qed.

Lemma longest_fold (ws : list fitted) :
  Forall sized ws -> StronglySorted by_size ws ->
  longest_spec min_exp min_R2 ws (fold_left (record_longest min_exp min_R2) ws nan_region).
Proof.
  induction ws as [|x pre IH] using rev_ind; intros Hsz Hso.
  - left. split; [constructor | reflexivity].
  - apply Forall_app in Hsz as [Hsz Hszx].
    apply sorted_snoc in Hso as [Hso Hle].
    specialize (IH Hsz Hso).
    rewrite Forall_forall in Hle.
    rewrite fold_left_app. simpl.
    set (l0 := fold_left (record_longest min_exp min_R2) pre nan_region) in *.
    unfold record_longest.
    destruct (passes min_R2 x) eqn:Hpx; simpl.
    + destruct IH as [[Hnone ->] | (w0 & Hin & Hp0 & -> & Hopt & Hnan)].
      * (* first passing window *)
        replace (longest_updates nan_region (f_exponent x) min_exp (f_npts x))
          with true
          by (unfold longest_updates; simpl; now rewrite !orb_true_r).
        recorded x; [apply in_or_app; right; now left | assumption | | ].
        -- intros u Hu Hpu _. apply in_app_or in Hu as [Hu | [<- | []]].
           ++ rewrite Forall_forall in Hnone. rewrite (Hnone u Hu) in Hpu.
              discriminate.
           ++ split; [lia | intros _; apply ltb_irrefl].
        -- intros Hx u Hu Hpu. apply in_app_or in Hu as [Hu | [<- | []]].
           ++ rewrite Forall_forall in Hnone. rewrite (Hnone u Hu) in Hpu.
              discriminate.
           ++ assumption.
      * assert (Hn0 : (f_npts w0 <= f_npts x)%Z) by (apply Hle, Hin).
        assert (Hs0 : sized w0)
          by (rewrite Forall_forall in Hsz; apply Hsz, Hin).
        unfold longest_updates. rewrite Hs0.
        rewrite leb_of_Z, ltb_of_Z.
        change (r_exponent (f_region w0)) with (f_exponent w0).
        unfold gtb. fold (dev (f_exponent w0)) (dev (f_exponent x)).
        destruct (Z.leb_spec (f_npts w0) (f_npts x)) as [_|]; [|lia].
        rewrite andb_true_r.
        destruct (isnan (f_exponent w0)) eqn:Hnan0.
        -- (* the recorded exponent is NaN: replaces *)
           rewrite !orb_true_r. simpl.
           recorded x; [apply in_or_app; right; now left | assumption | | ].
           ++ intros u Hu Hpu Hge.
              apply in_app_or in Hu as [Hu | [<- | []]].
              ** apply geb_not_nan in Hge.
                 rewrite (Hnan eq_refl u Hu Hpu) in Hge. discriminate.
              ** split; [lia | intros _; apply ltb_irrefl].
           ++ intros Hx u Hu Hpu.
              apply in_app_or in Hu as [Hu | [<- | []]];
                [now apply Hnan | assumption].
        -- rewrite !orb_false_r.
           destruct (geb (f_exponent x) min_exp
                     && ((f_npts w0 <? f_npts x)%Z
                         || ltb (dev (f_exponent x)) (dev (f_exponent w0))))
             eqn:Hupd.
           ++ (* longer, or as long and strictly closer: replaces *)
              apply andb_true_iff in Hupd as [Hgex Hupd].
              recorded x;
                [apply in_or_app; right; now left | assumption | | ].
              ** intros u Hu Hpu Hge.
                 apply in_app_or in Hu as [Hu | [<- | []]];
                   [| split; [lia | intros _; apply ltb_irrefl]].
                 split; [apply Hle, Hu|]. intros Heq.
                 destruct (Hopt u Hu Hpu Hge) as [Hu0 Hclose].
                 assert (Hsame : f_npts w0 = f_npts x) by lia.
                 destruct (Z.ltb_spec (f_npts w0) (f_npts x)); [lia|].
                 simpl in Hupd.
                 destruct (ltb (dev (f_exponent u)) (dev (f_exponent x)))
                   eqn:Hux; [|reflexivity].
                 rewrite <- Hclose by lia. symmetry.
                 eapply ltb_trans; eassumption.
              ** intros Hx. apply geb_not_nan in Hgex. congruence.
           ++ (* kept *)
              recorded w0; [apply in_or_app; now left | assumption | | ].
              ** intros u Hu Hpu Hge.
                 apply in_app_or in Hu as [Hu | [<- | []]];
                   [now apply Hopt|].
                 rewrite Hge in Hupd. simpl in Hupd.
                 apply orb_false_iff in Hupd as [Hlt Hcl].
                 apply Z.ltb_ge in Hlt.
                 split; [lia | intros _; assumption].
              ** intros Hx. congruence.
    + destruct IH as [[Hnone ->] | (w0 & Hin & Hp0 & -> & Hopt & Hnan)].
      * left. split; [|reflexivity].
        apply Forall_app. split; [assumption | now constructor].
      * recorded w0; [apply in_or_app; now left | assumption | | ].
        -- intros u Hu Hpu Hge. apply in_app_or in Hu as [Hu | [<- | []]];
             [now apply Hopt | congruence].
        -- intros Hx u Hu Hpu. apply in_app_or in Hu as [Hu | [<- | []]];
             [now apply Hnan | congruence].
Qed.

End WithExtern.
End RecordFacts.

Module WindowListFacts.
Section WithExtern.

Context `{Extern}.
Import Np NpFacts PyFacts Msd Windows.

Lemma range_list_In (start stop step x : Z) :
  (start <= stop)%Z ->
  In x (range_list start stop step)
  <-> ((0 < step)%Z /\ (start <= x < stop)%Z /\ ((x - start) mod step = 0)%Z).
Proof.
  intros Hle. unfold range_list.
  destruct (Z.ltb_spec 0 step) as [Hpos|Hneg].
  - rewrite range_up_In by lia. tauto.
  - rewrite range_down_nil by assumption. simpl. split; [tauto | lia].
Qed.

Lemma range_list_sorted (start stop step : Z) :
  (start <= stop)%Z -> StronglySorted Z.lt (range_list start stop step).
Proof.
  intros Hle. unfold range_list.
  destruct (Z.ltb_spec 0 step) as [Hpos|Hneg].
  - now apply range_up_sorted.
  - rewrite range_down_nil by assumption. constructor.
Qed.

Lemma window_list_In (len : nat) (min_Npts skip : Z) (p : Z * Z) :
  (min_Npts <= Z.of_nat len)%Z ->
  In p (window_list len min_Npts skip) <-> scanned len min_Npts skip p.
Proof.
  intros Hle. destruct p as [npts i]. unfold window_list, scanned.
  rewrite in_flat_map. split.
  - intros (n & Hn & Hi).
    apply in_map_iff in Hi as (j & [= <- <-] & Hj).
    apply range_list_In in Hn as (Hs & Hn & Hm); [|assumption].
    apply range_list_In in Hj as (_ & Hj & Hjm); [|lia].
    rewrite Z.sub_0_r in Hjm. tauto.
  - intros (Hs & Hn & Hm & Hi & Him).
    exists npts. split.
    + apply range_list_In; tauto.
    + apply in_map. apply range_list_In; [lia|].
      rewrite Z.sub_0_r. tauto.
Qed.

Lemma sorted_app {A} (R : A -> A -> Prop) (l1 l2 : list A) :
  StronglySorted R l1 -> StronglySorted R l2 ->
  (forall a b, In a l1 -> In b l2 -> R a b) ->
  StronglySorted R (l1 ++ l2).
Proof.
  intros H1 H2 H12. induction H1 as [|a l1 Hs IH Ha]; simpl; [assumption|].
  constructor.
  - apply IH. intros; apply H12; [now right | assumption].
  - apply Forall_app. split; [assumption|].
    apply Forall_forall. intros b Hb. apply H12; [now left | assumption].
Qed.

Lemma window_list_sorted (len : nat) (min_Npts skip : Z) :
  (min_Npts <= Z.of_nat len)%Z ->
  StronglySorted (fun p q : Z * Z => (fst p <= fst q)%Z)
                 (window_list len min_Npts skip).
Proof.
  intros Hle. unfold window_list.
  pose proof (range_list_sorted skip Hle) as Hs.
  induction Hs as [|n sizes Hs IH Hn]; simpl; [constructor|].
  apply sorted_app; [| exact IH |].
  - generalize (range_list 0 (Z.of_nat len - n) skip). intros l.
    induction l as [|i l IHl]; simpl; constructor; [assumption|].
    apply Forall_forall. intros q Hq.
    apply in_map_iff in Hq as (j & <- & _). simpl; lia.
  - intros a b Ha Hb.
    apply in_map_iff in Ha as (j & <- & _).
    apply in_flat_map in Hb as (m & Hm & Hb).
    apply in_map_iff in Hb as (k & <- & _). simpl.
    rewrite Forall_forall in Hn. specialize (Hn m Hm). lia.
Qed.

(** The fit of a window, when it returns. *)
Lemma window_fit_ok (time msd : list float) (dim : Z) (p : Z * Z)
      (w : fitted) :
  window_fit time msd dim p = Ok w ->
  f_npts w = fst p /\ f_start w = snd p /\ sized w /\
  all_nan (f_region w) = false /\
  exists d se ic,
    diffusivity (slice time (snd p) (snd p + fst p))
                (slice msd (snd p) (snd p + fst p)) dim
    = Ok (d, se, f_exponent w, ic, f_r2 w).
Proof.
  destruct p as [npts i]. unfold window_fit. intros Hw.
  apply bind_ok in Hw as ([[[[d se] e] ic] r2] & Hd & Hw).
  apply bind_ok in Hw as (t_first & _ & Hw).
  apply bind_ok in Hw as (t_last & _ & Hw).
  injection Hw as <-. simpl.
  repeat split; try reflexivity.
  - unfold all_nan; simpl. now rewrite !andb_false_r.
  - exists d, se, ic. exact Hd.
Qed.

Lemma fits_sized (time msd : list float) (dim : Z) (ps : list (Z * Z))
      (ws : list fitted) :
  Forall2 (fun p w => window_fit time msd dim p = Ok w) ps ws ->
  Forall sized ws.
Proof.
  induction 1 as [|p w ps ws Hw _ IH]; constructor; [|assumption].
  now apply window_fit_ok in Hw.
Qed.

Lemma fits_In (time msd : list float) (dim : Z) (ps : list (Z * Z))
      (ws : list fitted) :
  Forall2 (fun p w => window_fit time msd dim p = Ok w) ps ws ->
  forall w, In w ws <->
            exists p, In p ps /\ window_fit time msd dim p = Ok w.
Proof.
  induction 1 as [|p w0 ps ws Hw _ IH]; intros w; simpl.
  - split; [tauto | intros (p & [] & _)].
  - rewrite IH. split.
    + intros [<- | (q & Hq & Hf)]; [exists p | exists q]; auto.
    + intros (q & [<- | Hq] & Hf).
      * left. congruence.
      * right. now exists q.
Qed.

Arguments fits_In {time msd dim ps ws} _ w.

Lemma fits_sorted (time msd : list float) (dim : Z) (ps : list (Z * Z))
      (ws : list fitted) :
  Forall2 (fun p w => window_fit time msd dim p = Ok w) ps ws ->
  StronglySorted (fun p q : Z * Z => (fst p <= fst q)%Z) ps ->
  StronglySorted by_size ws.
Proof.
  induction 1 as [|p w ps ws Hw Hf IH]; intros Hs; [constructor|].
  apply StronglySorted_inv in Hs as [Hs Hp].
  constructor; [now apply IH|].
  apply Forall_forall. intros u Hu.
  apply (fits_In Hf) in Hu as (q & Hq & Hfq).
  rewrite Forall_forall in Hp. specialize (Hp q Hq).
  apply window_fit_ok in Hw as (Hw & _).
  apply window_fit_ok in Hfq as (Hfq & _).
  unfold by_size. lia.
Qed.

Lemma effective_min_le (min_Npts : Z) (len : nat) :
  (effective_min_Npts min_Npts len <= Z.of_nat len)%Z.
Proof.
  unfold effective_min_Npts, reset_min_Npts.
  destruct (Z.ltb_spec (Z.of_nat len) min_Npts); simpl; lia.
Qed.

Lemma effective_min_id (min_Npts : Z) (len : nat) :
  (min_Npts <= Z.of_nat len)%Z -> effective_min_Npts min_Npts len = min_Npts.
Proof.
  unfold effective_min_Npts, reset_min_Npts. intros Hle.
  destruct (Z.ltb_spec (Z.of_nat len) min_Npts); simpl; lia.
Qed.

(** What [find_diffusivity] went through when it returned. *)
Lemma find_diffusivity_ok (time msd : list float) (min_exp : float)
      (min_Npts skip dim : Z) (use_frac : Q) (min_R2 : float)
      (bounds : option float * option float)
      (best longest : region) (warnings : list string) :
  find_diffusivity time msd min_exp min_Npts skip dim use_frac min_R2 bounds
  = Ok (best, longest, warnings) ->
  exists time' msd',
    preprocess time msd use_frac bounds = Ok (time', msd') /\
    scan time' msd' dim min_exp min_R2
         (effective_min_Npts min_Npts (length time')) skip
    = Ok (best, longest).
Proof.
  unfold find_diffusivity.
  destruct (negb (length msd =? length time)); [discriminate|].
  intros Hf. apply bind_ok in Hf as ([time' msd'] & Hp & Hf).
  exists time', msd'. split; [assumption|].
  unfold effective_min_Npts.
  destruct (reset_min_Npts min_Npts (length time')) as [m wn]. simpl.
  apply bind_ok in Hf as ([b l] & Hs & Hf).
  now injection Hf as <- <- _.
Qed.

(** The windows the scan fitted, and the two records as folds over
    them. *)
Lemma scan_fitted (time msd : list float) (dim : Z) (min_exp min_R2 : float)
      (min_Npts skip : Z) (best longest : region) :
  (min_Npts <= Z.of_nat (length time))%Z ->
  scan time msd dim min_exp min_R2 min_Npts skip = Ok (best, longest) ->
  exists ws,
    (forall w, In w ws <->
               exists p, scanned (length time) min_Npts skip p /\
                         window_fit time msd dim p = Ok w) /\
    (forall p, scanned (length time) min_Npts skip p ->
               exists w, window_fit time msd dim p = Ok w) /\
    best_spec min_R2 ws best /\
    longest_spec min_exp min_R2 ws longest.
Proof.
  intros Hle Hs.
  apply ScanFacts.scan_ok in Hs as (_ & ws & Hws & -> & ->).
  apply mapM_Forall2 in Hws.
  exists ws. repeat split.
  - intros Hw. apply (fits_In Hws) in Hw as (p & Hp & Hf).
    exists p. split; [now apply window_list_In in Hp | assumption].
  - intros (p & Hp & Hf). apply (fits_In Hws).
    exists p. split; [now apply window_list_In | assumption].
  - intros p Hp. apply window_list_In in Hp; [|assumption].
    clear -Hws Hp. induction Hws as [|q w ps ws Hw _ IH]; [destruct Hp|].
    destruct Hp as [<- | Hp]; [now exists w | now apply IH].
  - apply RecordFacts.best_fold.
  - apply RecordFacts.longest_fold.
    + eapply fits_sized; eassumption.
    + eapply fits_sorted; [eassumption | now apply window_list_sorted].
Qed.

End WithExtern.
End WindowListFacts.

Module FindDiffusivity.
Section WithExtern.

Context `{Extern}.
Import Np NpFacts PyFacts Msd Windows WindowListFacts.

Lemma slice_length {A} (l : list A) (i npts : Z) :
  (0 <= i)%Z -> (0 <= npts)%Z -> (i + npts <= Z.of_nat (length l))%Z ->
  length (slice l i (i + npts)) = Z.to_nat npts.
Proof.
  intros Hi Hn Hl. unfold slice, norm_index.
  destruct (Z.ltb_spec i 0); [lia|].
  destruct (Z.ltb_spec (i + npts) 0); [lia|].
  rewrite length_firstn, length_skipn. lia.
Qed.

(** A scanned window holds at least as many samples as the size the
    scan starts from. *)
Lemma scanned_length {A} (l : list A) (m skip npts i : Z) :
  scanned (length l) m skip (npts, i) ->
  (m <= Z.of_nat (length (slice l i (i + npts))))%Z.
Proof.
  intros (_ & Hn & _ & Hi & _).
  destruct (Z.le_gt_cases 0 npts) as [Hpos|Hneg]; [|lia].
  rewrite slice_length by lia. lia.
Qed.

(** The warnings returned are those of the reset of [min_Npts]. *)
Lemma find_diffusivity_warnings
      (time msd : list float) (min_exp : float) (min_Npts skip dim : Z)
      (use_frac : Q) (min_R2 : float)
      (bounds : option float * option float)
      (best longest : region) (warnings : list string)
      (time' msd' : list float) :
  find_diffusivity time msd min_exp min_Npts skip dim use_frac min_R2 bounds
  = Ok (best, longest, warnings) ->
  preprocess time msd use_frac bounds = Ok (time', msd') ->
  warnings = snd (reset_min_Npts min_Npts (length time')).
Proof.
  unfold find_diffusivity.
  destruct (negb (length msd =? length time)); [discriminate|].
  intros Hf Hp. rewrite Hp in Hf. cbn [Py.bind] in Hf.
  destruct (reset_min_Npts min_Npts (length time')) as [m wn].
  apply bind_ok in Hf as ([b l] & _ & Hf).
  now injection Hf as _ _ <-.
Qed.

(** After a reset of [min_Npts] the scan has one window: all samples
    but the last. *)
Lemma scanned_after_reset (len : nat) (min_Npts skip : Z) (p : Z * Z) :
  (Z.of_nat len < min_Npts)%Z ->
  scanned len (effective_min_Npts min_Npts len) skip p ->
  p = ((Z.of_nat len - 1)%Z, 0%Z).
Proof.
  intros Hlt. unfold effective_min_Npts, reset_min_Npts.
  destruct (Z.ltb_spec (Z.of_nat len) min_Npts) as [_|Hge]; [|lia].
  cbn [fst]. destruct p as [npts i]. intros (_ & Hn & _ & Hi & _).
  f_equal; lia.
Qed.

(** ** C7 *)

(** C7, amended.  When [find_diffusivity] returns a [best] record that
    is not all NaN, the record holds the entries of a window of the scan
    whose log-log R^2 exceeded [min_R2]; the window has at least as many
    points as the size the scan starts from; and no scanned window
    passing the R^2 gate, of whatever length, has an exponent strictly
    closer to 1.0 in absolute difference.  The size the scan starts from
    is [min_Npts], and no warning is returned, when [min_Npts] does not
    exceed the number of samples left after preprocessing; when it
    does, the size is that number minus one and the warning of line 413
    is the one warning returned. *)
Theorem find_diffusivity_best_closest_to_one
        (time msd : list float) (min_exp : float) (min_Npts skip dim : Z)
        (use_frac : Q) (min_R2 : float)
        (bounds : option float * option float)
        (best longest : region) (warnings : list string) :
  find_diffusivity time msd min_exp min_Npts skip dim use_frac min_R2 bounds
  = Ok (best, longest, warnings) ->
  all_nan best = false ->
  exists time' msd' npts i w,
    preprocess time msd use_frac bounds = Ok (time', msd') /\
    let m := effective_min_Npts min_Npts (length time') in
    scanned (length time') m skip (npts, i) /\
    window_fit time' msd' dim (npts, i) = Ok w /\
    best = f_region w /\
    passes min_R2 w = true /\
    (m <= Z.of_nat (length (slice time' i (i + npts))))%Z /\
    ((min_Npts <= Z.of_nat (length time'))%Z ->
     m = min_Npts /\ warnings = []) /\
    ((Z.of_nat (length time') < min_Npts)%Z ->
     m = (Z.of_nat (length time') - 1)%Z /\
     warnings
     = [("Resetting minimum number of points, " ++ str_of_Z min_Npts
         ++ ", to be within length of provided data * use_frac, "
         ++ str_of_nat (length time'))%string]) /\
    forall p u,
      scanned (length time') m skip p ->
      window_fit time' msd' dim p = Ok u ->
      passes min_R2 u = true ->
      ltb (dev (f_exponent u)) (dev (f_exponent w)) = false /\
      (isnan (f_exponent u) = false ->
       leb (dev (f_exponent w)) (dev (f_exponent u)) = true).
Proof.
  intros Hf Hnn.
  pose proof Hf as Hw0.
  apply find_diffusivity_ok in Hf as (time' & msd' & Hpre & Hscan).
  eapply find_diffusivity_warnings in Hw0; [|exact Hpre].
  apply scan_fitted in Hscan as (ws & Hin & _ & Hbest & _);
    [|apply effective_min_le].
  destruct Hbest as [[_ ->] | (w & Hw & Hpw & -> & Hopt & Hnan)];
    [discriminate|].
  apply Hin in Hw as ([npts i] & Hsc & Hfit).
  exists time', msd', npts, i, w. cbv zeta.
  split; [assumption|]. split; [assumption|]. split; [assumption|].
  split; [reflexivity|]. split; [assumption|].
  split; [eapply scanned_length; eassumption|].
  split.
  { intros Hle. split; [now apply effective_min_id|].
    rewrite Hw0. unfold reset_min_Npts.
    destruct (Z.ltb_spec (Z.of_nat (length time')) min_Npts); [lia|].
    reflexivity. }
  split.
  { intros Hlt. unfold effective_min_Npts. rewrite Hw0.
    unfold reset_min_Npts.
    destruct (Z.ltb_spec (Z.of_nat (length time')) min_Npts); [|lia].
    split; reflexivity. }
  intros p u Hp Hu Hpu.
  assert (Huin : In u ws) by (apply Hin; now exists p).
  split; [now apply Hopt|].
  intros Hun. apply ltb_false_leb.
  - now rewrite RecordFacts.isnan_dev.
  - rewrite RecordFacts.isnan_dev.
    destruct (isnan (f_exponent w)) eqn:Hwn; [|reflexivity].
    rewrite (Hnan eq_refl u Huin Hpu) in Hun. discriminate.
  - now apply Hopt.
Qed.

(** ** The [longest] record *)

(** What the scan records as [longest].  When [find_diffusivity]
    returns, its [longest] record is all NaN exactly when no window of
    the scan passed the R^2 gate.  Otherwise it holds the entries of a
    scanned window whose log-log R^2 exceeded [min_R2]: the [isnan]
    clauses of lines 428 and 429 record the first such window whatever
    its exponent is.  Among the passing windows with exponent at least
    [min_exp] none has more points than the recorded one, and none with
    as many points has an exponent strictly closer to 1.0; nothing makes
    the exponent of the recorded window itself reach [min_exp]. *)
Theorem find_diffusivity_longest
        (time msd : list float) (min_exp : float) (min_Npts skip dim : Z)
        (use_frac : Q) (min_R2 : float)
        (bounds : option float * option float)
        (best longest : region) (warnings : list string) :
  find_diffusivity time msd min_exp min_Npts skip dim use_frac min_R2 bounds
  = Ok (best, longest, warnings) ->
  exists time' msd',
    preprocess time msd use_frac bounds = Ok (time', msd') /\
    let m := effective_min_Npts min_Npts (length time') in
    (all_nan longest = true <->
     forall p u, scanned (length time') m skip p ->
                 window_fit time' msd' dim p = Ok u ->
                 passes min_R2 u = false) /\
    (all_nan longest = false ->
     exists p w,
       scanned (length time') m skip p /\
       window_fit time' msd' dim p = Ok w /\
       longest = f_region w /\
       passes min_R2 w = true /\
       forall q u,
         scanned (length time') m skip q ->
         window_fit time' msd' dim q = Ok u ->
         passes min_R2 u = true ->
         geb (f_exponent u) min_exp = true ->
         (f_npts u <= f_npts w)%Z /\
         (f_npts u = f_npts w ->
          ltb (dev (f_exponent u)) (dev (f_exponent w)) = false)).
Proof.
  intros Hf.
  apply find_diffusivity_ok in Hf as (time' & msd' & Hpre & Hscan).
  apply scan_fitted in Hscan as (ws & Hin & _ & _ & Hlong);
    [|apply effective_min_le].
  exists time', msd'. split; [assumption|]. cbv zeta.
  destruct Hlong as [[Hnone ->] | (w & Hw & Hpw & -> & Hopt & _)].
  - split; [split; [|reflexivity] | discriminate].
    intros _ p u Hp Hu.
    rewrite Forall_forall in Hnone. apply Hnone, Hin. now exists p.
  - assert (Hreg : all_nan (f_region w) = false).
    { apply Hin in Hw as (p & _ & Hfit).
      now apply window_fit_ok in Hfit. }
    split.
    + rewrite Hreg. split; [discriminate|].
      intros Hall. apply Hin in Hw as (p & Hp & Hfit).
      rewrite (Hall p w Hp Hfit) in Hpw. discriminate.
    + intros _. apply Hin in Hw as (p & Hp & Hfit).
      exists p, w.
      split; [assumption|]. split; [assumption|].
      split; [reflexivity|]. split; [assumption|].
      intros q u Hq Hu Hpu Hge. apply Hopt; [|assumption..].
      apply Hin. now exists q.
Qed.

End WithExtern.
End FindDiffusivity.

Module FindDiffusivityExamples.

Import Np Msd Windows Examples FindDiffusivity.
#[local] Existing Instance Reference.extern.

(** On the ramp the scan has three windows, all three pass the R^2
    gate, and their exponents are 1/2, 1 and a number between 1/2 and
    0.6: [best] has to choose, and the window it records is neither the
    first of the scan nor the one with the most points. *)
Example ramp_scan_windows :
  (forall p, scanned 5 3 1 p <->
             p = (3, 0)%Z \/ p = (3, 1)%Z \/ p = (4, 0)%Z) /\
  (exists u0 u1 u2,
      window_fit kink_time ramp_msd 3 (3, 0)%Z = Ok u0 /\
      window_fit kink_time ramp_msd 3 (3, 1)%Z = Ok u1 /\
      window_fit kink_time ramp_msd 3 (4, 0)%Z = Ok u2 /\
      passes default_min_R2 u0 = true /\
      passes default_min_R2 u1 = true /\
      passes default_min_R2 u2 = true /\
      f_exponent u0 = Fin (1 # 2) /\
      f_exponent u1 = of_Z 1 /\
      gtb (f_exponent u2) (Fin (1 # 2)) = true /\
      ltb (f_exponent u2) (Fin (6 # 10)) = true /\
      ramp_best = f_region u1).
Proof.
  split.
  - intros [npts i]. unfold scanned. cbn [Z.of_nat Pos.of_succ_nat Pos.succ].
    split.
    + intros (_ & Hn & _ & Hi & _).
      assert (Hc : ((npts = 3 /\ i = 0) \/ (npts = 3 /\ i = 1)
                    \/ (npts = 4 /\ i = 0))%Z) by lia.
      destruct Hc as [[-> ->] | [[-> ->] | [-> ->]]]; auto.
    + intros [Hp | [Hp | Hp]]; injection Hp as -> ->;
        repeat split; try lia; reflexivity.
  - destruct (window_fit kink_time ramp_msd 3 (3, 0)%Z) as [u0|e0] eqn:H0;
      [|vm_compute in H0; discriminate].
    destruct (window_fit kink_time ramp_msd 3 (3, 1)%Z) as [u1|e1] eqn:H1;
      [|vm_compute in H1; discriminate].
    destruct (window_fit kink_time ramp_msd 3 (4, 0)%Z) as [u2|e2] eqn:H2;
      [|vm_compute in H2; discriminate].
    exists u0, u1, u2.
    vm_compute in H0. vm_compute in H1. vm_compute in H2.
    injection H0 as <-. injection H1 as <-. injection H2 as <-.
    repeat split; vm_compute; reflexivity.
Qed.

Lemma find_diffusivity_best_closest_to_one_witness :
  exists time' msd' npts i w,
    preprocess kink_time ramp_msd 1 (None, None) = Ok (time', msd') /\
    let m := effective_min_Npts 3 (length time') in
    scanned (length time') m 1 (npts, i) /\
    window_fit time' msd' 3 (npts, i) = Ok w /\
    ramp_best = f_region w /\
    passes default_min_R2 w = true /\
    (m <= Z.of_nat (length (slice time' i (i + npts))))%Z /\
    ((3 <= Z.of_nat (length time'))%Z -> m = 3%Z /\ @nil string = []) /\
    ((Z.of_nat (length time') < 3)%Z ->
     m = (Z.of_nat (length time') - 1)%Z /\
     []
     = [("Resetting minimum number of points, " ++ str_of_Z 3
         ++ ", to be within length of provided data * use_frac, "
         ++ str_of_nat (length time'))%string]) /\
    forall p u,
      scanned (length time') m 1 p ->
      window_fit time' msd' 3 p = Ok u ->
      passes default_min_R2 u = true ->
      ltb (dev (f_exponent u)) (dev (f_exponent w)) = false /\
      (isnan (f_exponent u) = false ->
       leb (dev (f_exponent w)) (dev (f_exponent u)) = true).
Proof.
  apply (@find_diffusivity_best_closest_to_one
           Reference.extern kink_time ramp_msd default_min_exp 3 1 3 1
           default_min_R2 (None, None) ramp_best ramp_longest []).
  - vm_compute. reflexivity.
  - vm_compute. reflexivity.
Defined.

(** C7, as stated, fails: with five samples and the default
    [min_Npts = 10] the scan is reset, with the warning of line 413, to
    windows of four points, and the [best] record it returns holds a
    window of four points, while no slice of the data has ten.  After a
    reset the scan has this one window only ([scanned_after_reset]), so
    no input on which the claim fails in this way scans more than one
    window. *)
Lemma find_diffusivity_best_counterexample :
  find_diffusivity line line default_min_exp 10 1 3 1 default_min_R2
                   (None, None)
  = Ok (line_best, line_longest, line_warnings) /\
  line_warnings
  = ["Resetting minimum number of points, 10, to be within length of provided data * use_frac, 5"] /\
  all_nan line_best = false /\
  r_npts line_best = of_Z 4 /\
  forall i j, length (slice line i j) < 10.
Proof.
  split; [vm_compute; reflexivity|].
  split; [reflexivity|].
  split; [reflexivity|]. split; [reflexivity|].
  intros i j. unfold slice. rewrite length_firstn, length_skipn.
  change (length line) with 5. lia.
Qed.

(** C2.  The code breaks the claim on the kinked curve
    time = [0, 1, 4, 7, 8], msd = [0, 1, 2, 5, 6] with [min_Npts = 3].
    Of the three windows of the scan, the one of 3 points from index 1
    is the only one that passes the R^2 gate with an exponent of at
    least [min_exp]: its exponent is 2.  The claim, like the docstring,
    has [longest] hold that window.  The call returns in [longest] the
    window of 3 points from index 0, from time 0 to time 4, whose
    exponent 1/2 is below [min_exp]: line 428 recorded it because
    [longest] was still NaN, and line 429 keeps it because the later
    window has as many points and an exponent that is not closer to
    1.0. *)
Theorem find_diffusivity_longest_below_min_exp :
  find_diffusivity kink_time kink_msd default_min_exp 3 1 3 1
                   default_min_R2 (None, None)
  = Ok (kink_best, kink_longest, []) /\
  (all_nan kink_longest = false /\
   r_npts kink_longest = of_Z 3 /\
   r_t_start kink_longest = of_Z 0 /\
   r_t_end kink_longest = of_Z 4 /\
   r_exponent kink_longest = Fin (1 # 2) /\
   geb (r_exponent kink_longest) default_min_exp = false) /\
  preprocess kink_time kink_msd 1 (None, None) = Ok (kink_time, kink_msd) /\
  (scanned (length kink_time)
           (effective_min_Npts 3 (length kink_time)) 1 (3, 1)%Z /\
   window_fit kink_time kink_msd 3 (3, 1)%Z = Ok kink_second_window /\
   passes default_min_R2 kink_second_window = true /\
   f_exponent kink_second_window = of_Z 2 /\
   geb (f_exponent kink_second_window) default_min_exp = true /\
   f_npts kink_second_window = 3%Z /\
   kink_longest <> f_region kink_second_window) /\
  forall p u,
    scanned (length kink_time)
            (effective_min_Npts 3 (length kink_time)) 1 p ->
    window_fit kink_time kink_msd 3 p = Ok u ->
    passes default_min_R2 u = true ->
    geb (f_exponent u) default_min_exp = true ->
    u = kink_second_window.
Proof.
  split; [vm_compute; reflexivity|].
  split; [repeat split; vm_compute; reflexivity|].
  split; [vm_compute; reflexivity|].
  split.
  - split; [unfold scanned; vm_compute; repeat split; discriminate|].
    split; [vm_compute; reflexivity|].
    repeat split; try (vm_compute; reflexivity).
    vm_compute. discriminate.
  - intros [npts i] u.
    change (effective_min_Npts 3 (length kink_time)) with 3%Z.
    change (length kink_time) with 5%nat.
    unfold scanned. cbn [Z.of_nat Pos.of_succ_nat Pos.succ].
    intros (_ & Hn & _ & Hi & _) Hfit Hpass Hge.
    assert (Hc : ((npts = 3 /\ i = 0) \/ (npts = 3 /\ i = 1)
                  \/ (npts = 4 /\ i = 0))%Z) by lia.
    destruct Hc as [[-> ->] | [[-> ->] | [-> ->]]];
      vm_compute in Hfit; injection Hfit as <-.
    + vm_compute in Hge. discriminate.
    + reflexivity.
    + vm_compute in Hpass. discriminate.
Qed.

End FindDiffusivityExamples.

(* ================================================================== *)
(** ** The time bounds of find_diffusivity                              *)
(* ================================================================== *)

Module ClippingFacts.

Import Np NpFacts PyFacts Msd.

Lemma where_from_first (s : nat) (pre rest : list bool) :
  Forall (fun b => b = false) pre ->
  exists tl,
    map fst (filter snd (combine (seq s (length (pre ++ true :: rest)))
                                 (pre ++ true :: rest)))
    = (s + length pre) :: tl.
Proof.
  revert s. induction pre as [|b pre IH]; intros s Hpre.
  - cbn [app length seq combine filter snd map fst].
    rewrite Nat.add_0_r. eexists. reflexivity.
  - apply Forall_cons_iff in Hpre as [-> Hpre].
    cbn [app length seq combine filter snd].
    destruct (IH (S s) Hpre) as (tl & Htl).
    rewrite Htl. exists tl. f_equal. lia.
Qed.

(** [np.where] on a condition that first holds at the index
    [length pre]. *)
Lemma where_first_true (pre rest : list bool) :
  Forall (fun b => b = false) pre ->
  exists tl, where_ (pre ++ true :: rest) = length pre :: tl.
Proof. intros Hpre. now apply (where_from_first 0). Qed.

Lemma where_all_false (cond : list bool) :
  Forall (fun b => b = false) cond -> where_ cond = [].
Proof.
  unfold where_. generalize 0 as s.
  induction cond as [|b cond IH]; intros s Hc; [reflexivity|].
  apply Forall_cons_iff in Hc as [-> Hc].
  cbn [length seq combine filter snd]. now apply IH.
Qed.

(** A list of times, cut at the first one above [lo]. *)
Lemma first_above (lo : float) (time : list float) :
  Forall (fun t => gtb t lo = false) time
  \/ exists pre t rest,
      time = pre ++ t :: rest /\ gtb t lo = true
      /\ Forall (fun u => gtb u lo = false) pre.
Proof.
  induction time as [|a time IH]; [left; constructor|].
  destruct (gtb a lo) eqn:Ha.
  - right. exists [], a, time. repeat split; [assumption | constructor].
  - destruct IH as [Hall | (pre & t & rest & -> & Ht & Hpre)].
    + left. now constructor.
    + right. exists (a :: pre), t, rest.
      repeat split; [assumption | now constructor].
Qed.

(** Lines 395-402: the lower bound cuts the arrays at the first sample
    above it, and raises when there is none. *)
Lemma clip_lower_first_above (lo : float) (time msd : list float) :
  isnan lo = false ->
  (Forall (fun t => gtb t lo = false) time ->
   clip_lower time msd (Some lo)
   = Raise (ValueError "Provided minimum in time is greater that the time interval provided"))
  /\ (forall pre t rest,
         time = pre ++ t :: rest -> gtb t lo = true ->
         Forall (fun u => gtb u lo = false) pre ->
         clip_lower time msd (Some lo)
         = Ok (t :: rest, skipn (Nat.min (length msd) (length pre)) msd)).
Proof.
  intros Hlo. unfold clip_lower. rewrite Hlo. cbn [negb]. split.
  - intros Hall. rewrite where_all_false; [reflexivity|].
    apply Forall_map. exact Hall.
  - intros pre t rest -> Ht Hpre.
    rewrite map_app. cbn [map]. rewrite Ht.
    destruct (@where_first_true (map (fun t => gtb t lo) pre)
                                (map (fun t => gtb t lo) rest))
      as (tl & Hw); [now apply Forall_map|].
    rewrite Hw, length_map. cbn [length Nat.ltb Nat.leb].
    rewrite index_0_cons. cbn [Py.bind]. f_equal.
    unfold slice_from, norm_index.
    destruct (Z.ltb_spec (Z.of_nat (length pre)) 0); [lia|].
    rewrite Nat2Z.id, length_app. cbn [length].
    rewrite Nat.min_r by lia. f_equal.
    rewrite skipn_app, skipn_all, Nat.sub_diag. reflexivity.
Qed.

(** With strictly increasing times, the samples from the first one above
    [lo] on are exactly the samples above [lo]. *)
Lemma above_sorted (lo : float) (pre rest : list float) (t : float) :
  StronglySorted (fun a b => ltb a b = true) (pre ++ t :: rest) ->
  gtb t lo = true -> Forall (fun u => gtb u lo = false) pre ->
  filter (fun u => gtb u lo) (pre ++ t :: rest) = t :: rest.
Proof.
  intros Hs Ht Hpre. rewrite filter_app.
  replace (filter (fun u => gtb u lo) pre) with (@nil float).
  2:{ symmetry. clear -Hpre. induction Hpre as [|u pre Hu _ IH];
      [reflexivity|]. cbn [filter]. now rewrite Hu. }
  cbn [app filter]. rewrite Ht. f_equal.
  assert (Hrest : Forall (fun u => ltb t u = true) rest).
  { clear -Hs. induction pre as [|a pre IH]; cbn [app] in Hs.
    - now apply StronglySorted_inv in Hs as [_ Hs].
    - apply StronglySorted_inv in Hs as [Hs _]. now apply IH. }
  clear -Hrest Ht. induction Hrest as [|u rest Hu _ IH]; [reflexivity|].
  cbn [filter]. unfold gtb in *. rewrite (ltb_trans _ _ _ Ht Hu).
  now rewrite IH.
Qed.

End ClippingFacts.

Module Clipping.

Import Np NpFacts PyFacts Msd Examples.
#[local] Existing Instance Reference.extern.

(** Lines 403-408: when the first sample left lies below the upper bound,
    the index taken from [np.where] is 0 and the slices [[:0]] are empty. *)
Lemma clip_upper_first_below (t0 m0 hi : float) (time msd : list float) :
  ltb t0 hi = true ->
  clip_upper (t0 :: time) (m0 :: msd) (Some hi) = Ok ([], []).
Proof.
  intros Hlt. unfold clip_upper.
  apply ltb_not_nan in Hlt as Hn. destruct Hn as [_ ->]. cbn [negb].
  unfold where_. cbn [map length seq combine]. rewrite Hlt.
  cbn [filter snd map fst length Nat.ltb Nat.leb].
  reflexivity.
Qed.

(** ** C3 *)

(** C3, at five samples with times 0, 1, 2, 3, 4 and the bounds
    (None, 3): the samples with time < 3 are those at 0, 1, 2, and the
    code keeps none; [find_diffusivity] then fails on the first, empty,
    window.  The lower bound alone, (1, None), keeps the samples at
    2, 3, 4 as stated. *)
Theorem find_diffusivity_upper_bound_keeps_nothing :
  preprocess line line 1 (None, Some (of_Z 3)) = Ok ([], [])
  /\ filter (fun t => ltb t (of_Z 3)) line = map of_Z [0; 1; 2]%Z
  /\ preprocess line line 1 (Some (of_Z 1), None)
     = Ok (map of_Z [2; 3; 4]%Z, map of_Z [2; 3; 4]%Z)
  /\ find_diffusivity line line default_min_exp 3 1 3 1 default_min_R2
                      (None, Some (of_Z 3))
     = Raise (IndexError "index out of bounds").
Proof.
  repeat split; vm_compute; reflexivity.
Qed.

End Clipping.

(* ================================================================== *)
(** ** The autocorrelation of a zero signal                            *)
(* ================================================================== *)

Module ZeroFacts.
Section WithExtern.

Context `{Extern}.
Import Np NpFacts PyFacts Special DataManipulation.
#[local] Existing Instance float_scalar.
#[local] Arguments Qred : simpl never.
#[local] Arguments Qmult : simpl never.
#[local] Arguments Qminus : simpl never.
#[local] Arguments Qdiv : simpl never.

Lemma Qred_zero (q : Q) : (q == 0)%Q -> Qred q = 0%Q.
Proof. intros Hq. now rewrite (Qred_complete _ _ Hq). Qed.

Lemma sub_self (x : float) : isfinite x = true -> sub x x = zero.
Proof.
  destruct x as [| |q|]; try discriminate. intros _. simpl.
  unfold zero. f_equal. apply Qred_zero. ring.
Qed.

Lemma mul_zero_l (q : Q) : mul zero (Fin q) = zero.
Proof. reflexivity. Qed.

Lemma sub_zero_zero : sub zero zero = zero.
Proof. reflexivity. Qed.

Lemma add_zero_zero : add zero zero = zero.
Proof. reflexivity. Qed.

Lemma div_zero_of_nat (n : nat) : n <> 0 -> div zero (of_nat n) = zero.
Proof.
  intros Hn. unfold of_nat, of_Z, zero. simpl.
  destruct (Qeq_bool (inject_Z (Z.of_nat n)) 0) eqn:Hq.
  - apply Qeq_bool_iff in Hq. unfold Qeq in Hq. simpl in Hq. lia.
  - reflexivity.
Qed.

Lemma sum_zeros (n : nat) : Np.sum (repeat zero n) = zero.
Proof. induction n as [|n IH]; simpl; [reflexivity|]. now rewrite IH. Qed.

Lemma csum_zeros {A} (f : A -> complex) (l : list A) :
  (forall a, In a l -> f a = (zero, zero)) ->
  csum (map f l) = (zero, zero).
Proof.
  induction l as [|a l IH]; intros Hf; simpl; [reflexivity|].
  rewrite IH by (intros; apply Hf; now right).
  rewrite Hf by now left. reflexivity.
Qed.

Lemma cmul_zero_cis (n k : nat) :
  cmul (of_real zero) (cconj (cis n k)) = (zero, zero)
  /\ cmul (zero, zero) (cis n k) = (zero, zero).
Proof.
  split; reflexivity.
Qed.

Lemma nth_zeros (j n : nat) : nth j (repeat zero n) zero = zero.
Proof.
  revert j; induction n as [|n IH]; intros [|j]; simpl; auto.
Qed.

Lemma firstn_repeat {A} (a : A) (k n : nat) :
  firstn k (repeat a n) = repeat a (Nat.min k n).
Proof.
  revert n; induction k as [|k IH]; intros [|n]; simpl; auto.
  now rewrite IH.
Qed.

Lemma pad_zeros (n m : nat) : pad (repeat zero n) m = repeat zero m.
Proof.
  unfold pad. rewrite repeat_length.
  rewrite firstn_repeat. simpl s_zero.
  rewrite <- repeat_app. f_equal. lia.
Qed.

Lemma map_const {A B} (f : A -> B) (b : B) (l : list A) :
  (forall a, In a l -> f a = b) -> map f l = repeat b (length l).
Proof.
  induction l as [|a l IH]; intros Hf; simpl; [reflexivity|].
  rewrite Hf by now left. f_equal. apply IH. intros; apply Hf; now right.
Qed.

(** The autocorrelation of a signal that is zero throughout. *)
Lemma autocorrelation_zeros (n : nat) :
  0 < n ->
  autocorrelation (repeat zero n) "fft" = Ok (repeat zero n).
Proof.
  intros Hn. unfold autocorrelation. rewrite repeat_length.
  change (String.eqb "fft" "fft") with true. cbv iota.
  unfold fft. destruct (Nat.ltb_spec (2 * n) 1) as [|_]; [lia|].
  rewrite pad_zeros.
  rewrite (@map_const _ _ _ (zero, zero) _).
  2:{ intros k _. apply csum_zeros. intros j _.
      rewrite nth_zeros. apply cmul_zero_cis. }
  rewrite length_seq. cbn [Py.bind].
  rewrite (@map_const _ _ _ (zero, zero) _).
  2:{ intros z Hz. apply repeat_spec in Hz. subst z. reflexivity. }
  rewrite repeat_length.
  unfold ifft. rewrite repeat_length.
  destruct (Nat.ltb_spec (2 * n) 1) as [|_]; [lia|].
  rewrite (@map_const _ _ _ (zero, zero) _).
  2:{ intros m _. rewrite csum_zeros.
      - cbn [fst snd s_div s_of_nat float_scalar].
        now rewrite div_zero_of_nat by lia.
      - intros k _.
        replace (nth k (repeat (zero, zero) (2 * n)) (s_zero, s_zero))
          with (zero, zero).
        + apply cmul_zero_cis.
        + clear. generalize (2 * n). intros m. revert k.
          induction m as [|m IH]; intros [|k]; simpl; auto. }
  rewrite length_seq. cbn [Py.bind].
  rewrite firstn_repeat.
  replace (Nat.min n (2 * n)) with n by lia.
  rewrite (@map_const _ _ _ zero _) by (intros z Hz; apply repeat_spec in Hz; now subst z).
  rewrite repeat_length.
  unfold divide, norm.
  f_equal.
  rewrite (@map_const _ _ _ zero _).
  - rewrite length_combine, repeat_length, length_map, length_seq.
    f_equal. lia.
  - intros [c d] Hin. simpl.
    pose proof (in_combine_l _ _ _ _ Hin) as Hc.
    pose proof (in_combine_r _ _ _ _ Hin) as Hd.
    apply repeat_spec in Hc. subst c.
    apply in_map_iff in Hd as (k & <- & Hk). apply in_seq in Hk.
    apply div_zero_of_nat. lia.
Qed.

End WithExtern.
End ZeroFacts.

(* ================================================================== *)
(** ** A trajectory at rest, and the standard error of msd             *)
(* ================================================================== *)

Module MsdFacts.
Section WithExtern.

Context `{Extern}.
Import Np NpFacts PyFacts Special DataManipulation Msd ZeroFacts.
#[local] Existing Instance float_scalar.

Lemma vsub_self (row : list float) :
  Forall (fun c => isfinite c = true) row ->
  vsub row row = repeat zero (length row).
Proof.
  unfold vsub. induction 1 as [|c row Hc _ IH]; simpl; [reflexivity|].
  rewrite IH. f_equal. now apply sub_self.
Qed.

Lemma map_repeat {A B} (f : A -> B) (a : A) (n : nat) :
  map f (repeat a n) = repeat (f a) n.
Proof. induction n as [|n IH]; simpl; [reflexivity | now rewrite IH]. Qed.

Lemma index_repeat {A} (a : A) (n : nat) (i : Z) :
  (- Z.of_nat n <= i < Z.of_nat n)%Z -> Py.index (repeat a n) i = Ok a.
Proof.
  intros Hi. unfold Py.index. rewrite repeat_length.
  set (j := if (i <? 0)%Z then (Z.of_nat n + i)%Z else i).
  assert (Hj : (0 <= j < Z.of_nat n)%Z)
    by (subst j; destruct (Z.ltb_spec i 0); lia).
  destruct (Z.ltb_spec j 0); [lia|].
  rewrite (nth_error_nth' _ a) by (rewrite repeat_length; lia).
  now rewrite nth_repeat.
Qed.

Lemma set_item_repeat {A} (a : A) (n t : nat) :
  set_item (repeat a n) t a = repeat a n.
Proof.
  revert t; induction n as [|n IH]; intros [|t]; simpl; auto.
  now rewrite IH.
Qed.

(** Line 488 on a particle that does not move. *)
Lemma recenter_static (row : list float) (npts : nat) :
  0 < npts -> Forall (fun c => isfinite c = true) row ->
  recenter (repeat row npts)
  = Ok (repeat (repeat zero (length row)) npts).
Proof.
  intros Hn Hrow. unfold recenter.
  rewrite index_repeat by lia. cbn [Py.bind].
  now rewrite map_repeat, vsub_self.
Qed.

Lemma dsq_row_zeros (dims npts : nat) :
  dsq_row (repeat (repeat zero dims) npts) = repeat zero (S npts).
Proof.
  unfold dsq_row. rewrite map_repeat, map_repeat.
  change (mul zero zero) with zero. rewrite sum_zeros.
  now rewrite <- repeat_cons.
Qed.

Lemma vadd_zeros (n : nat) :
  vadd (repeat zero n) (repeat zero n) = repeat zero n.
Proof.
  unfold vadd. induction n as [|n IH]; simpl; [reflexivity|].
  now rewrite IH.
Qed.

Lemma sab_zeros (npts dims : nat) (l : list nat) :
  0 < npts ->
  foldM (fun Sab dim =>
           c <- autocorrelation
                  (map (fun row => nth dim row zero)
                       (repeat (repeat zero dims) npts)) "fft" ;;
           Ok (vadd Sab c))
        l (repeat zero npts)
  = Ok (repeat zero npts).
Proof.
  intros Hn. induction l as [|dim l IH]; [reflexivity|].
  cbn [foldM]. rewrite map_repeat, nth_zeros.
  rewrite autocorrelation_zeros by assumption. cbn [Py.bind].
  now rewrite vadd_zeros.
Qed.

Lemma lag_loop_zeros (npts : nat) (l : list nat) :
  Forall (fun t => t < npts) l ->
  foldM (lag_step npts (repeat zero (S npts)) (repeat zero npts)) l
        (zero, repeat zero npts)
  = Ok (zero, repeat zero npts).
Proof.
  induction 1 as [|t l Ht _ IH]; [reflexivity|].
  cbn [foldM]. unfold lag_step at 1.
  rewrite !index_repeat by lia. cbn [Py.bind].
  change (sub zero (add zero zero)) with zero.
  rewrite div_zero_of_nat by lia.
  change (sub zero (mul (of_Z 2) zero)) with zero.
  rewrite set_item_repeat. exact IH.
Qed.

(** Lines 496-503 on a particle that sits at the origin. *)
Lemma particle_row_zeros (npts dims : nat) :
  0 < npts ->
  particle_row npts dims (repeat (repeat zero dims) npts)
  = Ok (repeat zero npts).
Proof.
  intros Hn. unfold particle_row, sab.
  rewrite dsq_row_zeros, sab_zeros by assumption. cbn [Py.bind].
  rewrite sum_zeros. change (mul (of_Z 2) zero) with zero.
  rewrite lag_loop_zeros; [reflexivity|].
  apply Forall_forall. intros t Ht. now apply in_seq in Ht.
Qed.

Lemma mean_axis0_zeros (npts : nat) :
  mean_axis0 [repeat zero npts] npts = repeat zero npts.
Proof.
  unfold mean_axis0.
  rewrite (@map_const _ _ _ zero _); [now rewrite length_seq|].
  intros t Ht. apply in_seq in Ht.
  cbn [map]. rewrite nth_repeat_lt by lia. reflexivity.
Qed.

Lemma msd3_static (row : list float) (npts : nat) :
  0 < npts -> Forall (fun c => isfinite c = true) row ->
  msd3 [repeat row npts] = Ok (repeat zero npts, Array1 (repeat NaN npts)).
Proof.
  intros Hn Hrow. unfold msd3.
  cbn [mapM hd length]. rewrite recenter_static by assumption.
  cbn [Py.bind mapM]. rewrite !repeat_length.
  replace (length (hd [] (repeat row npts))) with (length row)
    by (destruct npts; [lia | reflexivity]).
  rewrite particle_row_zeros by assumption. cbn [Py.bind].
  rewrite mean_axis0_zeros. cbn [Nat.ltb Nat.leb].
  now rewrite map_repeat.
Qed.

(** The second value [msd] returns, by the number of particles. *)
Lemma msd3_stderror (coords : list (list (list float)))
      (curve : list float) (stderror : scalar_or_array) :
  msd3 coords = Ok (curve, stderror) ->
  stderror
  = if 1 <? length coords
    then Scalar0 (div (Np.mean curve) (sqrt (of_nat (length coords))))
    else Array1 (repeat NaN (length (hd [] coords))).
Proof.
  unfold msd3. intros Hm.
  apply bind_ok in Hm as (coords' & _ & Hm).
  apply bind_ok in Hm as (particle_msd & _ & Hm).
  injection Hm as <- <-.
  destruct (1 <? length coords); [reflexivity|].
  now rewrite map_repeat.
Qed.

(** ** C8 *)

(** C8.  For a single particle whose position is the same finite point
    at every one of the [npts >= 1] time steps, given as a batch of one
    particle or as a bare two-dimensional array, [msd] returns an MSD
    curve of [npts] zeros and a standard error of [npts] NaN. *)
Theorem msd_static_particle (row : list float) (npts : nat) :
  0 < npts -> Forall (fun c => isfinite c = true) row ->
  msd (Arr3 [repeat row npts])
  = Ok (repeat zero npts, Array1 (repeat NaN npts))
  /\ msd (Arr2 (repeat row npts))
     = Ok (repeat zero npts, Array1 (repeat NaN npts)).
Proof.
  intros Hn Hrow. unfold msd. split; now apply msd3_static.
Qed.

End WithExtern.
End MsdFacts.

Module MsdExamples.

Import Np Msd Examples MsdFacts.
#[local] Existing Instance Reference.extern.

Lemma msd_static_particle_witness :
  msd (Arr3 [repeat [of_Z 5; of_Z 7] 3])
  = Ok (repeat zero 3, Array1 (repeat NaN 3))
  /\ msd (Arr2 (repeat [of_Z 5; of_Z 7] 3))
     = Ok (repeat zero 3, Array1 (repeat NaN 3)).
Proof.
  apply (@msd_static_particle Reference.extern [of_Z 5; of_Z 7] 3).
  - lia.
  - repeat constructor.
Defined.

(** ** C4 *)

(** C4, at two particles that move by 1 and by 2 in one step: the MSD
    curve has the two entries 0 and 5/2, and the second value returned is
    a single number, the mean 5/4 of that curve over the time lags
    divided by sqrt(2), where the claim has a curve with one entry per
    lag. *)
Theorem msd_stderror_two_particles :
  exists x : float,
    msd two_particles = Ok ([Fin 0; Fin (5 # 2)], Scalar0 x)
    /\ x = div (Np.mean [Fin 0; Fin (5 # 2)]) (Special.sqrt (of_nat 2))
    /\ forall a : list float,
         msd two_particles <> Ok ([Fin 0; Fin (5 # 2)], Array1 a).
Proof.
  eexists. split; [vm_compute; reflexivity|].
  split; [vm_compute; reflexivity|].
  intros a. vm_compute. discriminate.
Qed.

End MsdExamples.

(* ================================================================== *)
(** ** The circuit breaker of pull_extrema                              *)
(* ================================================================== *)

Module Extrema.
Section WithExtern.

Context `{Extern}.
Import Np NpFacts PyFacts FitData.

(** ** C9 *)

(** C9.  Whenever the quartic spline of the (optionally smoothed) data
    can be built and the roots of its first derivative whose spline value
    exceeds [extrema_cutoff] in magnitude number more than
    [error_length], [pull_extrema] raises a [ValueError] whose message
    gives that number ("Found n extrema") and advises smoothing with
    [smooth_sigma]; it returns no extrema. *)
Theorem pull_extrema_too_many_extrema
        (xarray yarray : list float) (smooth_sigma : option float)
        (error_length : Z) (extrema_cutoff : float) (sp : spline) :
  InterpolatedUnivariateSpline
    xarray
    (match smooth_sigma with
     | Some sigma => gaussian_filter1d yarray sigma
     | None => yarray
     end) 4
  = Ok sp ->
  let extrema :=
    filter (fun x => gtb (abs (call sp x)) extrema_cutoff)
           (roots (derivative sp)) in
  (error_length < Z.of_nat (length extrema))%Z ->
  pull_extrema xarray yarray smooth_sigma error_length extrema_cutoff
  = Raise (ValueError
             ("Found " ++ str_of_nat (length extrema)
              ++ " extrema, consider smoothing the data with `smooth_sigma` option.")).
Proof.
  intros Hsp extrema Hmany. unfold pull_extrema.
  rewrite Hsp. cbn [Py.bind]. fold extrema.
  destruct (Z.ltb_spec error_length (Z.of_nat (length extrema))); [|lia].
  reflexivity.
Qed.

End WithExtern.
End Extrema.

Module ExtremaExamples.

Import Np FitData Extrema Examples.
#[local] Existing Instance Reference.extern.

Lemma pull_extrema_too_many_extrema_witness :
  pull_extrema quartic_x quartic_y None 2 zero
  = Raise (ValueError
             "Found 3 extrema, consider smoothing the data with `smooth_sigma` option.").
Proof.
  apply (@pull_extrema_too_many_extrema
           Reference.extern quartic_x quartic_y None 2 zero quartic_spline).
  - vm_compute. reflexivity.
  - vm_compute. reflexivity.
Defined.

End ExtremaExamples.

(* ================================================================== *)
(** ** The caging plateau of debye_waller                              *)
(* ================================================================== *)

Module CagingFacts.
Section WithExtern.

Context `{Extern}.
Import Np NpFacts PyFacts Special Msd Caging.

Lemma debye_waller_select (time msd : list float) (use_frac : Q)
      (sigma_spline : option float) :
  debye_waller time msd use_frac sigma_spline
  = (sp <- dw_spline time msd use_frac sigma_spline ;; dw_select sp).
Proof.
  unfold debye_waller, dw_spline.
  destruct (negb (length msd =? length time)); [reflexivity|].
  destruct (truncate time msd use_frac) as [time' msd'].
  destruct (Py.index (map log10 msd') 0) as [m0|e]; [|reflexivity].
  cbn [Py.bind].
  destruct (Py.index (map log10 time') 0) as [t0|e]; [|reflexivity].
  cbn [Py.bind].
  destruct (isnan m0 || isinf t0);
    (match goal with
     | |- context [Np.all ?c] => destruct (Np.all c); [reflexivity|]
     end;
     match goal with
     | |- context [InterpolatedUnivariateSpline ?a ?b ?k] =>
         destruct (InterpolatedUnivariateSpline a b k); reflexivity
     end).
Qed.

Lemma set_item_place (l : list float) (vals : list float) (i : nat) (v : float) :
  i < length l ->
  place (set_item l i v) vals (S i) = place l (v :: vals) i.
Proof.
  unfold place. revert i; induction l as [|a l IH]; intros i Hi;
    [simpl in Hi; lia|].
  destruct i as [|i].
  - reflexivity.
  - simpl in Hi. cbn [set_item]. 
    change (firstn (S (S i)) (a :: set_item l i v))
      with (a :: firstn (S i) (set_item l i v)).
    change (skipn (S (S i) + length vals) (a :: set_item l i v))
      with (skipn (S i + length vals) (set_item l i v)).
    change (firstn (S i) (a :: l)) with (a :: firstn i l).
    change (skipn (S i + length (v :: vals)) (a :: l))
      with (skipn (i + length (v :: vals)) l).
    rewrite <- !app_comm_cons. f_equal. apply IH. lia.
Qed.

Lemma set_item_length {A} (l : list A) (i : nat) (v : A) :
  length (set_item l i v) = length l.
Proof.
  revert i; induction l as [|a l IH]; intros [|i]; simpl; auto.
Qed.

Lemma place_nil (l : list float) (i : nat) : place l [] i = l.
Proof. unfold place. simpl. rewrite Nat.add_0_r. apply firstn_skipn. Qed.

(** Lines 267-274: the loop writes the values of the first candidates,
    in order, until [n_min] of them are written. *)
Lemma dw_loop_places (sp dspline concavity : spline) (extrema : list float)
      (st : dw_state) :
  st_i st < n_min ->
  n_min <= length (st_tau st) -> n_min <= length (st_dw st) ->
  n_min <= length (st_min_value st) ->
  let cands :=
    firstn (n_min - st_i st)
           (filter (fun r => gtb (call concavity r) zero) extrema) in
  dw_loop sp dspline concavity extrema st
  = {| st_tau := place (st_tau st) (map pow10 cands) (st_i st);
       st_dw := place (st_dw st) (map (fun r => pow10 (call sp r)) cands)
                      (st_i st);
       st_min_value := place (st_min_value st) (map (call dspline) cands)
                             (st_i st);
       st_i := st_i st + length cands |}.
Proof.
  revert st. induction extrema as [|r rest IH]; intros st Hi Ht Hd Hm cands.
  - subst cands. rewrite firstn_nil. cbn [map length dw_loop].
    rewrite !place_nil, Nat.add_0_r. now destruct st.
  - cbn [dw_loop]. subst cands. cbn [filter].
    destruct (gtb (call concavity r) zero).
    + cbn [st_i].
      replace (n_min - st_i st) with (S (n_min - S (st_i st))) by lia.
      cbn [firstn map length].
      destruct (Nat.eqb_spec (S (st_i st)) n_min) as [Heq|Hne].
      * replace (n_min - S (st_i st)) with 0 by lia.
        cbn [firstn map length].
        rewrite <- !set_item_place by lia. rewrite !place_nil.
        f_equal. lia.
      * rewrite IH; cbn [st_i st_tau st_dw st_min_value];
          rewrite ?set_item_length; try lia.
        rewrite !set_item_place by lia. f_equal. lia.
    + destruct (Nat.eqb_spec (st_i st) n_min) as [Heq|Hne]; [lia|].
      now rewrite IH.
Qed.

Lemma skipn_repeat {A} (a : A) (k n : nat) :
  skipn k (repeat a n) = repeat a (n - k).
Proof.
  revert n; induction k as [|k IH]; intros [|n]; simpl; auto.
Qed.


(** The three arrays when the loop is over. *)
Lemma dw_loop_arrays (sp : spline) :
  let cands := dw_candidates sp in
  dw_loop sp (derivative sp) (derivative (derivative (derivative sp)))
          (roots (derivative (derivative sp)))
          {| st_tau := map (fun o => mul o NaN) (repeat one n_min);
             st_dw := map (fun o => mul o NaN) (repeat one n_min);
             st_min_value := map (fun o => mul o PInf) (repeat one n_min);
             st_i := 0 |}
  = {| st_tau := map pow10 cands ++ repeat NaN (n_min - length cands);
       st_dw := map (fun r => pow10 (call sp r)) cands
                ++ repeat NaN (n_min - length cands);
       st_min_value := map (call (derivative sp)) cands
                       ++ repeat PInf (n_min - length cands);
       st_i := length cands |}.
Proof.
  intros cands.
  rewrite dw_loop_places; cbn [st_i st_tau st_dw st_min_value];
    try (vm_compute; lia).
  rewrite Nat.sub_0_r. fold (dw_candidates sp). fold cands.
  unfold place. cbn [firstn app Nat.add]. rewrite !length_map.
  change (map (fun o => mul o NaN) (repeat one n_min)) with (repeat NaN n_min).
  change (map (fun o => mul o PInf) (repeat one n_min))
    with (repeat PInf n_min).
  now rewrite !skipn_repeat.
Qed.

Lemma leb_refl (x : float) : isnan x = false -> leb x x = true.
Proof.
  destruct x; simpl; try congruence. intros _. apply Qle_bool_iff, Qle_refl.
Qed.

Lemma leb_trans (x y z : float) :
  leb x y = true -> leb y z = true -> leb x z = true.
Proof.
  destruct x, y, z; simpl; try congruence.
  rewrite !Qle_bool_iff. apply Qle_trans.
Qed.

Lemma leb_total (x y : float) :
  isnan x = false -> isnan y = false -> leb x y = false -> leb y x = true.
Proof.
  destruct x, y; simpl; try congruence. intros _ _ Hf.
  apply Qle_bool_iff. apply Qlt_le_weak. apply Qnot_le_lt.
  intros Hle. apply Qle_bool_iff in Hle. congruence.
Qed.

Lemma eqb_refl (x : float) : isnan x = false -> eqb x x = true.
Proof. destruct x; simpl; try congruence. intros _. apply Qeq_bool_refl. Qed.


Lemma eqb_sym (x y : float) : eqb x y = true -> eqb y x = true.
Proof. destruct x, y; simpl; try congruence. apply Qeq_bool_sym. Qed.





(** ** C6 *)

(** C6.  Whenever [debye_waller] gets as far as its spline (the arrays
    have one length, the truncated data is not empty, log10(msd) is not
    all NaN and SciPy builds the spline) and no root of the second
    derivative has a positive third derivative, the call returns
    (NaN, NaN) together with the warning that the array holds no caged
    region; it does not raise. *)
Theorem debye_waller_no_candidate
        (time msd : list float) (use_frac : Q) (sigma_spline : option float)
        (sp : spline) :
  dw_spline time msd use_frac sigma_spline = Ok sp ->
  dw_candidates sp = [] ->
  debye_waller time msd use_frac sigma_spline
  = Ok (NaN, NaN, ["This msd array does not contain a caged-region"]).
Proof.
  intros Hsp Hnone. rewrite debye_waller_select, Hsp. cbn [Py.bind].
  unfold dw_select. rewrite dw_loop_arrays, Hnone. reflexivity.
Qed.

(** ** C5 *)


End WithExtern.
End CagingFacts.

Module CagingExamples.

Import Np Special Msd Caging Examples CagingFacts.
#[local] Existing Instance Reference.extern.

Lemma debye_waller_no_candidate_witness :
  debye_waller decades decades 1 None
  = Ok (NaN, NaN, ["This msd array does not contain a caged-region"]).
Proof.
  apply (@debye_waller_no_candidate
           Reference.extern decades decades 1 None power_law_spline).
  - vm_compute. reflexivity.
  - vm_compute. reflexivity.
Defined.


End CagingExamples.

(* ================================================================== *)
(** ** Non-finite data in a least-squares fit                          *)
(* ================================================================== *)

Module RegressionFacts.

Import Np NpFacts PyFacts Regression.
Local Open Scope Q_scope.










End RegressionFacts.

(* ================================================================== *)
(** ** The log-log fit of diffusivity                                  *)
(* ================================================================== *)

Module DiffusivityFacts.
Section WithExtern.

Context `{Extern}.
Import Np NpFacts PyFacts Special Msd Regression.

Lemma slice_from_1 {A} (l : list A) : slice_from l 1 = skipn 1 l.
Proof.
  unfold slice_from, norm_index. cbn [Z.ltb Z.compare Z.to_nat Pos.to_nat
                                       Pos.iter_op Nat.add].
  destruct l as [|a l]; [reflexivity|].
  cbn [length]. now rewrite Nat.min_r by lia.
Qed.


(** ** C10 *)


End WithExtern.
End DiffusivityFacts.

Module DiffusivityExamples.

Import Np Special Msd Regression Examples DiffusivityFacts.
#[local] Existing Instance Reference.extern.


End DiffusivityExamples.

(* ================================================================== *)
(** ** The three modes of autocorrelation, in real arithmetic          *)
(* ================================================================== *)

Module RealSums.

Import DataManipulation.
Local Open Scope R_scope.

(** Sums of reals over a list, as [rsum] computes them. *)

Lemma rsum_nil : rsum (@nil R) = 0.
Proof. reflexivity. Qed.

Lemma rsum_cons (a : R) (l : list R) : rsum (a :: l) = a + rsum l.
Proof. reflexivity. Qed.

Lemma rsum_app (l1 l2 : list R) : rsum (l1 ++ l2) = rsum l1 + rsum l2.
Proof.
  induction l1 as [|a l1 IH]; cbn [app].
  - rewrite rsum_nil. ring.
  - rewrite !rsum_cons, IH. ring.
Qed.

Lemma rsum_ext {A} (f g : A -> R) (l : list A) :
  (forall a, In a l -> f a = g a) -> rsum (map f l) = rsum (map g l).
Proof.
  induction l as [|a l IH]; intros Hfg; cbn [map]; [reflexivity|].
  rewrite !rsum_cons, Hfg by now left.
  rewrite IH; [reflexivity|]. intros; apply Hfg; now right.
Qed.

Lemma rsum_zero {A} (f : A -> R) (l : list A) :
  (forall a, In a l -> f a = 0) -> rsum (map f l) = 0.
Proof.
  induction l as [|a l IH]; intros Hf; cbn [map]; [reflexivity|].
  rewrite rsum_cons, Hf by now left.
  rewrite IH; [ring|]. intros; apply Hf; now right.
Qed.

Lemma rsum_plus {A} (f g : A -> R) (l : list A) :
  rsum (map (fun a => f a + g a) l) = rsum (map f l) + rsum (map g l).
Proof.
  induction l as [|a l IH]; cbn [map].
  - rewrite rsum_nil. ring.
  - rewrite !rsum_cons, IH. ring.
Qed.

Lemma rsum_scal {A} (c : R) (f : A -> R) (l : list A) :
  rsum (map (fun a => c * f a) l) = c * rsum (map f l).
Proof.
  induction l as [|a l IH]; cbn [map].
  - rewrite rsum_nil. ring.
  - rewrite !rsum_cons, IH. ring.
Qed.

Lemma rsum_swap {A B} (f : A -> B -> R) (l1 : list A) (l2 : list B) :
  rsum (map (fun a => rsum (map (fun b => f a b) l2)) l1)
  = rsum (map (fun b => rsum (map (fun a => f a b) l1)) l2).
Proof.
  induction l1 as [|a l1 IH]; cbn [map].
  - rewrite rsum_nil. symmetry. now apply rsum_zero.
  - rewrite rsum_cons, IH. rewrite <- rsum_plus.
    apply rsum_ext. intros b _. now rewrite rsum_cons.
Qed.

(** A sum in which one index alone contributes. *)
Lemma rsum_single (f : nat -> R) (n i : nat) :
  (i < n)%nat ->
  (forall j, (j < n)%nat -> j <> i -> f j = 0) ->
  rsum (map f (seq 0 n)) = f i.
Proof.
  intros Hi Hz.
  replace n with (i + (1 + (n - i - 1)))%nat by lia.
  rewrite !seq_app, !map_app, !rsum_app. cbn [seq map Nat.add].
  rewrite rsum_cons, rsum_nil.
  rewrite (@rsum_zero _ f (seq 0 i)), (@rsum_zero _ f (seq (i + 1) (n - i - 1))).
  - ring.
  - intros j Hj. apply in_seq in Hj. apply Hz; lia.
  - intros j Hj. apply in_seq in Hj. apply Hz; lia.
Qed.

(** The tail of a sum whose terms vanish from [n] on. *)
Lemma rsum_truncate (f : nat -> R) (n m : nat) :
  (n <= m)%nat ->
  (forall j, (n <= j < m)%nat -> f j = 0) ->
  rsum (map f (seq 0 m)) = rsum (map f (seq 0 n)).
Proof.
  intros Hnm Hz.
  replace m with (n + (m - n))%nat at 1 by lia.
  rewrite seq_app, map_app, rsum_app.
  rewrite (@rsum_zero _ f (seq (0 + n) (m - n))); [ring|].
  intros j Hj. apply in_seq in Hj. apply Hz. lia.
Qed.

End RealSums.

Module DirectModes.

Import DataManipulation Correlation RealSums PyFacts.
Local Open Scope R_scope.

Lemma map_seq_shift {B} (f : nat -> B) (s n : nat) :
  map f (seq s n) = map (fun k => f (s + k)%nat) (seq 0 n).
Proof.
  rewrite <- (Nat.add_0_r s) at 1. generalize 0%nat. intros t.
  revert t; induction n as [|n IH]; intros t; cbn [seq map]; [reflexivity|].
  f_equal. rewrite <- IH. f_equal. f_equal. lia.
Qed.

Lemma nth_map_seq {B} (f : nat -> B) (n m : nat) (d : B) :
  (m < n)%nat -> nth m (map f (seq 0 n)) d = f m.
Proof.
  intros Hm.
  rewrite (nth_indep _ d (f 0%nat)) by (rewrite length_map, length_seq; lia).
  rewrite map_nth, seq_nth by lia. reflexivity.
Qed.

(** [Cx / norm] on an array of lag sums. *)
Lemma divide_norm (f : nat -> R) (L : nat) :
  divide (map f (seq 0 L)) (norm L)
  = map (fun k => f k / INR (L - k)) (seq 0 L).
Proof.
  unfold divide, norm. generalize (seq 0 L). intros l.
  induction l as [|k l IH]; cbn [map combine]; [reflexivity|].
  now rewrite IH.
Qed.

(** *** The mode [numpy] *)

Lemma correlate_lags (x : list R) :
  x <> [] ->
  c <- correlate_full x x ;; Ok (skipn (length x - 1) c)
  = Ok (map (lag_sum x) (seq 0 (length x))).
Proof.
  intros Hx. unfold correlate_full.
  assert (HL : (0 < length x)%nat) by (destruct x; [congruence | simpl; lia]).
  destruct (Nat.eqb_spec (length x) 0) as [|_]; [lia|].
  cbn [Py.bind]. f_equal.
  rewrite skipn_map, skipn_seq.
  replace (length x + length x - 1 - (length x - 1))%nat with (length x)
    by lia.
  rewrite map_seq_shift. apply map_ext_in. intros k Hk. apply in_seq in Hk.
  unfold lag_sum.
  replace (length x - 1 - (0 + (length x - 1) + k))%nat with 0%nat by lia.
  replace (Nat.min (length x)
                   (length x + (length x - 1) - (0 + (length x - 1) + k)) - 0)%nat
    with (length x - k)%nat by lia.
  apply rsum_ext. intros n Hn. apply in_seq in Hn.
  replace (n + (0 + (length x - 1) + k) - (length x - 1))%nat
    with (n + k)%nat by lia.
  cbn [s_mul R_scalar]. ring.
Qed.

(** *** The mode [loop] *)

Lemma add_prefix_length (Cx ys : list R) :
  length (add_prefix Cx ys) = length Cx.
Proof.
  revert ys; induction Cx as [|c Cx IH]; intros [|y ys]; cbn [add_prefix length];
    auto.
Qed.

Lemma add_prefix_nth (Cx ys : list R) (m : nat) :
  (length ys <= length Cx)%nat ->
  nth m (add_prefix Cx ys) 0 = nth m Cx 0 + nth m ys 0.
Proof.
  revert ys m; induction Cx as [|c Cx IH]; intros [|y ys] [|m] Hlen;
    cbn [add_prefix nth length] in *; try ring; try lia.
  - reflexivity.
  - apply IH. lia.
Qed.

Lemma nth_scaled (a : R) (l : list R) (m : nat) :
  nth m (map (Rmult a) l) 0 = a * nth m l 0.
Proof.
  revert m; induction l as [|b l IH]; intros [|m]; cbn [map nth];
    try ring; apply IH.
Qed.

(** The array [Cx] after the iterations [js] of the loop. *)
Lemma loop_nth (x : list R) (js : list nat) (Cx : list R) (m : nat) :
  length Cx = length x ->
  length (fold_left (loop_body x) js Cx) = length x
  /\ nth m (fold_left (loop_body x) js Cx) 0
     = nth m Cx 0
       + rsum (map (fun j => nth j x 0 * nth (j + m) x 0) js).
Proof.
  revert Cx. induction js as [|j js IH]; intros Cx Hlen; cbn [fold_left map].
  - split; [assumption|]. rewrite rsum_nil. ring.
  - assert (Hys : (length (map (s_mul (nth j x s_zero)) (skipn j x))
                   <= length Cx)%nat)
      by (rewrite length_map, length_skipn; lia).
    destruct (IH (loop_body x Cx j)) as [Hl Hn].
    { unfold loop_body. now rewrite add_prefix_length. }
    split; [assumption|]. rewrite Hn, rsum_cons.
    unfold loop_body. rewrite add_prefix_nth by assumption.
    enough (Hterm : nth m (map (s_mul (nth j x s_zero)) (skipn j x)) 0
                    = nth j x 0 * nth (j + m) x 0) by (rewrite Hterm; ring).
    change (map (s_mul (nth j x s_zero)) (skipn j x))
      with (map (Rmult (nth j x 0)) (skipn j x)).
    rewrite nth_scaled, nth_skipn. reflexivity.
Qed.

Lemma loop_lags (x : list R) :
  fold_left (loop_body x) (seq 0 (length x)) (repeat s_zero (length x))
  = map (lag_sum x) (seq 0 (length x)).
Proof.
  apply (nth_ext _ _ 0 0).
  - rewrite length_map, length_seq.
    apply (@loop_nth x (seq 0 (length x)) (repeat s_zero (length x)) 0
                     (repeat_length _ _)).
  - intros m Hm.
    destruct (@loop_nth x (seq 0 (length x)) (repeat s_zero (length x)) m
                        (repeat_length _ _)) as [Hl Hn].
    rewrite Hl in Hm. rewrite Hn.
    rewrite nth_map_seq by assumption.
    rewrite nth_repeat. cbn [s_zero R_scalar]. rewrite Rplus_0_l.
    unfold lag_sum. symmetry.
    rewrite <- (@rsum_truncate
                  (fun j => s_mul (nth j x s_zero) (nth (j + m) x s_zero))
                  (length x - m) (length x)).
    + reflexivity.
    + lia.
    + intros j Hj. rewrite (nth_overflow x s_zero (n := j + m)) by lia.
      cbn [s_mul s_zero R_scalar]. ring.
Qed.

End DirectModes.

Module Fourier.

Import DataManipulation Correlation RealSums PyFacts DirectModes.
Local Open Scope R_scope.

(** *** Sums of cosines over a full period *)

Lemma cos_sum_telescope (alpha : R) (n : nat) :
  2 * sin (alpha / 2) * rsum (map (fun k => cos (INR k * alpha)) (seq 0 n))
  = sin ((INR n - 1 / 2) * alpha) + sin (alpha / 2).
Proof.
  induction n as [|n IH].
  - cbn [seq map]. rewrite rsum_nil. cbn [INR].
    replace ((0 - 1 / 2) * alpha) with (- (alpha / 2)) by field.
    rewrite sin_neg. ring.
  - rewrite seq_S, map_app, rsum_app. cbn [map Nat.add].
    rewrite rsum_cons, rsum_nil.
    rewrite Rmult_plus_distr_l, IH. rewrite S_INR.
    replace ((INR n + 1 - 1 / 2) * alpha) with (INR n * alpha + alpha / 2)
      by field.
    replace ((INR n - 1 / 2) * alpha) with (INR n * alpha - alpha / 2)
      by field.
    rewrite sin_plus, sin_minus. ring.
Qed.

Lemma cos_sum_zero (N d : nat) :
  (0 < d < N)%nat ->
  rsum (map (fun k => cos (INR k * (2 * PI * INR d / INR N))) (seq 0 N)) = 0.
Proof.
  intros Hd.
  assert (HN : 0 < INR N) by (apply lt_0_INR; lia).
  assert (Hd0 : 0 < INR d) by (apply lt_0_INR; lia).
  assert (HdN : INR d < INR N) by (apply lt_INR; lia).
  set (alpha := 2 * PI * INR d / INR N).
  pose proof (cos_sum_telescope alpha N) as Ht.
  assert (Hhalf : alpha / 2 = PI * (INR d / INR N))
    by (unfold alpha; field; lra).
  assert (Hsin : 0 < sin (alpha / 2)).
  { pose proof PI_RGT_0 as Hpi.
    assert (0 < INR d / INR N < 1).
    { split; [now apply Rdiv_lt_0_compat|].
      apply (Rmult_lt_reg_r (INR N)); [assumption|].
      replace (INR d / INR N * INR N) with (INR d) by (field; lra). lra. }
    apply sin_gt_0; rewrite Hhalf; nra. }
  replace ((INR N - 1 / 2) * alpha) with (- (alpha / 2) + 2 * INR d * PI)
    in Ht by (unfold alpha; field; lra).
  rewrite sin_period, sin_neg in Ht.
  assert (Hprod : sin (alpha / 2)
                  * rsum (map (fun k => cos (INR k * alpha)) (seq 0 N)) = 0)
    by lra.
  apply Rmult_integral in Hprod as [Hz | Hz]; [lra | exact Hz].
Qed.

(** Orthogonality: over the [N] samples of a period, the cosines of
    frequency p - q sum to N when p = q and cancel when 0 < |p - q| < N. *)
Lemma cos_sum_orthogonal (N p q : nat) :
  (p < q + N)%nat -> (q < p + N)%nat ->
  rsum (map (fun k => cos (INR k * (2 * PI * (INR p - INR q) / INR N)))
            (seq 0 N))
  = if (p =? q)%nat then INR N else 0.
Proof.
  intros Hpq Hqp.
  destruct (Nat.eqb_spec p q) as [-> | Hne].
  - rewrite (@rsum_ext _ _ (fun _ => 1)).
    + clear. induction N as [|N IH]; [reflexivity|].
      rewrite seq_S, map_app, rsum_app, IH, S_INR. cbn [map].
      rewrite rsum_cons, rsum_nil. ring.
    + intros k _. replace (INR q - INR q) with 0 by ring.
      replace (INR k * (2 * PI * 0 / INR N)) with 0
        by (unfold Rdiv; ring).
      apply cos_0.
  - destruct (Nat.lt_ge_cases q p) as [Hlt | Hge].
    + rewrite <- minus_INR by lia. apply cos_sum_zero. lia.
    + rewrite <- (@cos_sum_zero N (q - p)) by lia.
      apply rsum_ext. intros k _.
      rewrite minus_INR by lia. rewrite <- cos_neg. f_equal.
      unfold Rdiv. ring.
Qed.

End Fourier.

Module FftMode.

Import DataManipulation Correlation Spectrum RealSums PyFacts DirectModes
       Fourier.
Local Open Scope R_scope.

Lemma csum_parts (l : list (R * R)) :
  csum l = (rsum (map fst l), rsum (map snd l)).
Proof.
  induction l as [|z l IH]; [reflexivity|].
  change (csum (z :: l)) with (cadd z (csum l)). rewrite IH.
  cbn [map]. rewrite !rsum_cons. reflexivity.
Qed.

Lemma rsum_opp {A} (f : A -> R) (l : list A) :
  rsum (map (fun a => - f a) l) = - rsum (map f l).
Proof.
  induction l as [|a l IH]; cbn [map].
  - rewrite rsum_nil. ring.
  - rewrite !rsum_cons, IH. ring.
Qed.

Lemma nth_pad (x : list R) (n j : nat) :
  (length x <= n)%nat -> nth j (pad x n) 0 = nth j x 0.
Proof.
  intros Hn. unfold pad. rewrite firstn_all2 by assumption.
  destruct (Nat.lt_ge_cases j (length x)) as [Hj | Hj].
  - now rewrite app_nth1.
  - rewrite app_nth2 by assumption.
    rewrite (nth_overflow x) by assumption.
    apply nth_repeat.
Qed.

Lemma angle_product (N j k : nat) :
  2 * PI * INR (j * k) / INR N = INR k * omega N j.
Proof. unfold omega, Rdiv. rewrite mult_INR. ring. Qed.

(** The transform of the zero-padded signal. *)
Lemma fft_series (x : list R) (N : nat) :
  (0 < N)%nat -> (length x <= N)%nat ->
  fft x N
  = Ok (map (fun k => (cos_series x N k, - sin_series x N k)) (seq 0 N)).
Proof.
  intros HN HL. unfold fft.
  destruct (Nat.ltb_spec N 1) as [|_]; [lia|]. f_equal.
  apply map_ext. intros k. rewrite csum_parts, !map_map.
  unfold cos_series, sin_series. f_equal.
  - rewrite <- (@rsum_truncate _ (length x) N).
    + apply rsum_ext. intros j _.
      rewrite nth_pad by assumption.
      cbn [cmul of_real cconj cis fst snd s_mul s_sub s_add s_zero cos2pi
           sin2pi R_scalar].
      rewrite angle_product. ring.
    + assumption.
    + intros j Hj. rewrite nth_overflow by lia. ring.
  - rewrite <- rsum_opp.
    rewrite <- (@rsum_truncate _ (length x) N).
    + apply rsum_ext. intros j _.
      rewrite nth_pad by assumption.
      cbn [cmul of_real cconj cis fst snd s_mul s_sub s_add s_zero cos2pi
           sin2pi R_scalar].
      rewrite angle_product. ring.
    + assumption.
    + intros j Hj. rewrite nth_overflow by lia. ring.
Qed.

(** [np.abs(X[k])**2] *)
Lemma cabs_squared (a b : R) :
  s_mul (cabs (a, - b)) (cabs (a, - b)) = a * a + b * b.
Proof.
  unfold cabs. cbn [fst snd s_mul s_add s_sqrt R_scalar].
  rewrite sqrt_sqrt by nra. ring.
Qed.

(** The inverse transform of a real array. *)
Lemma ifft_real (P : nat -> R) (N : nat) :
  (0 < N)%nat ->
  ifft (map (fun k => of_real (P k)) (seq 0 N))
  = Ok (map (fun m =>
               (rsum (map (fun k => P k * cos (INR m * omega N k)) (seq 0 N))
                / INR N,
                rsum (map (fun k => P k * sin (INR m * omega N k)) (seq 0 N))
                / INR N))
            (seq 0 N)).
Proof.
  intros HN. unfold ifft. rewrite length_map, length_seq.
  destruct (Nat.ltb_spec N 1) as [|_]; [lia|]. f_equal.
  apply map_ext. intros m.
  rewrite csum_parts. cbn [fst snd s_div s_of_nat R_scalar].
  rewrite !map_map.
  f_equal; f_equal; apply rsum_ext; intros k Hk; apply in_seq in Hk;
    rewrite (nth_indep _ _ (of_real (P 0%nat)))
      by (rewrite length_map, length_seq; lia);
    rewrite (map_nth (fun k => of_real (P k))), seq_nth by lia;
    cbn [cmul of_real cis fst snd s_mul s_sub s_add s_zero cos2pi sin2pi
         R_scalar Nat.add];
    rewrite angle_product;
    replace (INR m * omega N k) with (INR k * omega N m)
      by (unfold omega, Rdiv; ring);
    ring.
Qed.

Lemma rsum_product {A B} (f : A -> R) (g : B -> R) (l1 : list A) (l2 : list B) :
  rsum (map f l1) * rsum (map g l2)
  = rsum (map (fun a => rsum (map (fun b => f a * g b) l2)) l1).
Proof.
  induction l1 as [|a l1 IH]; cbn [map].
  - rewrite rsum_nil. ring.
  - rewrite !rsum_cons, Rmult_plus_distr_r, IH, rsum_scal. reflexivity.
Qed.

(** A sum over the one index at which a test holds. *)
Lemma rsum_indicator (f : nat -> R) (L i : nat) :
  rsum (map (fun l => if (l =? i)%nat then f l else 0) (seq 0 L))
  = if (i <? L)%nat then f i else 0.
Proof.
  destruct (Nat.ltb_spec i L) as [Hi | Hi].
  - rewrite (@rsum_single _ L i Hi).
    + now rewrite Nat.eqb_refl.
    + intros j _ Hj. destruct (Nat.eqb_spec j i); [contradiction | reflexivity].
  - apply rsum_zero. intros j Hj. apply in_seq in Hj.
    destruct (Nat.eqb_spec j i); [lia | reflexivity].
Qed.

(** The power spectrum at [k], as a double sum of cosines. *)
Lemma power_cosines (x : list R) (N k : nat) :
  power x N k
  = rsum (map (fun j =>
                 rsum (map (fun l =>
                             nth j x 0 * nth l x 0
                             * cos (INR k * omega N j - INR k * omega N l))
                           (seq 0 (length x))))
              (seq 0 (length x))).
Proof.
  unfold power, cos_series, sin_series.
  rewrite !rsum_product, <- rsum_plus.
  apply rsum_ext. intros j _. rewrite <- rsum_plus.
  apply rsum_ext. intros l _. rewrite cos_minus. ring.
Qed.

Lemma cos_product (a c : R) : cos a * cos c = (cos (a + c) + cos (a - c)) / 2.
Proof. rewrite cos_plus, cos_minus. field. Qed.

(** Wiener-Khinchin on the zero-padded signal: the inverse transform of
    the power spectrum, before its division by [N], is [N] times the lag
    sum. *)
Lemma power_lag_sum (x : list R) (m : nat) :
  (m < length x)%nat ->
  let N := (2 * length x)%nat in
  rsum (map (fun k => power x N k * cos (INR m * omega N k)) (seq 0 N))
  = INR N * lag_sum x m.
Proof.
  intros Hm N. set (L := length x) in *.
  assert (HN : INR N <> 0) by (apply not_0_INR; lia).
  (* every term as a double sum of two cosines *)
  rewrite (@rsum_ext _ _
     (fun k =>
        rsum (map (fun j =>
          rsum (map (fun l =>
            nth j x 0 * nth l x 0 / 2
            * (cos (INR k * (2 * PI * (INR (j + m) - INR l) / INR N))
               + cos (INR k * (2 * PI * (INR j - INR (l + m)) / INR N))))
            (seq 0 L))) (seq 0 L)))).
  2:{ intros k _. rewrite power_cosines. fold L.
      rewrite Rmult_comm, <- rsum_scal.
      apply rsum_ext. intros j _. rewrite <- rsum_scal.
      apply rsum_ext. intros l _.
      replace (INR m * omega N k) with (INR k * omega N m)
        by (unfold omega, Rdiv; ring).
      rewrite (Rmult_comm (cos (INR k * omega N m))), Rmult_assoc.
      rewrite cos_product. rewrite !plus_INR.
      replace (INR k * omega N j - INR k * omega N l + INR k * omega N m)
        with (INR k * (2 * PI * (INR j + INR m - INR l) / INR N))
        by (unfold omega, Rdiv; ring).
      replace (INR k * omega N j - INR k * omega N l - INR k * omega N m)
        with (INR k * (2 * PI * (INR j - (INR l + INR m)) / INR N))
        by (unfold omega, Rdiv; ring).
      field. }
  (* the sum over the frequencies, innermost *)
  rewrite rsum_swap.
  rewrite (@rsum_ext _ _
     (fun j =>
        rsum (map (fun l =>
          nth j x 0 * nth l x 0 / 2
          * ((if (j + m =? l)%nat then INR N else 0)
             + (if (j =? l + m)%nat then INR N else 0)))
          (seq 0 L)))).
  2:{ intros j Hj. apply in_seq in Hj. rewrite rsum_swap.
      apply rsum_ext. intros l Hl. apply in_seq in Hl.
      rewrite rsum_scal, rsum_plus.
      rewrite !cos_sum_orthogonal by (subst N L; lia). reflexivity. }
  (* the two diagonals *)
  rewrite (@rsum_ext _ _
     (fun j =>
        rsum (map (fun l => if (l =? j + m)%nat
                            then nth j x 0 * nth l x 0 * (INR N / 2) else 0)
                  (seq 0 L))
        + rsum (map (fun l => if (j =? l + m)%nat
                              then nth j x 0 * nth l x 0 * (INR N / 2) else 0)
                    (seq 0 L)))).
  2:{ intros j _. rewrite <- rsum_plus. apply rsum_ext. intros l _.
      rewrite (Nat.eqb_sym (j + m) l).
      destruct (l =? j + m)%nat, (j =? l + m)%nat; field. }
  rewrite rsum_plus, (rsum_swap (fun j l => if (j =? l + m)%nat then _ else _)).
  rewrite (@rsum_ext _ _ (fun j => nth j x 0 * nth (j + m) x 0 * (INR N / 2))
                     (seq 0 L)).
  2:{ intros j _.
      rewrite (rsum_indicator (fun l => nth j x 0 * nth l x 0 * (INR N / 2))).
      destruct (Nat.ltb_spec (j + m) L) as [|Hover]; [reflexivity|].
      rewrite (nth_overflow x _ Hover). ring. }
  rewrite (@rsum_ext _
             (fun l => rsum (map (fun j => if (j =? l + m)%nat
                                           then nth j x 0 * nth l x 0
                                                * (INR N / 2)
                                           else 0) (seq 0 L)))
             (fun l => nth l x 0 * nth (l + m) x 0 * (INR N / 2))
             (seq 0 L)).
  2:{ intros l _.
      rewrite (rsum_indicator
                 (fun j => nth j x 0 * nth l x 0 * (INR N / 2)) L (l + m)).
      destruct (Nat.ltb_spec (l + m) L) as [|Hover]; [ring|].
      rewrite (nth_overflow x _ Hover). ring. }
  rewrite <- rsum_plus.
  rewrite (@rsum_ext _ _ (fun j => INR N * (nth j x 0 * nth (j + m) x 0))
                     (seq 0 L)) by (intros; field).
  rewrite rsum_scal. f_equal.
  unfold lag_sum. fold L.
  change (rsum (map (fun j => nth j x 0 * nth (j + m) x 0) (seq 0 L))
          = rsum (map (fun j => nth j x 0 * nth (j + m) x 0) (seq 0 (L - m)))).
  apply rsum_truncate; [lia|].
  intros j Hj. rewrite (nth_overflow x 0 (n := j + m)) by (fold L; lia).
  ring.
Qed.

(** *** The mode [fft] *)

Lemma firstn_seq (n start len : nat) :
  firstn n (seq start len) = seq start (Nat.min n len).
Proof.
  revert start len; induction n as [|n IH]; intros start [|len];
    cbn [firstn seq Nat.min]; auto.
  now rewrite IH.
Qed.

Lemma fft_lags (x : list R) :
  x <> [] ->
  X <- fft x (2 * length x) ;;
  y <- ifft (map (fun z => of_real (s_mul (cabs z) (cabs z))) X) ;;
  Ok (map fst (firstn (length x) y))
  = Ok (map (lag_sum x) (seq 0 (length x))).
Proof.
  intros Hx.
  assert (HL : (0 < length x)%nat) by (destruct x; [congruence | simpl; lia]).
  rewrite fft_series by lia. cbn [Py.bind].
  rewrite map_map.
  rewrite (map_ext _ (fun k => of_real (power x (2 * length x) k)))
    by (intros k; now rewrite cabs_squared).
  rewrite ifft_real by lia. cbn [Py.bind]. f_equal.
  rewrite firstn_map, firstn_seq, map_map.
  replace (Nat.min (length x) (2 * length x)) with (length x) by lia.
  apply map_ext_in. intros m Hm. apply in_seq in Hm. cbn [fst].
  rewrite power_lag_sum by lia.
  field. apply not_0_INR. lia.
Qed.

(** ** C1 *)

(** C1, amended.  In exact real arithmetic, for every signal [x] of
    length L >= 1 the three modes [fft] (zero-pad to 2L, power spectrum,
    inverse transform, real part of the first L samples), [numpy] (direct
    cross-correlation) and [loop] (double loop) of [autocorrelation]
    return the same array of length L, whose entry [k] is the lag-[k]
    correlation sum x[0] x[k] + ... + x[L-1-k] x[L-1] divided by
    [L - k].  The three modes compute one function; nothing is said
    here of how far rounding takes their float64 results apart. *)
Theorem autocorrelation_modes_agree (x : list R) :
  x <> [] ->
  autocorrelation x "fft" = Ok (normalised_lag_sums x)
  /\ autocorrelation x "numpy" = Ok (normalised_lag_sums x)
  /\ autocorrelation x "loop" = Ok (normalised_lag_sums x)
  /\ length (normalised_lag_sums x) = length x.
Proof.
  intros Hx. unfold autocorrelation.
  change (String.eqb "fft" "fft") with true.
  change (String.eqb "numpy" "fft") with false.
  change (String.eqb "numpy" "numpy") with true.
  change (String.eqb "loop" "fft") with false.
  change (String.eqb "loop" "numpy") with false.
  change (String.eqb "loop" "loop") with true.
  cbv iota.
  rewrite fft_lags, correlate_lags, loop_lags by assumption.
  cbn [Py.bind]. rewrite divide_norm.
  repeat split.
  unfold normalised_lag_sums. now rewrite length_map, length_seq.
Qed.

End FftMode.

Module AutocorrelationExamples.

Import DataManipulation Correlation FftMode.
Local Open Scope R_scope.

Lemma autocorrelation_modes_agree_witness :
  autocorrelation [1; 2] "fft" = Ok (normalised_lag_sums [1; 2])
  /\ autocorrelation [1; 2] "numpy" = Ok (normalised_lag_sums [1; 2])
  /\ autocorrelation [1; 2] "loop" = Ok (normalised_lag_sums [1; 2])
  /\ length (normalised_lag_sums [1; 2]) = length [1; 2].
Proof.
  apply (@autocorrelation_modes_agree [1; 2]). discriminate.
Defined.

End AutocorrelationExamples.

Module AutocorrelationFloat64.

Import PrimFloat.
Import DataManipulation.

(** C1, as stated, fails, in two ways.

    In float64 the modes do not agree within a relative tolerance.  On
    x = [2**33, 2**-33] the transform of the padded signal is
    [x0 + x1, x0 - i x1, x0 - x1, x0 + i x1], and both x0 + x1 and
    x0 - x1 round to x0; every |X[k]|^2 is then 2**66, the inverse
    transform of a constant is zero at every lag but 0, and the mode
    [fft] returns 0 at lag 1, where the modes [numpy] and [loop] return
    the product x0 x1 = 1.  The two values are not within the relative
    tolerance 1/2 of each other, and so within no smaller one.

    On the signal of length 0 NumPy refuses a transform of no points
    and a correlation of empty arrays: the modes [fft] and [numpy]
    raise where the mode [loop] returns the empty array. *)
Lemma autocorrelation_tolerance_counterexample :
  (@autocorrelation _ Float64.scalar Float64.wide_signal "fft"
   = Ok [0x1p65%float; 0%float]
   /\ @autocorrelation _ Float64.scalar Float64.wide_signal "numpy"
      = Ok [0x1p65%float; 1%float]
   /\ @autocorrelation _ Float64.scalar Float64.wide_signal "loop"
      = Ok [0x1p65%float; 1%float]
   /\ Float64.within 0.5%float 0%float 1%float = false)
  /\ (@autocorrelation _ Float64.scalar [] "fft"
      = Raise (ValueError "Invalid number of FFT data points (0) specified.")
      /\ @autocorrelation _ Float64.scalar [] "numpy"
         = Raise (ValueError "first array argument cannot be empty")
      /\ @autocorrelation _ Float64.scalar [] "loop" = Ok []).
Proof.
  split; repeat split; vm_compute; reflexivity.
Qed.

(** Where no sum rounds, the three modes agree in float64 too. *)
Example autocorrelation_float64_small :
  @autocorrelation _ Float64.scalar [1%float; 2%float] "fft"
  = Ok [2.5%float; 2%float]
  /\ @autocorrelation _ Float64.scalar [1%float; 2%float] "numpy"
     = Ok [2.5%float; 2%float]
  /\ @autocorrelation _ Float64.scalar [1%float; 2%float] "loop"
     = Ok [2.5%float; 2%float].
Proof.
  repeat split; vm_compute; reflexivity.
Qed.

End AutocorrelationFloat64.
(* ================================================================== *)
(** ** find_diffusivity: the range of the scan                         *)
(* ================================================================== *)

Module ScanRange.
Section WithExtern.

Context `{Extern}.
Import Np NpFacts PyFacts Msd Windows WindowListFacts.

Lemma range_list_empty (start skip : Z) : range_list start start skip = [].
Proof.
  unfold range_list. rewrite Z.sub_diag.
  destruct (0 <? skip)%Z; reflexivity.
Qed.

Lemma range_list_backwards (start stop skip : Z) :
  (skip <= 0)%Z -> (start <= stop)%Z -> range_list start stop skip = [].
Proof.
  intros Hs Hle. unfold range_list.
  destruct (Z.ltb_spec 0 skip); [lia|].
  now apply range_down_nil.
Qed.

(** What [l[i]] is when it does not raise. *)
Lemma index_ok {A} (l : list A) (i : Z) (a : A) :
  Py.index l i = Ok a ->
  exists j : nat,
    nth_error l j = Some a /\
    Z.of_nat j = (if (i <? 0)%Z then Z.of_nat (length l) + i else i)%Z.
Proof.
  unfold Py.index.
  set (j := if (i <? 0)%Z then (Z.of_nat (length l) + i)%Z else i).
  destruct (Z.ltb_spec j 0); [discriminate|].
  destruct (nth_error l (Z.to_nat j)) as [b|] eqn:Hn; [|discriminate].
  intros [= ->]. exists (Z.to_nat j). split; [assumption | lia].
Qed.

(** The scan, as one pass over the fitted windows. *)
Lemma scan_eq (time msd : list float) (dim : Z) (min_exp min_R2 : float)
      (min_Npts skip : Z) :
  skip <> 0%Z ->
  scan time msd dim min_exp min_R2 min_Npts skip
  = (ws <- mapM (window_fit time msd dim)
                (window_list (length time) min_Npts skip) ;;
     Ok (fold_left (record_best min_R2) ws nan_region,
         fold_left (record_longest min_exp min_R2) ws nan_region)).
Proof.
  intros Hskip. unfold scan, Py.range.
  destruct (Z.eqb_spec skip 0) as [|_]; [contradiction|]. simpl.
  rewrite ScanFacts.scan_sizes_fold by assumption.
  fold (window_list (length time) min_Npts skip).
  rewrite (foldM_ext _
             (fun st p => w <- window_fit time msd dim p ;;
                          Ok (record_both min_exp min_R2 st w))).
  2:{ intros [b l] [npts i]. apply ScanFacts.scan_window_fit. }
  rewrite foldM_split.
  destruct (mapM _ _) as [ws|e]; simpl; [|reflexivity].
  now rewrite ScanFacts.fold_record_both.
Qed.

(** The first and the last time of a fitted window, in the data. *)
Lemma window_fit_ends (time msd : list float) (dim : Z) (npts i : nat)
      (w : fitted) :
  1 <= npts -> i + npts <= length time ->
  window_fit time msd dim (Z.of_nat npts, Z.of_nat i) = Ok w ->
  nth_error time i = Some (r_t_start (f_region w)) /\
  nth_error time (i + npts - 1) = Some (r_t_end (f_region w)).
Proof.
  intros Hn Hl. unfold window_fit. intros Hw.
  apply bind_ok in Hw as ([[[[d se] e] ic] r2] & _ & Hw).
  apply bind_ok in Hw as (t_first & Hf & Hw).
  apply bind_ok in Hw as (t_last & Hla & Hw).
  injection Hw as <-. simpl.
  assert (Hs : slice time (Z.of_nat i) (Z.of_nat i + Z.of_nat npts)
               = firstn npts (skipn i time)).
  { unfold slice, norm_index.
    destruct (Z.ltb_spec (Z.of_nat i) 0); [lia|].
    destruct (Z.ltb_spec (Z.of_nat i + Z.of_nat npts) 0); [lia|].
    rewrite <- Nat2Z.inj_add, !Nat2Z.id, !Nat.min_r by lia.
    f_equal. lia. }
  rewrite Hs in Hf, Hla.
  assert (Hlen : length (firstn npts (skipn i time)) = npts).
  { rewrite length_firstn, length_skipn. lia. }
  apply index_ok in Hf as (j & Hj & Hjz).
  apply index_ok in Hla as (k & Hk & Hkz).
  rewrite Hlen in Hkz. cbn [Z.ltb Z.compare] in Hjz, Hkz.
  assert (j = 0) by lia. assert (k = npts - 1) by lia. subst j k.
  rewrite nth_error_firstn, nth_error_skipn in Hj, Hk.
  destruct (Nat.ltb_spec 0 npts); [|lia].
  destruct (Nat.ltb_spec (npts - 1) npts); [|lia].
  rewrite Nat.add_0_r in Hj.
  replace (i + npts - 1) with (i + (npts - 1)) by lia.
  now split.
Qed.

(** No fit is possible on a window without samples. *)
Lemma window_fit_empty (time msd : list float) (dim : Z) (p : Z * Z)
      (w : fitted) :
  slice time (snd p) (snd p + fst p) = [] ->
  window_fit time msd dim p <> Ok w.
Proof.
  destruct p as [npts i]. cbn [fst snd]. intros He Hw.
  apply window_fit_ok in Hw as (_ & _ & _ & _ & d & se & ic & Hd).
  cbn [fst snd] in Hd.
  apply ScanFacts.diffusivity_ok in Hd as (t0 & _ & _ & _ & _ & Ht0 & _).
  rewrite He in Ht0. discriminate.
Qed.

(** A window of the scan that could be fitted has at least one
    sample. *)
Lemma scanned_fit_positive (time msd : list float) (dim : Z)
      (min_Npts skip npts i : Z) (w : fitted) :
  (0 <= min_Npts)%Z ->
  scanned (length time) (effective_min_Npts min_Npts (length time)) skip
          (npts, i) ->
  window_fit time msd dim (npts, i) = Ok w ->
  (1 <= npts)%Z.
Proof.
  intros Hm (_ & Hn & _ & Hi & _) Hw.
  destruct (Z.le_gt_cases 1 npts) as [|Hle]; [assumption|].
  exfalso. eapply window_fit_empty; [|exact Hw].
  cbn [fst snd]. unfold effective_min_Npts, reset_min_Npts in Hn.
  unfold slice, norm_index.
  destruct (Z.ltb_spec (Z.of_nat (length time)) min_Npts); simpl in Hn.
  - destruct time as [|t0 [|t1 time]];
      [reflexivity | | cbn [length] in *; lia].
    cbn [length] in *.
    assert (npts = 0%Z) by lia. assert (i = 0%Z) by lia. subst.
    reflexivity.
  - assert (npts = 0%Z) by lia. subst.
    rewrite Z.add_0_r.
    destruct (i <? 0)%Z; now rewrite Nat.sub_diag.
Qed.

(** X1.  [find_diffusivity] never fits the last sample: a record it
    returns that is not all NaN holds a window of [npts >= 1]
    consecutive samples that starts at an index [i] with
    [i + npts < len(time)], so the window stops before the last sample
    of the preprocessed data and never spans all of it.  The record
    stores [npts], the time of the first and the time of the last sample
    of that window. *)
Theorem find_diffusivity_stops_before_last_sample
        (time msd : list float) (min_exp : float) (min_Npts skip dim : Z)
        (use_frac : Q) (min_R2 : float)
        (bounds : option float * option float)
        (best longest : region) (warnings : list string) :
  (0 <= min_Npts)%Z ->
  find_diffusivity time msd min_exp min_Npts skip dim use_frac min_R2 bounds
  = Ok (best, longest, warnings) ->
  exists time' msd',
    preprocess time msd use_frac bounds = Ok (time', msd') /\
    forall r, r = best \/ r = longest -> all_nan r = false ->
      exists npts i : nat,
        1 <= npts /\ i + npts < length time' /\
        r_npts r = of_nat npts /\
        nth_error time' i = Some (r_t_start r) /\
        nth_error time' (i + npts - 1) = Some (r_t_end r).
Proof.
  intros Hm Hf.
  apply find_diffusivity_ok in Hf as (time' & msd' & Hpre & Hscan).
  apply scan_fitted in Hscan as (ws & Hin & _ & Hbest & Hlong);
    [|apply effective_min_le].
  exists time', msd'. split; [assumption|].
  assert (Hw : forall w, In w ws ->
             exists npts i : nat,
               1 <= npts /\ i + npts < length time' /\
               r_npts (f_region w) = of_nat npts /\
               nth_error time' i = Some (r_t_start (f_region w)) /\
               nth_error time' (i + npts - 1) = Some (r_t_end (f_region w))).
  { intros w Hw. apply Hin in Hw as ([npts i] & Hsc & Hfit).
    pose proof (scanned_fit_positive _ _ _ Hm Hsc Hfit) as Hpos.
    destruct Hsc as (_ & Hn & _ & Hi & _).
    exists (Z.to_nat npts), (Z.to_nat i).
    split; [lia|]. split; [lia|].
    pose proof (window_fit_ok _ _ _ _ Hfit) as (Hnp & _ & Hsz & _).
    simpl in Hnp. split.
    - rewrite Hsz, Hnp. unfold of_nat. f_equal. lia.
    - apply window_fit_ends with (msd := msd') (dim := dim); [lia|lia|].
      rewrite !Z2Nat.id by lia. exact Hfit. }
  intros r [-> | ->] Hnn.
  - destruct Hbest as [[_ ->] | (w & Hwin & _ & -> & _)]; [discriminate|].
    now apply Hw.
  - destruct Hlong as [[_ ->] | (w & Hwin & _ & -> & _)]; [discriminate|].
    now apply Hw.
Qed.

(** X2.  When the preprocessed data has exactly [min_Npts] samples, no
    window is fitted: [find_diffusivity] returns two all-NaN records and
    no warning, whatever the data is.  (With one sample fewer,
    [min_Npts] is reset and one window is fitted.) *)
Theorem find_diffusivity_exactly_min_Npts_samples
        (time msd : list float) (min_exp : float) (min_Npts skip dim : Z)
        (use_frac : Q) (min_R2 : float)
        (bounds : option float * option float)
        (time' msd' : list float) :
  length msd = length time ->
  preprocess time msd use_frac bounds = Ok (time', msd') ->
  Z.of_nat (length time') = min_Npts ->
  skip <> 0%Z ->
  find_diffusivity time msd min_exp min_Npts skip dim use_frac min_R2 bounds
  = Ok (nan_region, nan_region, []).
Proof.
  intros Hlen Hpre Hm Hskip. unfold find_diffusivity.
  rewrite Hlen, Nat.eqb_refl. simpl. rewrite Hpre. simpl.
  unfold reset_min_Npts. rewrite <- Hm, Z.ltb_irrefl.
  unfold scan, Py.range.
  destruct (Z.eqb_spec skip 0) as [|_]; [contradiction|]. simpl.
  now rewrite range_list_empty.
Qed.

(** X3.  A [skip] that is not positive fits nothing: with [skip = 0]
    the call raises the [ValueError] of [range], and with a negative
    [skip] both loops are empty and the call returns two all-NaN
    records. *)
Theorem find_diffusivity_nonpositive_skip
        (time msd : list float) (min_exp : float) (min_Npts skip dim : Z)
        (use_frac : Q) (min_R2 : float)
        (bounds : option float * option float)
        (time' msd' : list float) :
  length msd = length time ->
  preprocess time msd use_frac bounds = Ok (time', msd') ->
  (skip <= 0)%Z ->
  find_diffusivity time msd min_exp min_Npts skip dim use_frac min_R2 bounds
  = if (skip =? 0)%Z
    then Raise (ValueError "range() arg 3 must not be zero")
    else Ok (nan_region, nan_region,
             snd (reset_min_Npts min_Npts (length time'))).
Proof.
  intros Hlen Hpre Hskip. unfold find_diffusivity.
  rewrite Hlen, Nat.eqb_refl. simpl. rewrite Hpre. simpl.
  pose proof (effective_min_le min_Npts (length time')) as Hle.
  unfold effective_min_Npts in Hle.
  destruct (reset_min_Npts min_Npts (length time')) as [m wn].
  simpl in Hle. simpl.
  unfold scan, Py.range.
  destruct (Z.eqb_spec skip 0) as [|Hne]; [reflexivity|]. simpl.
  now rewrite range_list_backwards by lia.
Qed.

(** X4.  A lower bound that no kept time exceeds is refused: when
    [bounds[0]] is a number and no sample of the truncated data has a
    time above it, [find_diffusivity] raises the [ValueError] of line
    402, whatever the upper bound is. *)
Theorem find_diffusivity_lower_bound_above_data
        (time msd : list float) (min_exp : float) (min_Npts skip dim : Z)
        (use_frac : Q) (min_R2 : float) (lo : float) (hi : option float) :
  length msd = length time ->
  isnan lo = false ->
  Forall (fun t => gtb t lo = false) (fst (truncate time msd use_frac)) ->
  find_diffusivity time msd min_exp min_Npts skip dim use_frac min_R2
                   (Some lo, hi)
  = Raise (ValueError "Provided minimum in time is greater that the time interval provided").
Proof.
  intros Hlen Hlo Hall. unfold find_diffusivity.
  rewrite Hlen, Nat.eqb_refl. simpl.
  unfold preprocess.
  destruct (truncate time msd use_frac) as [time' msd'] eqn:Ht.
  simpl in Hall. simpl. rewrite Hlo. simpl.
  rewrite ClippingFacts.where_all_false; [reflexivity|].
  apply Forall_forall. intros b Hb.
  apply in_map_iff in Hb as (t & <- & Ht').
  rewrite Forall_forall in Hall. now apply Hall.
Qed.

(** X5.  The [best] record does not depend on [min_exp]: when a call
    returns, the call with another [min_exp] and the same other
    arguments returns too, with the same [best] record and the same
    warnings; only [longest] can differ. *)
Theorem find_diffusivity_best_ignores_min_exp
        (time msd : list float) (min_exp min_exp' : float)
        (min_Npts skip dim : Z) (use_frac : Q) (min_R2 : float)
        (bounds : option float * option float)
        (best longest : region) (warnings : list string) :
  find_diffusivity time msd min_exp min_Npts skip dim use_frac min_R2 bounds
  = Ok (best, longest, warnings) ->
  exists longest',
    find_diffusivity time msd min_exp' min_Npts skip dim use_frac min_R2
                     bounds
    = Ok (best, longest', warnings).
Proof.
  unfold find_diffusivity.
  destruct (negb (length msd =? length time)); [discriminate|].
  destruct (preprocess time msd use_frac bounds) as [[time' msd']|e];
    simpl; [|discriminate].
  destruct (reset_min_Npts min_Npts (length time')) as [m wn].
  intros Hf. apply bind_ok in Hf as ([b l] & Hs & Hf).
  injection Hf as <- <- <-.
  pose proof (ScanFacts.scan_ok _ _ _ _ _ _ _ Hs) as (Hskip & _).
  rewrite scan_eq in Hs by assumption.
  rewrite scan_eq by assumption.
  destruct (mapM _ _) as [ws|e]; simpl in *; [|discriminate].
  injection Hs as <- _.
  eexists. reflexivity.
Qed.

End WithExtern.
End ScanRange.

Module ScanRangeExamples.

Import Np Msd Examples ScanRange.
#[local] Existing Instance Reference.extern.

Lemma find_diffusivity_stops_before_last_sample_witness :
  exists time' msd',
    preprocess sqrt_time sqrt_msd 1 (None, None) = Ok (time', msd') /\
    forall r, r = sqrt_best \/ r = sqrt_longest ->
              all_nan r = false ->
              exists npts i : nat,
                1 <= npts /\ i + npts < length time' /\
                r_npts r = of_nat npts /\
                nth_error time' i = Some (r_t_start r) /\
                nth_error time' (i + npts - 1) = Some (r_t_end r).
Proof.
  apply (@find_diffusivity_stops_before_last_sample
           Reference.extern sqrt_time sqrt_msd default_min_exp 3 1 3 1
           default_min_R2 (None, None) sqrt_best sqrt_longest []).
  - lia.
  - vm_compute. reflexivity.
Defined.

Lemma find_diffusivity_exactly_min_Npts_samples_witness :
  find_diffusivity line line default_min_exp 5 1 3 1 default_min_R2
                   (None, None)
  = Ok (nan_region, nan_region, []).
Proof.
  apply (@find_diffusivity_exactly_min_Npts_samples
           Reference.extern line line default_min_exp 5 1 3 1
           default_min_R2 (None, None) line line).
  - reflexivity.
  - vm_compute. reflexivity.
  - reflexivity.
  - discriminate.
Defined.

Lemma find_diffusivity_nonpositive_skip_witness :
  find_diffusivity line line default_min_exp 3 0 3 1 default_min_R2
                   (None, None)
  = if (0 =? 0)%Z
    then Raise (ValueError "range() arg 3 must not be zero")
    else Ok (nan_region, nan_region,
             snd (reset_min_Npts 3 (length line))).
Proof.
  apply (@find_diffusivity_nonpositive_skip
           Reference.extern line line default_min_exp 3 0 3 1
           default_min_R2 (None, None) line line).
  - reflexivity.
  - vm_compute. reflexivity.
  - lia.
Defined.

Lemma find_diffusivity_lower_bound_above_data_witness :
  find_diffusivity line line default_min_exp 3 1 3 1 default_min_R2
                   (Some (of_Z 10), None)
  = Raise (ValueError "Provided minimum in time is greater that the time interval provided").
Proof.
  apply (@find_diffusivity_lower_bound_above_data
           Reference.extern line line default_min_exp 3 1 3 1
           default_min_R2 (of_Z 10) None).
  - reflexivity.
  - reflexivity.
  - vm_compute. repeat constructor.
Defined.

Lemma find_diffusivity_best_ignores_min_exp_witness :
  exists longest',
    find_diffusivity sqrt_time sqrt_msd (of_Z 2) 3 1 3 1 default_min_R2
                     (None, None)
    = Ok (sqrt_best, longest', []).
Proof.
  apply (@find_diffusivity_best_ignores_min_exp
           Reference.extern sqrt_time sqrt_msd default_min_exp (of_Z 2)
           3 1 3 1 default_min_R2 (None, None) sqrt_best sqrt_longest []).
  vm_compute. reflexivity.
Defined.

End ScanRangeExamples.

(* ================================================================== *)
(** ** msd: when it returns, and what it does not depend on            *)
(* ================================================================== *)

Module AutocorrelationShape.
Section WithScalar.

Context {A : Type} `{Scalar A}.
Import DataManipulation PyFacts.

Lemma divide_length (Cx nrm : list A) :
  length nrm = length Cx -> length (divide Cx nrm) = length Cx.
Proof.
  intros Hl. unfold divide. rewrite length_map, length_combine. lia.
Qed.

Lemma norm_length (lx : nat) : length (norm lx) = lx.
Proof. unfold norm. now rewrite length_map, length_seq. Qed.

(** The default mode returns one value per sample of a non-empty
    input. *)
Lemma autocorrelation_fft_length (x : list A) :
  x <> [] ->
  exists Cx, autocorrelation x "fft" = Ok Cx /\ length Cx = length x.
Proof.
  intros Hx. unfold autocorrelation.
  change (String.eqb "fft" "fft") with true. cbv iota.
  assert (Hl : 0 < length x) by (destruct x; [contradiction | simpl; lia]).
  unfold fft. destruct (Nat.ltb_spec (2 * length x) 1) as [|_]; [lia|].
  cbn [Py.bind]. unfold ifft.
  rewrite !length_map, length_seq.
  destruct (Nat.ltb_spec (2 * length x) 1) as [|_]; [lia|].
  cbn [Py.bind]. eexists. split; [reflexivity|].
  rewrite divide_length; rewrite length_map, length_firstn, length_map,
    length_seq; [lia|].
  rewrite norm_length. lia.
Qed.

End WithScalar.
End AutocorrelationShape.

Module MsdShape.
Section WithExtern.

Context `{Extern}.
Import Np NpFacts PyFacts Special DataManipulation Msd Trajectories.
#[local] Existing Instance float_scalar.

Lemma vadd_length (a b : list float) :
  length b = length a -> length (vadd a b) = length a.
Proof.
  intros Hl. unfold vadd. rewrite length_map, length_combine. lia.
Qed.

Lemma sab_loop_ok (npts : nat) (particle : list (list float))
      (l : list nat) (Sab : list float) :
  0 < npts -> length particle = npts -> length Sab = npts ->
  exists Sab',
    foldM (fun Sab dim =>
             c <- autocorrelation (map (fun row => nth dim row zero) particle)
                                  "fft" ;;
             Ok (vadd Sab c))
          l Sab
    = Ok Sab' /\ length Sab' = npts.
Proof.
  intros Hn Hp. revert Sab.
  induction l as [|dim l IH]; intros Sab HS; [now exists Sab|].
  cbn [foldM].
  destruct (@AutocorrelationShape.autocorrelation_fft_length _ _
              (map (fun row => nth dim row zero) particle))
    as (c & Hc & Hlc).
  { destruct particle; [simpl in Hp; lia | discriminate]. }
  rewrite Hc. cbn [Py.bind]. apply IH.
  rewrite vadd_length; [assumption|].
  rewrite Hlc, length_map. congruence.
Qed.

Lemma set_item_keeps_length {A} (l : list A) (i : nat) (v : A) :
  length (set_item l i v) = length l.
Proof.
  revert i; induction l as [|a l IH]; intros [|i]; simpl; auto.
Qed.

Lemma index_in_range {A} (l : list A) (i : Z) :
  (- Z.of_nat (length l) <= i < Z.of_nat (length l))%Z ->
  exists a, Py.index l i = Ok a.
Proof.
  intros Hi. unfold Py.index.
  set (j := if (i <? 0)%Z then (Z.of_nat (length l) + i)%Z else i).
  assert (Hj : (0 <= j < Z.of_nat (length l))%Z)
    by (subst j; destruct (Z.ltb_spec i 0); lia).
  destruct (Z.ltb_spec j 0); [lia|].
  destruct (nth_error l (Z.to_nat j)) as [a|] eqn:Hn; [now exists a|].
  apply nth_error_None in Hn. lia.
Qed.

Lemma lag_loop_ok (npts : nat) (DSQ_i Sab : list float) (l : list nat)
      (st : float * list float) :
  length DSQ_i = S npts -> length Sab = npts ->
  Forall (fun t => t < npts) l ->
  exists st',
    foldM (lag_step npts DSQ_i Sab) l st = Ok st' /\
    length (snd st') = length (snd st).
Proof.
  intros HD HS Hl. revert st.
  induction Hl as [|t l Ht _ IH]; intros st; [now exists st|].
  cbn [foldM]. unfold lag_step at 1. destruct st as [s row].
  destruct (@index_in_range _ DSQ_i (Z.of_nat t - 1)) as (a & ->); [lia|].
  destruct (@index_in_range _ DSQ_i (Z.of_nat npts - Z.of_nat t))
    as (b & ->); [lia|].
  destruct (@index_in_range _ Sab (Z.of_nat t)) as (c & ->); [lia|].
  cbn [Py.bind].
  destruct (IH (sub s (add a b),
                set_item row t
                         (sub (div (sub s (add a b)) (of_nat (npts - t)))
                              (mul (of_Z 2) c))))
    as (st' & Hst & Hlen).
  exists st'. split; [assumption|].
  rewrite Hlen. cbn [snd]. apply set_item_keeps_length.
Qed.

Lemma particle_row_ok (npts dims : nat) (particle : list (list float)) :
  0 < npts -> length particle = npts ->
  exists row, particle_row npts dims particle = Ok row /\ length row = npts.
Proof.
  intros Hn Hp. unfold particle_row, sab.
  destruct (@sab_loop_ok npts particle (seq 0 dims) (repeat zero npts)
              Hn Hp (repeat_length zero npts))
    as (Sab & -> & HS).
  cbn [Py.bind].
  destruct (@lag_loop_ok npts (dsq_row particle) Sab (seq 0 npts)
              (mul (of_Z 2) (Np.sum (dsq_row particle)), repeat zero npts))
    as (st & -> & Hlen).
  - unfold dsq_row. rewrite length_app, length_map. simpl. lia.
  - assumption.
  - apply Forall_forall. intros t Ht. now apply in_seq in Ht.
  - cbn [Py.bind]. exists (snd st). split; [reflexivity|].
    rewrite Hlen. cbn [snd]. apply repeat_length.
Qed.

Lemma recenter_ok (particle : list (list float)) :
  particle <> [] ->
  exists p', recenter particle = Ok p' /\ length p' = length particle.
Proof.
  intros Hp. unfold recenter.
  destruct particle as [|first rest]; [contradiction|].
  rewrite index_0_cons. cbn [Py.bind].
  eexists. split; [reflexivity|]. now rewrite length_map.
Qed.

Lemma mapM_ok {A B} (f : A -> result B) (P : A -> Prop) (Q : B -> Prop)
      (l : list A) :
  (forall a, P a -> exists b, f a = Ok b /\ Q b) ->
  Forall P l ->
  exists bs, mapM f l = Ok bs /\ Forall Q bs /\ length bs = length l.
Proof.
  intros Hf. induction 1 as [|a l Ha _ (bs & Hbs & HQ & Hlen)].
  - exists []. repeat split. constructor.
  - destruct (Hf a Ha) as (b & Hb & Hqb).
    exists (b :: bs). cbn [mapM]. rewrite Hb, Hbs. cbn [Py.bind].
    repeat split; [now constructor | simpl; congruence].
Qed.

(** X6.  On an array of at least one particle and at least one time
    step, [msd] returns: none of its indexings goes out of range and the
    transforms are never empty.  The curve it returns has one value per
    time step, and the second value is a single number for more than one
    particle and an array of [npts] NaN for one. *)
Theorem msd_returns_one_value_per_time_step
        (coords : list (list (list float))) (npts dims : nat) :
  coords <> [] -> 0 < npts -> rectangular npts dims coords ->
  exists curve,
    msd (Arr3 coords)
    = Ok (curve,
          if 1 <? length coords
          then Scalar0 (div (Np.mean curve) (sqrt (of_nat (length coords))))
          else Array1 (repeat NaN npts)) /\
    length curve = npts.
Proof.
  intros Hne Hn Hrect. unfold rectangular in Hrect.
  assert (Hnpts : length (hd [] coords) = npts).
  { destruct coords as [|p ps]; [contradiction|].
    now apply Forall_inv in Hrect as [Hp _]. }
  destruct (@mapM_ok _ _ recenter
              (fun p => length p = npts /\
                        Forall (fun row => length row = dims) p)
              (fun p' => length p' = npts) coords)
    as (coords' & Hc & Hlen' & _); [|assumption|].
  { intros p [Hp _].
    destruct (@recenter_ok p) as (p' & Hp' & Hl');
      [destruct p; [simpl in Hp; lia | discriminate]|].
    exists p'. split; [assumption | congruence]. }
  destruct (@mapM_ok _ _ (particle_row npts (length (hd [] (hd [] coords))))
              (fun p' => length p' = npts)
              (fun row => length row = npts) coords')
    as (rows & Hr & _ & _); [|assumption|].
  { intros p' Hp'. now apply particle_row_ok. }
  unfold msd.
  destruct (msd3 coords) as [[curve se]|e] eqn:Hm.
  - pose proof (MsdFacts.msd3_stderror _ Hm) as Hse.
    rewrite Hnpts in Hse. subst se.
    unfold msd3 in Hm. rewrite Hc in Hm. cbn [Py.bind] in Hm.
    rewrite Hnpts, Hr in Hm. cbn [Py.bind] in Hm.
    injection Hm as Hcurve _.
    exists curve. split; [reflexivity|].
    rewrite <- Hcurve. unfold mean_axis0.
    now rewrite length_map, length_seq.
  - exfalso. unfold msd3 in Hm. rewrite Hc in Hm. cbn [Py.bind] in Hm.
    rewrite Hnpts, Hr in Hm. discriminate.
Qed.

(** Moving every position by the same finite vector does not change
    the displacements from the first position. *)
Lemma sub_add_cancel (a b s : float) :
  isfinite a = true -> isfinite b = true -> isfinite s = true ->
  sub (add a s) (add b s) = sub a b.
Proof.
  destruct a as [| |a|], b as [| |b|], s as [| |s|]; try discriminate.
  intros _ _ _. cbn [add sub]. f_equal. apply Qred_complete.
  rewrite !Qred_correct. ring.
Qed.

Lemma vsub_vadd_cancel (row first shift : list float) :
  length row = length shift -> length first = length shift ->
  Forall (fun c => isfinite c = true) row ->
  Forall (fun c => isfinite c = true) first ->
  Forall (fun c => isfinite c = true) shift ->
  vsub (vadd row shift) (vadd first shift) = vsub row first.
Proof.
  unfold vsub, vadd. revert row first.
  induction shift as [|s shift IH]; intros [|a row] [|b first];
    try discriminate; try reflexivity.
  intros [= Hr] [= Hf] Ha Hb Hs.
  apply Forall_cons_iff in Ha as [Ha Hrow].
  apply Forall_cons_iff in Hb as [Hb Hfirst].
  apply Forall_cons_iff in Hs as [Hs Hshift].
  simpl. rewrite sub_add_cancel by assumption.
  f_equal. now apply IH.
Qed.

Lemma recenter_translate (shift : list float) (particle : list (list float)) :
  Forall (fun row => length row = length shift) particle ->
  Forall (Forall (fun c => isfinite c = true)) particle ->
  Forall (fun c => isfinite c = true) shift ->
  recenter (translate shift particle) = recenter particle.
Proof.
  intros Hlen Hfin Hs. unfold recenter, translate.
  destruct particle as [|first rest]; [reflexivity|].
  set (p := first :: rest) in *.
  replace (Py.index (map (fun row => vadd row shift) p) 0)
    with (Ok (vadd first shift)) by reflexivity.
  replace (Py.index p 0) with (Ok first) by reflexivity.
  cbn [Py.bind]. f_equal. rewrite map_map.
  apply map_ext_in. intros row Hrow.
  rewrite Forall_forall in Hlen, Hfin.
  apply vsub_vadd_cancel; auto; apply Hlen || apply Hfin; now left.
Qed.

Lemma vadd_length_eq (a b : list float) :
  length a = length b -> length (vadd a b) = length a.
Proof. intros Hl. apply vadd_length. congruence. Qed.

(** X7.  [msd] does not depend on where the particles are, only on how
    they move: translating the whole trajectory of every particle by a
    finite vector of its own leaves both returned values unchanged (in
    exact arithmetic).  This is the effect of line 488, which subtracts
    the first position of a particle from all its positions. *)
Theorem msd_translation_invariant
        (coords : list (list (list float))) (shifts : list (list float))
        (npts dims : nat) :
  rectangular npts dims coords ->
  finite_array coords ->
  length shifts = length coords ->
  Forall (fun shift => length shift = dims /\
                       Forall (fun c => isfinite c = true) shift) shifts ->
  msd (Arr3 (translate_each shifts coords)) = msd (Arr3 coords).
Proof.
  intros Hrect Hfin Hlen Hshifts. unfold msd, msd3.
  assert (Hre : mapM recenter (translate_each shifts coords)
                = mapM recenter coords).
  { unfold translate_each. revert shifts Hlen Hshifts.
    induction coords as [|p ps IH]; intros [|s ss]; try discriminate;
      [reflexivity|].
    intros [= Hlen] Hss. cbn [combine map mapM fst snd].
    apply Forall_cons_iff in Hrect as [[_ Hp] Hrect].
    apply Forall_cons_iff in Hfin as [Hfp Hfin].
    apply Forall_cons_iff in Hss as [[Hs Hsf] Hss].
    rewrite recenter_translate; [| |assumption..].
    - now rewrite IH.
    - eapply Forall_impl; [|exact Hp]. simpl. congruence. }
  rewrite Hre.
  assert (Hn : length (translate_each shifts coords) = length coords).
  { unfold translate_each. rewrite length_map, length_combine. lia. }
  assert (Hp : length (hd [] (translate_each shifts coords))
               = length (hd [] coords)).
  { unfold translate_each.
    destruct coords as [|p ps], shifts as [|s ss]; try discriminate;
      [reflexivity|].
    cbn [combine map hd fst snd]. unfold translate. now rewrite length_map. }
  assert (Hd : length (hd [] (hd [] (translate_each shifts coords)))
               = length (hd [] (hd [] coords))).
  { unfold translate_each.
    destruct coords as [|p ps], shifts as [|s ss]; try discriminate;
      [reflexivity|].
    cbn [combine map hd fst snd]. unfold translate.
    destruct p as [|row p]; [reflexivity|]. cbn [map hd].
    apply Forall_inv in Hrect as [_ Hrow]. apply Forall_inv in Hrow.
    apply Forall_inv in Hshifts as [Hs _].
    apply vadd_length_eq. congruence. }
  now rewrite Hn, Hp, Hd.
Qed.

End WithExtern.
End MsdShape.

Module MsdShapeExamples.

Import Np Msd Trajectories MsdShape.
#[local] Existing Instance Reference.extern.

Lemma msd_returns_one_value_per_time_step_witness :
  exists curve,
    msd (Arr3 [[[of_Z 0]; [of_Z 1]]; [[of_Z 0]; [of_Z 2]]])
    = Ok (curve,
          if 1 <? length [[[of_Z 0]; [of_Z 1]]; [[of_Z 0]; [of_Z 2]]]
          then Scalar0
                 (div (Np.mean curve)
                      (Special.sqrt
                         (of_nat
                            (length [[[of_Z 0]; [of_Z 1]];
                                     [[of_Z 0]; [of_Z 2]]]))))
          else Array1 (repeat NaN 2)) /\
    length curve = 2.
Proof.
  apply (@msd_returns_one_value_per_time_step
           Reference.extern
           [[[of_Z 0]; [of_Z 1]]; [[of_Z 0]; [of_Z 2]]] 2 1).
  - discriminate.
  - lia.
  - repeat constructor.
Defined.

Lemma msd_translation_invariant_witness :
  msd (Arr3 (translate_each [[of_Z 5]; [of_Z 7]]
                            [[[of_Z 0]; [of_Z 1]]; [[of_Z 0]; [of_Z 2]]]))
  = msd (Arr3 [[[of_Z 0]; [of_Z 1]]; [[of_Z 0]; [of_Z 2]]]).
Proof.
  apply (@msd_translation_invariant
           Reference.extern
           [[[of_Z 0]; [of_Z 1]]; [[of_Z 0]; [of_Z 2]]]
           [[of_Z 5]; [of_Z 7]] 2 1).
  - repeat constructor.
  - repeat constructor.
  - reflexivity.
  - repeat constructor.
Defined.

End MsdShapeExamples.

(* ================================================================== *)
(** ** debye_waller: the samples it uses                               *)
(* ================================================================== *)

Module CagingInput.
Section WithExtern.

Context `{Extern}.
Import Np NpFacts PyFacts Special Msd.

(** With [use_frac = 1] every sample is kept. *)
Lemma truncate_all (time msd : list float) :
  length msd = length time -> truncate time msd 1 = (time, msd).
Proof.
  intros Hlen. unfold truncate.
  assert (Hn : Py.int (inject_Z (Z.of_nat (length time)) * 1)
               = Z.of_nat (length time)).
  { unfold Py.int. simpl. rewrite Z.mul_1_r. apply Z.quot_1_r. }
  rewrite Hn. unfold slice_to, norm_index.
  destruct (Z.ltb_spec (Z.of_nat (length time)) 0); [lia|].
  rewrite Hlen, Nat2Z.id, Nat.min_id, firstn_all.
  rewrite <- Hlen at 1. now rewrite firstn_all.
Qed.

Lemma log10_negative (m : float) : ltb m zero = true -> isnan (log10 m) = true.
Proof.
  destruct m as [| |q|]; try discriminate; try reflexivity.
  unfold ltb, zero. intros Hq. unfold log10. now rewrite Hq.
Qed.

Lemma Forall_slice_to {A} (P : A -> Prop) (l : list A) (n : Z) :
  Forall P l -> Forall P (slice_to l n).
Proof.
  intros Hl. unfold slice_to.
  rewrite <- (firstn_skipn (norm_index (length l) n) l) in Hl.
  now apply Forall_app in Hl.
Qed.

Lemma all_isnan (l : list float) :
  Forall (fun v => isnan v = true) l -> Np.all (map isnan l) = true.
Proof.
  induction 1 as [|v l Hv _ IH]; [reflexivity|].
  unfold Np.all in *. simpl. now rewrite Hv.
Qed.

(** X8.  An MSD curve without a positive value has no logarithm to
    fit: when at least one sample is kept and every [msd] value is
    negative, [debye_waller] called without smoothing raises the
    [ValueError] of line 255, before any spline is built. *)
Theorem debye_waller_negative_msd
        (time msd : list float) (use_frac : Q) :
  length msd = length time ->
  fst (truncate time msd use_frac) <> [] ->
  Forall (fun m => ltb m zero = true) msd ->
  debye_waller time msd use_frac None
  = Raise (ValueError "Spline could not be created with provided data").
Proof.
  intros Hlen Hne Hneg. unfold debye_waller.
  rewrite Hlen, Nat.eqb_refl. cbn [negb].
  unfold truncate in *. cbn [fst] in Hne.
  set (n := Py.int (inject_Z (Z.of_nat (length time)) * use_frac)) in *.
  assert (Hm : Forall (fun v => isnan v = true) (map log10 (slice_to msd n))).
  { apply Forall_forall. intros v Hv.
    apply in_map_iff in Hv as (m & <- & Hm).
    apply log10_negative.
    apply (Forall_slice_to n) in Hneg.
    rewrite Forall_forall in Hneg. now apply Hneg. }
  assert (Hl : length (slice_to msd n) = length (slice_to time n)).
  { unfold slice_to. now rewrite !length_firstn, Hlen. }
  destruct (slice_to time n) as [|t0 time'] eqn:Ht; [contradiction|].
  destruct (slice_to msd n) as [|m0 msd'] eqn:Hmsd; [discriminate|].
  rewrite !map_cons in *. rewrite !index_0_cons. cbn [Py.bind].
  apply Forall_cons_iff in Hm as [Hm0 Hm].
  rewrite Hm0. cbn [orb].
  rewrite !DiffusivityFacts.slice_from_1. cbn [skipn].
  now rewrite all_isnan.
Qed.

(** X9.  A first sample at time zero has no influence on the result:
    log10(0) is infinite, so lines 248-250 drop the sample, and with
    every sample kept ([use_frac = 1]) the call returns what it returns
    on the data without that sample.  The second sample is one that
    lines 248-250 keep: the logarithm of its time is not infinite and
    the logarithm of its [msd] is not NaN, as for a positive time and a
    positive [msd]. *)
Theorem debye_waller_drops_sample_at_time_zero
        (t1 m0 m1 : float) (time msd : list float)
        (sigma_spline : option float) :
  length msd = length time ->
  isinf (log10 t1) = false ->
  isnan (log10 m1) = false ->
  debye_waller (zero :: t1 :: time) (m0 :: m1 :: msd) 1 sigma_spline
  = debye_waller (t1 :: time) (m1 :: msd) 1 sigma_spline.
Proof.
  intros Hlen Ht1 Hm1. unfold debye_waller.
  cbn [length]. rewrite Hlen, !Nat.eqb_refl. cbn [negb].
  rewrite !truncate_all by (cbn [length]; congruence).
  rewrite !map_cons, !index_0_cons. cbn [Py.bind].
  rewrite Ht1, Hm1. cbn [orb].
  replace (isinf (log10 zero)) with true by reflexivity.
  rewrite orb_true_r.
  rewrite !DiffusivityFacts.slice_from_1. cbn [skipn].
  reflexivity.
Qed.

End WithExtern.
End CagingInput.

(* ================================================================== *)
(** ** pull_extrema: what it returns                                   *)
(* ================================================================== *)

Module ExtremaPartition.
Section WithExtern.

Context `{Extern}.
Import Np NpFacts PyFacts FitData.

Lemma combine_map_filter {A B} (f : A -> B) (p : B -> bool) (l : list A) :
  map fst (filter (fun q => p (snd q)) (combine l (map f l)))
  = filter (fun a => p (f a)) l.
Proof.
  induction l as [|a l IH]; [reflexivity|].
  cbn [map combine filter snd]. destruct (p (f a)); cbn [map fst];
    now rewrite IH.
Qed.

Lemma filter_partition_length {A} (p : A -> bool) (l : list A) :
  length (filter p l) + length (filter (fun a => negb (p a)) l) = length l.
Proof.
  induction l as [|a l IH]; [reflexivity|].
  cbn [filter]. destruct (p a); cbn [negb length]; lia.
Qed.

(** What [pull_extrema] went through when it returned. *)
Lemma pull_extrema_ok
      (xarray yarray : list float) (smooth_sigma : option float)
      (error_length : Z) (extrema_cutoff : float)
      (r : (list float * list float) * (list float * list float)
           * (list float * list float)) :
  pull_extrema xarray yarray smooth_sigma error_length extrema_cutoff = Ok r ->
  exists sp sp5 : spline,
    InterpolatedUnivariateSpline
      xarray
      (match smooth_sigma with
       | Some sigma => gaussian_filter1d yarray sigma
       | None => yarray
       end) 4 = Ok sp /\
    InterpolatedUnivariateSpline
      xarray
      (match smooth_sigma with
       | Some sigma => gaussian_filter1d yarray sigma
       | None => yarray
       end) 5 = Ok sp5 /\
    let extrema := filter (fun x => gtb (abs (call sp x)) extrema_cutoff)
                          (roots (derivative sp)) in
    let concavity := map (call (derivative (derivative sp))) extrema in
    (Z.of_nat (length extrema) <= error_length)%Z /\
    r = (transpose
           (map (fun p => (fst p, call sp (fst p)))
                (filter (fun p => gtb (snd p) zero)
                        (combine extrema concavity))),
         transpose
           (map (fun p => (fst p, call sp (fst p)))
                (filter (fun p => negb (gtb (snd p) zero))
                        (combine extrema concavity))),
         transpose
           (map (fun r => (r, call sp r))
                (filter (fun x => gtb (abs (call sp x)) extrema_cutoff)
                        (roots (derivative (derivative sp5)))))).
Proof.
  unfold pull_extrema. intros Hp.
  apply bind_ok in Hp as (sp & Hsp & Hp).
  destruct (Z.ltb_spec error_length
              (Z.of_nat (length (filter (fun x => gtb (abs (call sp x))
                                                      extrema_cutoff)
                                        (roots (derivative sp))))));
    [discriminate|].
  apply bind_ok in Hp as (sp5 & Hsp5 & Hp).
  exists sp, sp5. split; [assumption|]. split; [assumption|].
  cbv zeta. split; [assumption|]. congruence.
Qed.

(** X10.  When [pull_extrema] returns, it has classified every retained
    critical point exactly once.  The retained points are the roots of
    the derivative of the quartic spline at which the spline exceeds
    [extrema_cutoff] in magnitude, and there are at most [error_length]
    of them.  The minima are those among them at which the second
    derivative is positive, the maxima all the others (a point where the
    second derivative is zero or NaN is reported as a maximum), both in
    the order of the roots; the values reported are the values of the
    quartic spline, also for the inflection points, which are roots of
    the second derivative of a quintic spline. *)
Theorem pull_extrema_classifies_every_critical_point
        (xarray yarray : list float) (smooth_sigma : option float)
        (error_length : Z) (extrema_cutoff : float)
        (minima maxima inflections : list float * list float) :
  pull_extrema xarray yarray smooth_sigma error_length extrema_cutoff
  = Ok (minima, maxima, inflections) ->
  let ys := match smooth_sigma with
            | Some sigma => gaussian_filter1d yarray sigma
            | None => yarray
            end in
  exists sp sp5 : spline,
    InterpolatedUnivariateSpline xarray ys 4 = Ok sp /\
    InterpolatedUnivariateSpline xarray ys 5 = Ok sp5 /\
    let retained r := gtb (abs (call sp r)) extrema_cutoff in
    let convex r := gtb (call (derivative (derivative sp)) r) zero in
    let extrema := filter retained (roots (derivative sp)) in
    (Z.of_nat (length extrema) <= error_length)%Z /\
    fst minima = filter convex extrema /\
    fst maxima = filter (fun r => negb (convex r)) extrema /\
    length (fst minima) + length (fst maxima) = length extrema /\
    fst inflections
    = filter retained (roots (derivative (derivative sp5))) /\
    snd minima = map (call sp) (fst minima) /\
    snd maxima = map (call sp) (fst maxima) /\
    snd inflections = map (call sp) (fst inflections).
Proof.
  intros Hp ys.
  apply pull_extrema_ok in Hp as (sp & sp5 & Hsp & Hsp5 & Hp).
  cbv zeta in Hp. destruct Hp as (Hlen & Hr).
  exists sp, sp5. split; [assumption|]. split; [assumption|].
  cbv zeta.
  set (retained := fun r => gtb (abs (call sp r)) extrema_cutoff) in *.
  set (extrema := filter retained (roots (derivative sp))) in *.
  set (conc := call (derivative (derivative sp))) in *.
  set (g := fun p : float * float => (fst p, call sp (fst p))) in *.
  assert (Hx : forall (p : float -> bool),
             map fst (map g (filter (fun q => p (snd q))
                                    (combine extrema (map conc extrema))))
             = filter (fun r => p (conc r)) extrema).
  { intros p. rewrite map_map. apply (combine_map_filter conc p). }
  assert (Hy : forall (l : list (float * float)),
             map snd (map g l) = map (call sp) (map fst (map g l))).
  { intros l. now rewrite !map_map. }
  assert (Hmi : minima
                = transpose (map g (filter (fun q => gtb (snd q) zero)
                                     (combine extrema (map conc extrema)))))
    by congruence.
  assert (Hma : maxima
                = transpose
                    (map g (filter (fun q => negb (gtb (snd q) zero))
                                   (combine extrema (map conc extrema)))))
    by congruence.
  assert (Hin : inflections
                = transpose
                    (map (fun r => (r, call sp r))
                         (filter retained
                                 (roots (derivative (derivative sp5))))))
    by congruence.
  clear Hr. subst minima maxima inflections.
  unfold transpose. cbn [fst snd].
  rewrite !Hy.
  rewrite (Hx (fun v => gtb v zero)), (Hx (fun v => negb (gtb v zero))).
  split; [assumption|]. split; [reflexivity|]. split; [reflexivity|].
  split; [apply filter_partition_length|].
  rewrite !map_map. cbn [fst snd]. rewrite map_id.
  repeat split; reflexivity.
Qed.

End WithExtern.
End ExtremaPartition.

Module CagingInputExamples.

Import Np Msd CagingInput.
#[local] Existing Instance Reference.extern.

Lemma debye_waller_negative_msd_witness :
  debye_waller (map of_Z [1; 2]%Z) (map of_Z [-1; -2]%Z) 1 None
  = Raise (ValueError "Spline could not be created with provided data").
Proof.
  apply (@debye_waller_negative_msd
           Reference.extern (map of_Z [1; 2]%Z) (map of_Z [-1; -2]%Z) 1).
  - reflexivity.
  - vm_compute. discriminate.
  - repeat constructor.
Defined.

Lemma debye_waller_drops_sample_at_time_zero_witness :
  debye_waller (zero :: of_Z 1 :: [of_Z 2]) (of_Z 7 :: of_Z 1 :: [of_Z 4])
               1 None
  = debye_waller (of_Z 1 :: [of_Z 2]) (of_Z 1 :: [of_Z 4]) 1 None.
Proof.
  apply (@debye_waller_drops_sample_at_time_zero
           Reference.extern (of_Z 1) (of_Z 7) (of_Z 1) [of_Z 2] [of_Z 4]
           None).
  - reflexivity.
  - vm_compute. reflexivity.
  - vm_compute. reflexivity.
Defined.

End CagingInputExamples.

Module ExtremaPartitionExamples.

Import Np FitData MoreExamples ExtremaPartition.

Lemma pull_extrema_classifies_every_critical_point_witness :
  exists sp sp5 : @spline PolynomialSplines.extern,
    @InterpolatedUnivariateSpline PolynomialSplines.extern six_x six_y 4
    = Ok sp /\
    @InterpolatedUnivariateSpline PolynomialSplines.extern six_x six_y 5
    = Ok sp5 /\
    let retained := fun r : float => gtb (Np.abs (call sp r)) zero in
    let convex :=
      fun r : float => gtb (call (derivative (derivative sp)) r) zero in
    let extrema := filter retained (roots (derivative sp)) in
    (Z.of_nat (length extrema) <= 25)%Z /\
    fst (fst (fst six_extrema)) = filter convex extrema /\
    fst (snd (fst six_extrema))
    = filter (fun r : float => negb (convex r)) extrema /\
    length (fst (fst (fst six_extrema)))
    + length (fst (snd (fst six_extrema)))
    = length extrema /\
    fst (snd six_extrema)
    = filter retained (roots (derivative (derivative sp5))) /\
    snd (fst (fst six_extrema))
    = map (call sp) (fst (fst (fst six_extrema))) /\
    snd (snd (fst six_extrema))
    = map (call sp) (fst (snd (fst six_extrema))) /\
    snd (snd six_extrema) = map (call sp) (fst (snd six_extrema)).
Proof.
  apply (@pull_extrema_classifies_every_critical_point
           PolynomialSplines.extern six_x six_y None 25 zero
           (fst (fst six_extrema)) (snd (fst six_extrema))
           (snd six_extrema)).
  vm_compute. reflexivity.
Defined.

End ExtremaPartitionExamples.

(* ================================================================== *)
(** ** remove_duplicate_pairs                                          *)
(* ================================================================== *)

Module PairsFacts.
Section WithEq.

Variable V : Type.
Variable eqb : V -> V -> bool.

Import Pairs Sequences PyFacts.

(** The loop only ever appends the entry it looks at. *)
Lemma keep_cases (acc acc' : list (list V)) (e : list V) :
  keep_if_new eqb acc e = Ok acc' ->
  acc' = acc \/
  (acc' = acc ++ [e] /\ keep_if_new eqb acc e = Ok (acc ++ [e])).
Proof.
  unfold keep_if_new. intros Hk.
  destruct (Py.index e 0) as [a|]; [|discriminate]. cbn [Py.bind] in *.
  destruct (mapM _ acc) as [firsts|]; [|discriminate]. cbn [Py.bind] in *.
  destruct (negb (member eqb a firsts)).
  - right. injection Hk as <-. now split.
  - destruct (Py.index e 1) as [b|]; [|discriminate]. cbn [Py.bind] in *.
    destruct (seconds_with_first eqb a acc) as [seconds|]; [|discriminate].
    cbn [Py.bind] in *.
    destruct (negb (member eqb b seconds)); injection Hk as <-.
    + right. now split.
    + now left.
Qed.

(** The loop run on what it has built so far builds it again. *)
Lemma foldM_fixpoint (array acc r : list (list V)) :
  foldM (keep_if_new eqb) acc [] = Ok acc ->
  foldM (keep_if_new eqb) array acc = Ok r ->
  foldM (keep_if_new eqb) r [] = Ok r /\ exists ext, r = acc ++ ext.
Proof.
  revert acc. induction array as [|e array IH]; intros acc Hacc Hf.
  - injection Hf as <-. split; [assumption|]. exists []. now rewrite app_nil_r.
  - cbn [foldM] in Hf. apply bind_ok in Hf as (acc' & Hk & Hf).
    apply keep_cases in Hk as [-> | [-> Hk]].
    + now apply IH.
    + apply IH in Hf as (Hr & ext & ->).
      * split; [assumption|]. exists (e :: ext). now rewrite <- app_assoc.
      * rewrite foldM_app, Hacc. cbn [Py.bind foldM]. now rewrite Hk.
Qed.

(** The first entry is always kept. *)
Lemma keep_first (first : list V) :
  (length first <? 2) = false ->
  keep_if_new eqb [] first = Ok [first].
Proof.
  destruct first as [|a [|b first]]; try discriminate. reflexivity.
Qed.

(** X11.  [remove_duplicate_pairs] is idempotent: applied to a list it
    returned, it returns that list again. *)
Theorem remove_duplicate_pairs_idempotent (array r : list (list V)) :
  remove_duplicate_pairs eqb array = Ok r ->
  remove_duplicate_pairs eqb r = Ok r.
Proof.
  unfold remove_duplicate_pairs. intros Hr.
  destruct array as [|first array].
  - injection Hr as <-. reflexivity.
  - destruct (length first <? 2) eqn:Hlen; [discriminate|].
    cbn [foldM] in Hr. rewrite (keep_first _ Hlen) in Hr.
    cbn [Py.bind] in Hr.
    apply foldM_fixpoint in Hr as (Hr & ext & ->).
    + cbn [app] in *. now rewrite Hlen.
    + cbn [foldM]. now rewrite (keep_first _ Hlen).
Qed.

(** The entries kept are not empty. *)
Lemma foldM_nonempty (array acc r : list (list V)) :
  Forall (fun e => e <> []) acc ->
  foldM (keep_if_new eqb) array acc = Ok r ->
  Forall (fun e => e <> []) r.
Proof.
  revert acc. induction array as [|e array IH]; intros acc Hacc Hf.
  - now injection Hf as <-.
  - cbn [foldM] in Hf. apply bind_ok in Hf as (acc' & Hk & Hf).
    apply (IH acc'); [|assumption].
    pose proof Hk as Hk'. apply keep_cases in Hk' as [-> | [-> _]];
      [assumption|].
    apply Forall_app. split; [assumption|]. constructor; [|constructor].
    intros ->. discriminate.
Qed.

Lemma firsts_nonempty (acc : list (list V)) :
  Forall (fun e => e <> []) acc ->
  mapM (fun tmp => Py.index tmp 0) acc = Ok (flat_map (firstn 1) acc).
Proof.
  induction 1 as [|e acc He _ IH]; [reflexivity|].
  destruct e as [|a e]; [contradiction|].
  cbn [mapM flat_map firstn app]. rewrite index_0_cons, IH. reflexivity.
Qed.

Lemma member_firsts (k : V) (acc : list (list V)) :
  member eqb k (flat_map (firstn 1) acc)
  = existsb (fun e => match e with
                      | first :: _ => eqb first k
                      | [] => false
                      end) acc.
Proof.
  unfold member. induction acc as [|e acc IH]; [reflexivity|].
  cbn [flat_map existsb]. rewrite existsb_app, IH.
  destruct e as [|a e]; [reflexivity|]. cbn [firstn existsb].
  now rewrite orb_false_r.
Qed.

(** X14.  Only the first entry is checked for its length.  An entry of
    one element that comes later is kept when its element is not the
    first element of an entry kept before it; when it is, indexing the
    entry raises an [IndexError], in place of the [ValueError] of line
    237. *)
Theorem remove_duplicate_pairs_checks_first_entry_only
        (array r : list (list V)) (k : V) :
  array <> [] ->
  remove_duplicate_pairs eqb array = Ok r ->
  remove_duplicate_pairs eqb (array ++ [[k]])
  = if existsb (fun e => match e with
                         | first :: _ => eqb first k
                         | [] => false
                         end) r
    then Raise (IndexError "index out of bounds")
    else Ok (r ++ [[k]]).
Proof.
  intros Hne. unfold remove_duplicate_pairs.
  destruct array as [|first array]; [contradiction|]. cbn [app].
  destruct (length first <? 2); [discriminate|].
  rewrite app_comm_cons, foldM_app. intros Hf. rewrite Hf.
  cbn [Py.bind foldM].
  assert (Hr : Forall (fun e => e <> []) r)
    by (apply (@foldM_nonempty (first :: array) [] r); [constructor | exact Hf]).
  unfold keep_if_new. rewrite index_0_cons. cbn [Py.bind].
  rewrite (firsts_nonempty Hr). cbn [Py.bind].
  rewrite member_firsts.
  destruct (existsb _ r); reflexivity.
Qed.

Hypothesis eqb_decides : decides eqb.

Lemma V_eq_dec (x y : V) : {x = y} + {x <> y}.
Proof.
  destruct (eqb x y) eqn:Hxy.
  - left. now apply eqb_decides.
  - right. intros Heq. apply eqb_decides in Heq. congruence.
Qed.

Lemma member_In (v : V) (l : list V) : member eqb v l = true <-> In v l.
Proof.
  unfold member. rewrite existsb_exists. split.
  - intros (e & He & Heq). apply eqb_decides in Heq. now subst.
  - intros Hv. exists v. split; [assumption | now apply eqb_decides].
Qed.

Lemma two_or_more (e : list V) :
  2 <= length e -> exists a b rest, e = a :: b :: rest.
Proof.
  destruct e as [|a [|b rest]]; simpl; try lia. intros _. now exists a, b, rest.
Qed.

Lemma firsts_ok (acc : list (list V)) :
  Forall (fun e => 2 <= length e) acc ->
  exists firsts,
    mapM (fun tmp => Py.index tmp 0) acc = Ok firsts /\
    forall k, In k firsts <-> exists b rest, In (k :: b :: rest) acc.
Proof.
  induction 1 as [|e acc He _ (firsts & Hf & Hin)].
  - exists []. split; [reflexivity|]. intros k. split; [intros [] |].
    intros (b & rest & []).
  - apply two_or_more in He as (a & b & rest & ->).
    exists (a :: firsts). cbn [mapM]. rewrite index_0_cons, Hf.
    split; [reflexivity|]. intros k. cbn [In]. rewrite Hin. split.
    + intros [<- | (b' & rest' & Hk)].
      * exists b, rest. now left.
      * exists b', rest'. now right.
    + intros (b' & rest' & [[= -> _ _] | Hk]); [now left|].
      right. now exists b', rest'.
Qed.

Lemma seconds_ok (key : V) (acc : list (list V)) :
  Forall (fun e => 2 <= length e) acc ->
  exists seconds,
    seconds_with_first eqb key acc = Ok seconds /\
    forall s, In s seconds <-> exists rest, In (key :: s :: rest) acc.
Proof.
  induction 1 as [|e acc He _ (seconds & Hs & Hin)].
  - exists []. split; [reflexivity|]. intros s. split; [intros [] |].
    intros (rest & []).
  - apply two_or_more in He as (a & b & rest & ->).
    cbn [seconds_with_first]. rewrite index_0_cons. cbn [Py.bind].
    destruct (eqb a key) eqn:Ha.
    + apply eqb_decides in Ha. subst a.
      replace (Py.index (key :: b :: rest) 1) with (Ok b) by reflexivity.
      cbn [Py.bind]. rewrite Hs. cbn [Py.bind].
      exists (b :: seconds). split; [reflexivity|].
      intros s. cbn [In]. rewrite Hin. split.
      * intros [<- | (rest' & Hk)]; [exists rest; now left|].
        exists rest'. now right.
      * intros (rest' & [[= -> _] | Hk]); [now left|].
        right. now exists rest'.
    + exists seconds. split; [assumption|].
      intros s. rewrite Hin. cbn [In]. split.
      * intros (rest' & Hk). exists rest'. now right.
      * intros (rest' & [[= -> _ _] | Hk]).
        -- assert (eqb key key = true) by now apply eqb_decides.
           congruence.
        -- now exists rest'.
Qed.

Lemma pair_in (a b : V) (rest : list V) (acc : list (list V)) :
  In (pair_of (a :: b :: rest)) (map pair_of acc)
  <-> exists rest', In (a :: b :: rest') acc.
Proof.
  rewrite in_map_iff. unfold pair_of. cbn [firstn]. split.
  - intros ([|a' [|b' rest']] & Hp & Hin); try discriminate.
    cbn [firstn] in Hp. injection Hp as -> ->. now exists rest'.
  - intros (rest' & Hin). now exists (a :: b :: rest').
Qed.

(** What the body of the loop does to entries of two elements or
    more. *)
Lemma keep_pairs (acc : list (list V)) (e : list V) :
  Forall (fun e => 2 <= length e) acc -> 2 <= length e ->
  (In (pair_of e) (map pair_of acc) -> keep_if_new eqb acc e = Ok acc) /\
  (~ In (pair_of e) (map pair_of acc) ->
   keep_if_new eqb acc e = Ok (acc ++ [e])).
Proof.
  intros Hacc He. apply two_or_more in He as (a & b & rest & ->).
  rewrite pair_in. unfold keep_if_new.
  rewrite index_0_cons. cbn [Py.bind].
  destruct (firsts_ok Hacc) as (firsts & -> & Hfirsts). cbn [Py.bind].
  replace (Py.index (a :: b :: rest) 1) with (Ok b) by reflexivity.
  destruct (seconds_ok a Hacc) as (seconds & -> & Hseconds).
  cbn [Py.bind].
  destruct (member eqb a firsts) eqn:Hma; cbn [negb].
  - destruct (member eqb b seconds) eqn:Hmb; cbn [negb].
    + split; [reflexivity|]. intros Hn. exfalso. apply Hn.
      apply Hseconds. now apply member_In.
    + split; [|reflexivity]. intros Hin. apply Hseconds in Hin.
      apply member_In in Hin. congruence.
  - split; [|reflexivity]. intros (rest' & Hin).
    assert (In a firsts) by (apply Hfirsts; now exists b, rest').
    apply member_In in H. congruence.
Qed.

Lemma fold_pairs (array acc : list (list V)) :
  Forall (fun e => 2 <= length e) acc ->
  Forall (fun e => 2 <= length e) array ->
  NoDup (map pair_of acc) ->
  exists r,
    foldM (keep_if_new eqb) array acc = Ok (acc ++ r) /\
    Subseq r array /\
    NoDup (map pair_of (acc ++ r)) /\
    (forall e, In e array -> In (pair_of e) (map pair_of (acc ++ r))) /\
    (forall e, In e r ->
               exists pre post,
                 array = pre ++ e :: post /\
                 ~ In (pair_of e) (map pair_of (acc ++ pre))).
Proof.
  intros Hacc Harr. revert acc Hacc.
  induction Harr as [|e array He _ IH]; intros acc Hacc Hnd.
  - exists []. rewrite app_nil_r. repeat split; try assumption.
    + constructor.
    + intros e [].
    + intros e [].
  - cbn [foldM].
    destruct (@keep_pairs acc e Hacc He) as [Hold Hnew].
    destruct (in_dec (list_eq_dec V_eq_dec)
                     (pair_of e) (map pair_of acc)) as [Hin | Hnin].
    + rewrite (Hold Hin). cbn [Py.bind].
      destruct (IH acc Hacc Hnd) as (r & Hf & Hsub & Hnd' & Hcov & Hfirst).
      exists r. split; [assumption|]. split; [now constructor|].
      split; [assumption|]. split.
      * intros e' [<- | He'].
        -- rewrite map_app. apply in_or_app. now left.
        -- now apply Hcov.
      * intros e' He'. destruct (Hfirst e' He') as (pre & post & -> & Hn).
        exists (e :: pre), post. split; [reflexivity|].
        intros Hc. apply Hn. rewrite map_app in *.
        apply in_app_or in Hc as [Hc | Hc]; apply in_or_app;
          [now left|].
        cbn [map In] in Hc. destruct Hc as [Hc | Hc]; [|now right].
        left. now rewrite <- Hc.
    + rewrite (Hnew Hnin). cbn [Py.bind].
      destruct (IH (acc ++ [e])) as (r & Hf & Hsub & Hnd' & Hcov & Hfirst).
      * apply Forall_app. split; [assumption | now constructor].
      * rewrite map_app. cbn [map].
        apply NoDup_app; [assumption | repeat constructor; intros [] |].
        intros x Hx [<- | []]. contradiction.
      * rewrite <- app_assoc in *. cbn [app] in *.
        exists (e :: r). split; [assumption|].
        split; [now constructor|]. split; [assumption|]. split.
        -- intros e' [<- | He'].
           ++ rewrite map_app. apply in_or_app. right. now left.
           ++ now apply Hcov.
        -- intros e' [<- | He'].
           ++ exists [], array. split; [reflexivity|]. now rewrite app_nil_r.
           ++ destruct (Hfirst e' He') as (pre & post & -> & Hn).
              exists (e :: pre), post. split; [reflexivity|].
              now rewrite <- app_assoc in Hn.
Qed.

(** X12.  On a list whose entries all have two elements or more,
    [remove_duplicate_pairs] returns, and what it returns is the list
    with some entries left out and the others in their order; no two
    entries returned have the same first two elements; every entry of
    the list has its first two elements in an entry returned; and an
    entry returned is the first one of the list with its first two
    elements. *)
Theorem remove_duplicate_pairs_keeps_first_occurrences
        (array : list (list V)) :
  Forall (fun e => 2 <= length e) array ->
  exists r,
    remove_duplicate_pairs eqb array = Ok r /\
    Subseq r array /\
    NoDup (map pair_of r) /\
    (forall e, In e array -> In (pair_of e) (map pair_of r)) /\
    (forall e, In e r ->
               exists pre post,
                 array = pre ++ e :: post /\
                 ~ In (pair_of e) (map pair_of pre)).
Proof.
  intros Harr.
  destruct (@fold_pairs array [] (Forall_nil _) Harr (NoDup_nil _))
    as (r & Hf & Hrest).
  exists r. split; [|exact Hrest].
  unfold remove_duplicate_pairs.
  destruct array as [|first array]; [exact Hf|].
  apply Forall_inv in Harr.
  destruct (Nat.ltb_spec (length first) 2); [lia | exact Hf].
Qed.

(** X13.  A list without two entries that agree on their first two
    elements is returned as it is. *)
Theorem remove_duplicate_pairs_without_duplicates
        (array : list (list V)) :
  Forall (fun e => 2 <= length e) array ->
  NoDup (map pair_of array) ->
  remove_duplicate_pairs eqb array = Ok array.
Proof.
  intros Harr Hnd.
  assert (Hf : forall acc,
             Forall (fun e => 2 <= length e) acc ->
             NoDup (map pair_of (acc ++ array)) ->
             foldM (keep_if_new eqb) array acc = Ok (acc ++ array)).
  { clear Hnd. induction Harr as [|e array He _ IH]; intros acc Hacc Hnd.
    - now rewrite app_nil_r.
    - cbn [foldM]. destruct (@keep_pairs acc e Hacc He) as [_ Hnew].
      rewrite Hnew.
      + cbn [Py.bind].
        replace (acc ++ e :: array) with ((acc ++ [e]) ++ array) in *
          by now rewrite <- app_assoc.
        apply IH; [|assumption].
        apply Forall_app. split; [assumption | now constructor].
      + rewrite map_app in Hnd. cbn [map] in Hnd.
        now apply NoDup_remove_2 in Hnd as Hn; intros Hc; apply Hn;
          apply in_or_app; left. }
  unfold remove_duplicate_pairs.
  destruct array as [|first array]; [reflexivity|].
  pose proof (Forall_inv Harr) as Hfirst. cbv beta in Hfirst.
  destruct (Nat.ltb_spec (length first) 2); [lia|].
  now apply (Hf []).
Qed.

End WithEq.

End PairsFacts.

(* ================================================================== *)
(** ** analyze_clustering                                              *)
(* ================================================================== *)

Module PxFacts.

Import Px.

Lemma bind_done {A B} (m : outcome A) (k : A -> outcome B) (b : B) :
  Px.bind m k = Done b -> exists a, m = Done a /\ k a = Done b.
Proof.
  destruct m as [a|e]; simpl; [|discriminate]. intros Hk. now exists a.
Qed.

Lemma px_foldM_app {A S} (body : S -> A -> outcome S) (l1 l2 : list A) (s : S) :
  Px.foldM body (l1 ++ l2) s
  = Px.bind (Px.foldM body l1 s) (Px.foldM body l2).
Proof.
  revert s. induction l1 as [|a l1 IH]; intros s; simpl; [reflexivity|].
  destruct (body s a); simpl; [apply IH | reflexivity].
Qed.

End PxFacts.

Module ClusterFacts.

Import Np NpFacts PyFacts Px PxFacts Cluster Clusters.
#[local] Arguments Qred : simpl never.

Lemma Qred_inject_Z (z : Z) : Qred (inject_Z z) = inject_Z z.
Proof.
  unfold Qred, inject_Z.
  pose proof (Z.ggcd_gcd z 1) as Hg.
  pose proof (Z.ggcd_correct_divisors z 1) as Hd.
  destruct (Z.ggcd z 1) as [g [aa bb]]. cbn [fst snd] in *.
  rewrite Z.gcd_1_r in Hg. subst g. destruct Hd as [Ha Hb].
  rewrite Z.mul_1_l in Ha, Hb. now subst.
Qed.

Lemma add_of_Z (a b : Z) : add (of_Z a) (of_Z b) = of_Z (a + b).
Proof.
  unfold of_Z. cbn [add]. f_equal.
  rewrite <- (Qred_inject_Z (a + b)). apply Qred_complete.
  unfold Qeq, inject_Z, Qplus. simpl. ring.
Qed.

Lemma sum_of_Z (l : list Z) (k : nat) :
  Np.sum (map of_Z l ++ repeat zero k) = of_Z (fold_right Z.add 0%Z l).
Proof.
  induction l as [|a l IH]; cbn [map app fold_right].
  - apply ZeroFacts.sum_zeros.
  - unfold Np.sum in *. cbn [fold_right]. rewrite IH. apply add_of_Z.
Qed.

(** [clusters[np.where(cond)]] keeps the entries at which [cond]
    holds. *)
Lemma where_nth {A} (d : A) (cond : A -> bool) (l pre : list A) :
  map (fun x => nth x (pre ++ l) d)
      (map fst (filter snd (combine (seq (length pre) (length l))
                                    (map cond l))))
  = filter cond l.
Proof.
  revert pre. induction l as [|a l IH]; intros pre; [reflexivity|].
  cbn [length seq map combine filter snd].
  specialize (IH (pre ++ [a])).
  rewrite <- app_assoc, length_app in IH. cbn [app length] in IH.
  rewrite Nat.add_1_r in IH.
  destruct (cond a); cbn [map fst]; rewrite IH; [|reflexivity].
  f_equal. now rewrite nth_middle.
Qed.

Lemma take_where_filter (cond : Z -> bool) (clusters : list Z) :
  take_where cond clusters = filter cond clusters.
Proof.
  unfold take_where, where_. rewrite length_map.
  apply (where_nth 0%Z cond clusters []).
Qed.

(** The two groups of line 122 and line 123 share out the particles. *)
Lemma groups_partition (ncut : Z) (clusters : list Z) :
  Forall (fun c => (0 <= c)%Z) clusters ->
  (unclustered ncut clusters
   + fold_right Z.add 0 (clustered ncut clusters)
   = fold_right Z.add 0 clusters)%Z.
Proof.
  unfold unclustered, clustered. rewrite !take_where_filter.
  induction 1 as [|c clusters Hc _ IH]; [reflexivity|].
  cbn [filter fold_right].
  destruct (Z.ltb_spec c (ncut + 1)), (Z.ltb_spec 0 c), (Z.ltb_spec ncut c);
    cbn [andb fold_right]; lia.
Qed.

Lemma population_nonneg (tmp : list float) (ys : list Z) :
  Forall (fun c => (0 <= c)%Z) (map (population tmp) ys).
Proof.
  apply Forall_forall. intros c Hc.
  apply in_map_iff in Hc as (y & <- & _). unfold population. lia.
Qed.

Lemma eqb_of_Z (x : float) (y : Z) :
  eqb x (of_Z y) = true <-> exists q, x = Fin q /\ (q == inject_Z y)%Q.
Proof.
  destruct x as [| |q|]; cbn [eqb of_Z]; split; try discriminate;
    try (intros (q' & Hq & _); discriminate).
  - intros Hq. exists q. split; [reflexivity | now apply Qeq_bool_iff].
  - intros (q' & [= <-] & Hq). now apply Qeq_bool_iff.
Qed.

(** One particle is counted in one cluster at most. *)
Lemma one_cluster (x : float) (ys : list Z) :
  NoDup ys ->
  fold_right Z.add 0%Z
             (map (fun y => if eqb x (of_Z y) then 1 else 0)%Z ys)
  = if existsb (fun y => eqb x (of_Z y)) ys then 1%Z else 0%Z.
Proof.
  induction 1 as [|y ys Hy _ IH]; [reflexivity|].
  cbn [map fold_right existsb]. rewrite IH.
  destruct (eqb x (of_Z y)) eqn:Hxy; cbn [orb]; [|reflexivity].
  destruct (existsb _ ys) eqn:Hex; [|reflexivity].
  exfalso. apply Hy.
  apply existsb_exists in Hex as (y' & Hin & Hxy').
  apply eqb_of_Z in Hxy as (q & -> & Hq).
  apply eqb_of_Z in Hxy' as (q' & [= <-] & Hq').
  rewrite Hq in Hq'. unfold Qeq, inject_Z in Hq'. simpl in Hq'.
  replace y with y' by lia. exact Hin.
Qed.

Lemma populations_total (tmp : list float) (ys : list Z) :
  NoDup ys ->
  fold_right Z.add 0%Z (map (population tmp) ys)
  = Z.of_nat (length (filter (fun x => existsb (fun y => eqb x (of_Z y)) ys)
                             tmp)).
Proof.
  intros Hnd. induction tmp as [|x tmp IH].
  - unfold population. cbn [filter length].
    induction ys as [|y ys IHy]; [reflexivity|].
    apply NoDup_cons_iff in Hnd as [_ Hnd].
    cbn [map fold_right]. now rewrite IHy.
  - assert (Hsplit :
      fold_right Z.add 0%Z (map (population (x :: tmp)) ys)
      = (fold_right Z.add 0%Z
                    (map (fun y => if eqb x (of_Z y) then 1 else 0)%Z ys)
         + fold_right Z.add 0%Z (map (population tmp) ys))%Z).
    { clear IH Hnd. induction ys as [|y ys IHy]; [reflexivity|].
      cbn [map fold_right]. rewrite IHy. unfold population.
      cbn [filter]. destruct (eqb x (of_Z y)); cbn [length]; lia. }
    rewrite Hsplit, IH, one_cluster by assumption.
    cbn [filter]. destruct (existsb _ ys); cbn [length]; lia.
Qed.

Lemma sorted_NoDup (l : list Z) : StronglySorted Z.lt l -> NoDup l.
Proof.
  induction 1 as [|a l _ IH Ha]; constructor; [|assumption].
  intros Hin. rewrite Forall_forall in Ha. specialize (Ha a Hin). lia.
Qed.

Lemma fmax_not_nan (x y : float) :
  isnan (fmax x y) = isnan x && isnan y.
Proof.
  unfold fmax. destruct (isnan x) eqn:Hx; [reflexivity|].
  destruct (isnan y) eqn:Hy; [now rewrite Hx|].
  destruct (leb x y); [now rewrite Hy | now rewrite Hx].
Qed.

Lemma fmax_ge (x y : float) :
  (isnan x = false -> leb x (fmax x y) = true) /\
  (isnan y = false -> leb y (fmax x y) = true).
Proof.
  unfold fmax.
  destruct (isnan x) eqn:Hx.
  - split; [discriminate|]. intros Hy. now apply CagingFacts.leb_refl.
  - destruct (isnan y) eqn:Hy.
    + split; [|discriminate]. intros _. now apply CagingFacts.leb_refl.
    + destruct (leb x y) eqn:Hxy.
      * split; intros _; [assumption | now apply CagingFacts.leb_refl].
      * split; intros _; [now apply CagingFacts.leb_refl|].
        apply CagingFacts.leb_total; assumption.
Qed.

Lemma fold_fmax_ge (l : list float) (a x : float) :
  In x (a :: l) -> isnan x = false -> leb x (fold_left fmax l a) = true.
Proof.
  revert a x. induction l as [|b l IH]; intros a x Hin Hx.
  - destruct Hin as [-> | []]. now apply CagingFacts.leb_refl.
  - cbn [fold_left].
    destruct Hin as [-> | [-> | Hin]].
    + apply CagingFacts.leb_trans with (fmax x b).
      * now apply fmax_ge.
      * apply IH; [now left|]. rewrite fmax_not_nan, Hx. reflexivity.
    + apply CagingFacts.leb_trans with (fmax a x).
      * now apply fmax_ge.
      * apply IH; [now left|]. rewrite fmax_not_nan, Hx.
        apply andb_false_r.
    + apply IH; [now right | assumption].
Qed.

Lemma nanmax_ge (entries : list float) (top x : float) :
  nanmax entries = Done top -> In x entries -> isnan x = false ->
  leb x top = true.
Proof.
  destruct entries as [|a l]; [discriminate|]. intros [= <-].
  apply fold_fmax_ge.
Qed.

(** The particles counted in the clusters 1 .. [nclusters] are those
    with a cluster number. *)
Lemma counted_iff (entries : list float) (top : float) (nclusters : Z)
      (x : float) :
  nanmax entries = Done top -> Px.int top = Done nclusters ->
  In x entries ->
  existsb (fun y => eqb x (of_Z y)) (range_list 1 (nclusters + 1) 1)
  = is_cluster_number x.
Proof.
  intros Htop Hint Hin.
  destruct (is_cluster_number x) eqn:Hid.
  - destruct x as [| |q|]; try discriminate. cbn [is_cluster_number] in Hid.
    apply andb_true_iff in Hid as [Hq Hpos].
    apply Qeq_bool_iff in Hq. apply Z.leb_le in Hpos.
    assert (Hle : (Qfloor q <= nclusters)%Z).
    { assert (Hle : leb (Fin q) top = true)
        by (eapply nanmax_ge; [eassumption | eassumption | reflexivity]).
      destruct top as [| |t|]; try discriminate.
      cbn [Px.int] in Hint. injection Hint as <-.
      cbn [leb] in Hle. apply Qle_bool_iff in Hle.
      apply Qfloor_resp_le in Hle.
      destruct t as [n d].
      change (Qfloor (n # d)) with (n / Z.pos d)%Z in Hle.
      unfold Py.int. cbn [Qnum Qden].
      rewrite Z.quot_div_nonneg; [assumption | | lia].
      destruct (Z.le_gt_cases 0 n) as [|Hneg]; [assumption|].
      assert ((n / Z.pos d < 0)%Z)
        by (apply Z.div_lt_upper_bound; lia).
      lia. }
    apply existsb_exists. exists (Qfloor q). split.
    + apply WindowListFacts.range_list_In; [lia|].
      split; [lia|]. split; [lia|]. apply Z.mod_1_r.
    + apply eqb_of_Z. now exists q.
  - destruct (existsb _ _) eqn:Hex; [|reflexivity].
    apply existsb_exists in Hex as (y & Hy & Hxy).
    apply eqb_of_Z in Hxy as (q & -> & Hq).
    cbn [is_cluster_number] in Hid.
    rewrite (Qfloor_comp _ _ Hq), Qfloor_Z in Hid.
    apply Qeq_bool_iff in Hq. rewrite Hq in Hid. cbn [andb] in Hid.
    apply Z.leb_gt in Hid.
    unfold range_list in Hy. cbn [Z.ltb Z.compare] in Hy.
    pose proof (range_up_bounds (Z.to_nat (nclusters + 1 - 1)) 1
                                (nclusters + 1) (step := 1) eq_refl) as Hb.
    rewrite Forall_forall in Hb. specialize (Hb y Hy). lia.
Qed.

(** What [analyze_clustering] went through when it returned. *)
Lemma analyze_clustering_done (frames : list (list float)) (ncut : Z)
      (out : list (list float)) (nparticles : list float) :
  analyze_clustering (Arr2 frames) ncut = Done (out, nparticles) ->
  exists top nclusters lx,
    nanmax (concat frames) = Done top /\
    Px.int top = Done nclusters /\
    max_of (map (fun tmp => length (clustered ncut
                                      (frame_clusters nclusters tmp)))
                frames) = Done lx /\
    out = map (fun tmp => padded lx (clustered ncut
                                       (frame_clusters nclusters tmp)))
              frames /\
    nparticles
    = map (fun tmp => of_Z (unclustered ncut (frame_clusters nclusters tmp)))
          frames.
Proof.
  unfold analyze_clustering. intros Ha.
  apply bind_done in Ha as (top & Htop & Ha).
  apply bind_done in Ha as (nclusters & Hn & Ha).
  apply bind_done in Ha as (lx & Hlx & Ha).
  rewrite !map_map in *.
  exists top, nclusters, lx. repeat split; try assumption; congruence.
Qed.

(** X15.  [analyze_clustering] counts every particle once.  In every
    frame, the number of particles below the percolation threshold and
    the sizes of the larger clusters add up to the number of particles
    of the frame that carry a cluster number (1, 2, 3, ...); particles
    whose number is NaN, zero, negative or not an integer are counted
    nowhere.  There is one row of sizes and one count per frame. *)
Theorem analyze_clustering_counts_every_particle_once
        (frames : list (list float)) (ncut : Z)
        (out : list (list float)) (nparticles : list float) :
  analyze_clustering (Arr2 frames) ncut = Done (out, nparticles) ->
  length out = length frames /\
  length nparticles = length frames /\
  forall (i : nat) (tmp row : list float) (n : float),
    nth_error frames i = Some tmp ->
    nth_error out i = Some row ->
    nth_error nparticles i = Some n ->
    add n (Np.sum row) = of_nat (length (filter is_cluster_number tmp)).
Proof.
  intros Ha.
  apply analyze_clustering_done in Ha
    as (top & nclusters & lx & Htop & Hn & _ & -> & ->).
  rewrite !length_map. split; [reflexivity|]. split; [reflexivity|].
  intros i tmp row n Htmp Hrow Hnp.
  rewrite nth_error_map, Htmp in Hrow, Hnp.
  injection Hrow as <-. injection Hnp as <-.
  unfold padded. rewrite sum_of_Z, add_of_Z.
  rewrite groups_partition by apply population_nonneg.
  unfold frame_clusters. rewrite populations_total.
  - unfold of_nat. do 3 f_equal. apply filter_ext_in. intros x Hx.
    eapply counted_iff; [eassumption | eassumption |].
    apply in_concat. exists tmp. split; [|assumption].
    eapply nth_error_In; eassumption.
  - apply sorted_NoDup. unfold range_list. cbn [Z.ltb Z.compare].
    now apply range_up_sorted.
Qed.

Lemma fold_max_ge (l : list nat) (a x : nat) :
  In x (a :: l) -> x <= fold_left Nat.max l a.
Proof.
  revert a x. induction l as [|b l IH]; intros a x Hin.
  - destruct Hin as [-> | []]. apply Nat.le_refl.
  - cbn [fold_left]. destruct Hin as [-> | [-> | Hin]].
    + etransitivity; [apply Nat.le_max_l | apply IH; now left].
    + etransitivity; [apply Nat.le_max_r | apply IH; now left].
    + apply IH. now right.
Qed.

Lemma fold_max_In (l : list nat) (a : nat) : In (fold_left Nat.max l a) (a :: l).
Proof.
  revert a. induction l as [|b l IH]; intros a; [now left|].
  cbn [fold_left]. destruct (IH (Nat.max a b)) as [Hm | Hm].
  - rewrite <- Hm. destruct (Nat.max_spec a b) as [[_ ->] | [_ ->]];
      [right; now left | now left].
  - right. now right.
Qed.

(** X16.  The array of cluster sizes that [analyze_clustering] returns
    is rectangular: every row has the length of the longest list of
    sizes, which some frame reaches.  An entry is either the size of a
    cluster, above [ncut], or the zero that pads the row. *)
Theorem analyze_clustering_pads_rows
        (frames : list (list float)) (ncut : Z)
        (out : list (list float)) (nparticles : list float) :
  analyze_clustering (Arr2 frames) ncut = Done (out, nparticles) ->
  exists lx : nat,
    Forall (fun row => length row = lx) out /\
    Exists (fun row => Forall (fun v => exists c : Z,
                                   v = of_Z c /\ (ncut < c)%Z) row) out /\
    Forall (Forall (fun v => exists c : Z,
                      v = of_Z c /\ ((ncut < c)%Z \/ c = 0%Z))) out.
Proof.
  intros Ha.
  apply analyze_clustering_done in Ha
    as (top & nclusters & lx & _ & _ & Hlx & -> & _).
  exists lx.
  assert (Hsizes : forall tmp,
             Forall (fun c => (ncut < c)%Z)
                    (clustered ncut (frame_clusters nclusters tmp))).
  { intros tmp. unfold clustered. rewrite take_where_filter.
    apply Forall_forall. intros c Hc. apply filter_In in Hc as [_ Hc].
    now apply Z.ltb_lt. }
  destruct frames as [|tmp0 frames]; [discriminate|].
  cbn [map max_of] in Hlx. injection Hlx as Hlx.
  repeat split.
  - apply Forall_forall. intros row Hrow.
    apply in_map_iff in Hrow as (tmp & <- & Htmp).
    unfold padded. rewrite length_app, length_map, repeat_length.
    assert (length (clustered ncut (frame_clusters nclusters tmp)) <= lx).
    { rewrite <- Hlx. apply fold_max_ge.
      exact (in_map (fun tmp => length (clustered ncut
                                          (frame_clusters nclusters tmp)))
                    (tmp0 :: frames) tmp Htmp). }
    lia.
  - pose proof (fold_max_In
                  (map (fun tmp => length (clustered ncut
                                             (frame_clusters nclusters tmp)))
                       frames)
                  (length (clustered ncut (frame_clusters nclusters tmp0))))
      as Hin.
    rewrite Hlx in Hin.
    change (In lx (map (fun tmp => length (clustered ncut
                                             (frame_clusters nclusters tmp)))
                       (tmp0 :: frames))) in Hin.
    apply in_map_iff in Hin as (tmp & Hlen & Htmp).
    apply Exists_exists.
    exists (padded lx (clustered ncut (frame_clusters nclusters tmp))).
    split; [apply in_map_iff; now exists tmp|].
    unfold padded. rewrite Hlen, Nat.sub_diag. cbn [repeat].
    rewrite app_nil_r. apply Forall_forall. intros v Hv.
    apply in_map_iff in Hv as (c & <- & Hc). exists c. split; [reflexivity|].
    specialize (Hsizes tmp). rewrite Forall_forall in Hsizes. now apply Hsizes.
  - apply Forall_forall. intros row Hrow.
    apply in_map_iff in Hrow as (tmp & <- & Htmp).
    unfold padded. apply Forall_app. split.
    + apply Forall_forall. intros v Hv.
      apply in_map_iff in Hv as (c & <- & Hc). exists c.
      split; [reflexivity|]. left.
      specialize (Hsizes tmp). rewrite Forall_forall in Hsizes.
      now apply Hsizes.
    + apply Forall_forall. intros v Hv. apply repeat_spec in Hv. subst v.
      exists 0%Z. split; [reflexivity | now right].
Qed.

(** X17.  An array without a number in it is refused: when the array
    has at least one entry and all its entries are NaN, [np.nanmax] is
    NaN and [analyze_clustering] raises the [ValueError] of [int]. *)
Theorem analyze_clustering_without_numbers
        (frames : list (list float)) (ncut : Z) :
  concat frames <> [] ->
  Forall (fun x => isnan x = true) (concat frames) ->
  analyze_clustering (Arr2 frames) ncut
  = Fail (Std (ValueError "cannot convert float NaN to integer")).
Proof.
  intros Hne Hnan. unfold analyze_clustering.
  destruct (concat frames) as [|x entries]; [contradiction|].
  cbn [nanmax Px.bind].
  assert (Htop : fold_left fmax entries x = NaN).
  { apply Forall_cons_iff in Hnan as [Hx Hnan].
    destruct x; try discriminate. clear Hx Hne.
    induction Hnan as [|y entries Hy _ IH]; [reflexivity|].
    destruct y; try discriminate. exact IH. }
  now rewrite Htop.
Qed.

End ClusterFacts.

Module PairsExamples.

Import Pairs Sequences MoreExamples PairsFacts.

Lemma remove_duplicate_pairs_idempotent_witness :
  remove_duplicate_pairs Z.eqb [[1; 2; 3]; [1; 3; 5]]%Z
  = Ok [[1; 2; 3]; [1; 3; 5]]%Z.
Proof.
  apply (@remove_duplicate_pairs_idempotent
           Z Z.eqb triples [[1; 2; 3]; [1; 3; 5]]%Z).
  reflexivity.
Defined.

Lemma remove_duplicate_pairs_keeps_first_occurrences_witness :
  exists r,
    remove_duplicate_pairs Z.eqb triples = Ok r /\
    Subseq r triples /\
    NoDup (map pair_of r) /\
    (forall e, In e triples -> In (pair_of e) (map pair_of r)) /\
    (forall e, In e r ->
               exists pre post,
                 triples = pre ++ e :: post /\
                 ~ In (pair_of e) (map pair_of pre)).
Proof.
  apply (@remove_duplicate_pairs_keeps_first_occurrences
           Z Z.eqb Z.eqb_eq triples).
  repeat constructor.
Defined.

Lemma remove_duplicate_pairs_without_duplicates_witness :
  remove_duplicate_pairs Z.eqb [[1; 2; 3]; [1; 3; 5]]%Z
  = Ok [[1; 2; 3]; [1; 3; 5]]%Z.
Proof.
  apply (@remove_duplicate_pairs_without_duplicates
           Z Z.eqb Z.eqb_eq [[1; 2; 3]; [1; 3; 5]]%Z).
  - repeat constructor.
  - apply NoDup_cons.
    + simpl. intros [E | []]. discriminate E.
    + apply NoDup_cons; [intros [] | apply NoDup_nil].
Defined.

Lemma remove_duplicate_pairs_checks_first_entry_only_witness :
  remove_duplicate_pairs Z.eqb ([[1; 2]; [3; 4]] ++ [[3]])%Z
  = if existsb (fun e : list Z => match e with
                                  | [] => false
                                  | first :: _ => Z.eqb first 3
                                  end) [[1; 2]; [3; 4]]%Z
    then Raise (IndexError "index out of bounds")
    else Ok ([[1; 2]; [3; 4]] ++ [[3]])%Z.
Proof.
  apply (@remove_duplicate_pairs_checks_first_entry_only
           Z Z.eqb [[1; 2]; [3; 4]]%Z [[1; 2]; [3; 4]]%Z 3%Z).
  - discriminate.
  - reflexivity.
Defined.

End PairsExamples.

Module ClusterExamples.

Import Np Px Cluster Clusters MoreExamples ClusterFacts.

Lemma analyze_clustering_counts_every_particle_once_witness :
  length (fst two_frames_result) = length two_frames /\
  length (snd two_frames_result) = length two_frames /\
  forall (i : nat) (tmp row : list float) (n : float),
    nth_error two_frames i = Some tmp ->
    nth_error (fst two_frames_result) i = Some row ->
    nth_error (snd two_frames_result) i = Some n ->
    add n (Np.sum row)
    = of_nat (length (filter is_cluster_number tmp)).
Proof.
  apply (@analyze_clustering_counts_every_particle_once
           two_frames 1 (fst two_frames_result) (snd two_frames_result)).
  reflexivity.
Defined.

Lemma analyze_clustering_pads_rows_witness :
  exists lx : nat,
    Forall (fun row : list float => length row = lx)
           (fst two_frames_result) /\
    Exists (fun row : list float =>
              Forall (fun v => exists c : Z, v = of_Z c /\ (1 < c)%Z) row)
           (fst two_frames_result) /\
    Forall (Forall (fun v => exists c : Z,
                                v = of_Z c /\ ((1 < c)%Z \/ c = 0%Z)))
           (fst two_frames_result).
Proof.
  apply (@analyze_clustering_pads_rows
           two_frames 1 (fst two_frames_result) (snd two_frames_result)).
  reflexivity.
Defined.

Lemma analyze_clustering_without_numbers_witness :
  analyze_clustering (Arr2 [[NaN; NaN]]) 1
  = Fail (Std (ValueError "cannot convert float NaN to integer")).
Proof.
  apply (@analyze_clustering_without_numbers [[NaN; NaN]] 1).
  - discriminate.
  - repeat constructor.
Defined.

End ClusterExamples.

(* ================================================================== *)
(** ** array2dict                                                      *)
(* ================================================================== *)

Module DictFacts.
Section WithKey.

Variables K W : Type.
Variable eqb : K -> K -> bool.
Hypothesis eqb_decides : Sequences.decides eqb.

Import Dict.

Lemma eqb_same (k : K) : eqb k k = true.
Proof. now apply eqb_decides. Qed.

Lemma eqb_other (k k' : K) : k <> k' -> eqb k k' = false.
Proof.
  intros Hne. destruct (eqb k k') eqn:Hk; [|reflexivity].
  apply eqb_decides in Hk. contradiction.
Qed.

Lemma get_set_same (d : dict K W) (k : K) (w : W) :
  get eqb (set eqb d k w) k = Some w.
Proof.
  induction d as [|[k' w'] d IH]; cbn [set get].
  - now rewrite eqb_same.
  - destruct (eqb k' k) eqn:Hk; cbn [get]; rewrite Hk; [reflexivity | exact IH].
Qed.

Lemma get_set_other (d : dict K W) (k k' : K) (w : W) :
  k <> k' -> get eqb (set eqb d k w) k' = get eqb d k'.
Proof.
  intros Hne. induction d as [|[k0 w0] d IH]; cbn [set get].
  - now rewrite eqb_other.
  - destruct (eqb k0 k) eqn:Hk; cbn [get].
    + apply eqb_decides in Hk. subst k0. now rewrite eqb_other.
    + now rewrite IH.
Qed.

Lemma set_get_id (d : dict K W) (k : K) (w : W) :
  get eqb d k = Some w -> set eqb d k w = d.
Proof.
  induction d as [|[k' w'] d IH]; cbn [set get]; [discriminate|].
  destruct (eqb k' k); [now intros [= ->] | intros Hg; now rewrite IH].
Qed.

Lemma set_set (d : dict K W) (k : K) (w w' : W) :
  set eqb (set eqb d k w) k w' = set eqb d k w'.
Proof.
  induction d as [|[k0 w0] d IH]; cbn [set].
  - now rewrite eqb_same.
  - destruct (eqb k0 k) eqn:Hk; cbn [set]; rewrite Hk; [reflexivity|].
    now rewrite IH.
Qed.

Lemma item_get (d : dict K W) (k : K) (w : W) :
  get eqb d k = Some w -> item eqb d k = Px.Done w.
Proof. unfold item. now intros ->. Qed.

End WithKey.
End DictFacts.

Module GroupingFacts.
Section WithEq.

Variable V : Type.
Variable eqb : V -> V -> bool.
Hypothesis eqb_decides : Sequences.decides eqb.

Import Px PxFacts Dict DictFacts Grouping Tables PyFacts.
Local Open Scope px_scope.

Lemma string_decides : Sequences.decides String.eqb.
Proof. intros x y. apply String.eqb_eq. Qed.

Lemma empty_columns_get (keys : list string) (key : string) :
  In key keys -> get String.eqb (empty_columns V keys) key = Some [].
Proof.
  unfold empty_columns.
  assert (Hgen : forall acc : dict string (list V),
             (In key keys \/ get String.eqb acc key = Some []) ->
             get String.eqb
                 (fold_left (fun d key => set String.eqb d key []) keys acc)
                 key = Some []).
  { induction keys as [|k keys IH]; intros acc Hk; cbn [fold_left].
    - destruct Hk as [[] | Hk]. exact Hk.
    - apply IH. destruct Hk as [[-> | Hk] | Hk].
      + right. apply (get_set_same string_decides).
      + now left.
      + right. destruct (string_dec k key) as [-> | Hne].
        * apply (get_set_same string_decides).
        * now rewrite (get_set_other string_decides).  }
  intros Hk. apply Hgen. now left.
Qed.

Lemma extend_present (keys : list string) (entry : columns V)
      (kv : string * V) :
  present keys entry -> present keys (extend entry kv).
Proof.
  intros Hp key Hk. unfold extend.
  destruct (get String.eqb entry (fst kv)) as [values|] eqn:Hg; [|now apply Hp].
  destruct (string_dec (fst kv) key) as [<- | Hne].
  - eexists. apply (get_set_same string_decides).
  - rewrite (get_set_other string_decides) by assumption. now apply Hp.
Qed.

Lemma index_app_middle {A} (pre post : list A) (a : A) :
  Py.index (pre ++ a :: post) (Z.of_nat (length pre)) = Ok a.
Proof.
  apply index_nth_error. rewrite nth_error_app2 by lia.
  now rewrite Nat.sub_diag.
Qed.

(** The loop of lines 175-176, from the index [len(vals1) + 1] on. *)
Lemma append_loop (label : V) (keys2 : list string) :
  forall (vals2 : list V) (keys1 : list string) (vals1 : list V)
         (d : dict V (columns V)) (entry : columns V),
    length keys1 = length vals1 -> length keys2 = length vals2 ->
    get eqb d label = Some entry ->
    present (keys1 ++ keys2) entry ->
    foldM (append_entry eqb (keys1 ++ keys2) (label :: vals1 ++ vals2))
          (map Z.of_nat (seq (S (length keys1)) (length keys2))) d
    = Done (set eqb d label
                (fold_left extend (combine keys2 vals2) entry)).
Proof.
  induction keys2 as [|key keys2 IH];
    intros [|v vals2] keys1 vals1 d entry Hl1 Hl2 Hg Hp; try discriminate.
  - cbn [length seq map foldM combine fold_left].
    now rewrite (set_get_id _ _ _ Hg).
  - cbn [length seq map foldM combine fold_left].
    unfold append_entry at 1.
    rewrite index_0_cons. cbn [lift Px.bind].
    rewrite (item_get _ _ _ Hg). cbn [Px.bind].
    replace (Z.of_nat (S (length keys1)) - 1)%Z
      with (Z.of_nat (length keys1)) by lia.
    rewrite index_app_middle. cbn [lift Px.bind].
    destruct (Hp key) as (values & Hv);
      [apply in_or_app; right; now left|].
    rewrite (item_get _ _ _ Hv). cbn [Px.bind].
    assert (Hline : Py.index (label :: vals1 ++ v :: vals2)
                             (Z.of_nat (S (length keys1))) = Ok v).
    { rewrite Hl1. apply (index_app_middle (label :: vals1) vals2 v). }
    rewrite Hline. cbn [lift Px.bind].
    specialize (IH vals2 (keys1 ++ [key]) (vals1 ++ [v])).
    rewrite <- !app_assoc, !length_app in IH. cbn [app length] in IH.
    rewrite Nat.add_1_r in IH.
    rewrite (IH _ (set String.eqb entry key (values ++ [v]))).
    + rewrite (set_set eqb_decides). do 3 f_equal.
      unfold extend. cbn [fst snd]. now rewrite Hv.
    + lia.
    + now injection Hl2.
    + apply (get_set_same eqb_decides).
    + intros k Hk.
      destruct (string_dec key k) as [<- | Hne].
      * eexists. apply (get_set_same string_decides).
      * rewrite (get_set_other string_decides) by assumption. now apply Hp.
Qed.

Lemma range_from_one (n : nat) :
  range_list 1 (Z.of_nat (S n)) 1 = map Z.of_nat (seq 1 n).
Proof.
  unfold range_list. cbn [Z.ltb Z.compare].
  replace (Z.to_nat (Z.of_nat (S n) - 1)) with n by lia.
  assert (Hgen : forall k s,
             range_up k (Z.of_nat s) (Z.of_nat (s + k)) 1
             = map Z.of_nat (seq s k)).
  { induction k as [|k IH]; intros s; [reflexivity|].
    cbn [range_up seq map].
    destruct (Z.ltb_spec (Z.of_nat s) (Z.of_nat (s + S k))); [|lia].
    f_equal. replace (Z.of_nat s + 1)%Z with (Z.of_nat (S s)) by lia.
    replace (s + S k) with (S s + k) by lia. apply IH. }
  apply (Hgen n 1).
Qed.

Lemma extend_fold_present (keys : list string) (kvs : list (string * V))
      (entry : columns V) :
  present keys entry -> present keys (fold_left extend kvs entry).
Proof.
  revert entry. induction kvs as [|kv kvs IH]; intros entry Hp; [exact Hp|].
  cbn [fold_left]. apply IH. now apply extend_present.
Qed.

Lemma extend_fold_other (ks : list string) (vs : list V) (entry : columns V)
      (key : string) :
  ~ In key ks ->
  get String.eqb (fold_left extend (combine ks vs) entry) key
  = get String.eqb entry key.
Proof.
  revert vs entry. induction ks as [|k ks IH]; intros [|v vs] entry Hn;
    try reflexivity.
  cbn [combine fold_left]. rewrite IH by (intros Hc; apply Hn; now right).
  unfold extend. cbn [fst snd].
  destruct (get String.eqb entry k) as [values|]; [|reflexivity].
  apply (get_set_other string_decides). intros ->. apply Hn. now left.
Qed.

Lemma extend_fold_get (ks : list string) (vs : list V) (entry : columns V)
      (j : nat) (key : string) (v : V) (old : list V) :
  NoDup ks ->
  nth_error ks j = Some key -> nth_error vs j = Some v ->
  get String.eqb entry key = Some old ->
  get String.eqb (fold_left extend (combine ks vs) entry) key
  = Some (old ++ [v]).
Proof.
  revert vs entry j. induction ks as [|k ks IH];
    intros [|v0 vs] entry [|j] Hnd Hk Hv Hg; try discriminate.
  - injection Hk as ->. injection Hv as ->.
    apply NoDup_cons_iff in Hnd as [Hnin _].
    cbn [combine fold_left]. rewrite extend_fold_other by assumption.
    unfold extend. cbn [fst snd]. rewrite Hg.
    apply (get_set_same string_decides).
  - apply NoDup_cons_iff in Hnd as [Hnin Hnd].
    cbn [combine fold_left nth_error] in *.
    apply (IH vs _ j); try assumption.
    unfold extend. cbn [fst snd].
    destruct (get String.eqb entry k) as [values|]; [|assumption].
    rewrite (get_set_other string_decides); [assumption|].
    intros ->. apply Hnin. eapply nth_error_In; eassumption.
Qed.

(** The dictionary of line 171-172, at the label of the row. *)
Lemma ensure_entry (keys : list string) (d : dict V (columns V)) (label : V) :
  (forall l entry, get eqb d l = Some entry -> present keys entry) ->
  exists entry1,
    get eqb (if negb (contains eqb d label)
             then set eqb d label (empty_columns V keys) else d) label
    = Some entry1 /\
    present keys entry1 /\
    entry1 = columns_of eqb keys d label.
Proof.
  intros HW. unfold contains, columns_of.
  destruct (get eqb d label) as [entry|] eqn:Hg; cbn [negb].
  - exists entry. split; [assumption|]. split; [|reflexivity].
    now apply (HW label).
  - exists (empty_columns V keys).
    split; [apply (get_set_same eqb_decides)|]. split; [|reflexivity].
    intros key Hk. exists []. now apply empty_columns_get.
Qed.

(** Lines 171-176 on a row with one entry per key after its label. *)
Lemma add_line_ok (keys : list string) (d : dict V (columns V)) (label : V)
      (vals : list V) :
  length vals = length keys ->
  (forall l entry, get eqb d l = Some entry -> present keys entry) ->
  add_line eqb keys d (label :: vals)
  = Done (set eqb (if negb (contains eqb d label)
                   then set eqb d label (empty_columns V keys) else d)
              label
              (fold_left extend (combine keys vals)
                         (columns_of eqb keys d label))).
Proof.
  intros Hlen HW. unfold add_line.
  rewrite index_0_cons. cbn [lift Px.bind].
  rewrite DiffusivityFacts.slice_from_1. cbn [skipn].
  rewrite Hlen, Nat.eqb_refl. cbn [negb].
  destruct (@ensure_entry keys d label HW) as (entry1 & Hg1 & Hp1 & He1).
  rewrite <- He1.
  cbn [length]. rewrite range_from_one.
  pose proof (@append_loop label keys vals [] [] _ entry1 eq_refl
                           (eq_sym Hlen) Hg1 Hp1) as Hloop.
  cbn [app length] in Hloop. rewrite Hlen. exact Hloop.
Qed.

Lemma add_line_present (keys : list string) (d : dict V (columns V))
      (label : V) (vals : list V) :
  (forall l entry, get eqb d l = Some entry -> present keys entry) ->
  forall l entry,
    get eqb (set eqb (if negb (contains eqb d label)
                      then set eqb d label (empty_columns V keys) else d)
                 label
                 (fold_left extend (combine keys vals)
                            (columns_of eqb keys d label))) l
    = Some entry ->
    present keys entry.
Proof.
  intros HW l entry.
  destruct (@ensure_entry keys d label HW) as (entry1 & Hg1 & Hp1 & He1).
  rewrite <- He1.
  destruct (PairsFacts.V_eq_dec eqb_decides label l) as [<- | Hne].
  - rewrite (get_set_same eqb_decides). intros [= <-].
    now apply extend_fold_present.
  - rewrite (get_set_other eqb_decides) by assumption.
    unfold contains. destruct (get eqb d label); cbn [negb].
    + apply HW.
    + rewrite (get_set_other eqb_decides) by assumption. apply HW.
Qed.

Lemma rows_run (keys : list string) (array : list (list V))
      (d : dict V (columns V)) :
  Forall (fun line => length line = S (length keys)) array ->
  (forall l entry, get eqb d l = Some entry -> present keys entry) ->
  exists d',
    foldM (add_line eqb keys) array d = Done d' /\
    (forall l entry, get eqb d' l = Some entry -> present keys entry).
Proof.
  intros Harr. revert d.
  induction Harr as [|line array Hline _ IH]; intros d HW.
  - now exists d.
  - destruct line as [|label vals]; [discriminate|].
    injection Hline as Hlen.
    cbn [foldM]. rewrite (@add_line_ok keys d label vals Hlen HW). cbn [Px.bind].
    apply IH. now apply add_line_present.
Qed.

Lemma first_short_row (array : list (list V)) (keys : list string) :
  Forall (fun line => length line = S (length keys)) array \/
  exists pre line post,
    array = pre ++ line :: post /\
    Forall (fun line => length line = S (length keys)) pre /\
    length line <> S (length keys).
Proof.
  induction array as [|line array IH]; [left; constructor|].
  destruct (Nat.eq_dec (length line) (S (length keys))) as [Heq|Hne].
  - destruct IH as [Hall | (pre & bad & post & -> & Hpre & Hbad)].
    + left. now constructor.
    + right. exists (line :: pre), bad, post.
      repeat split; [now constructor | assumption].
  - right. exists [], line, array. repeat split; [constructor | assumption].
Qed.

Lemma array2dict_short_row (keys : list string)
      (pre : list (list V)) (line : list V) (post : list (list V)) :
  Forall (fun line => length line = S (length keys)) pre ->
  length line <> S (length keys) ->
  array2dict eqb (pre ++ line :: post) keys
  = Fail (Std match line with
              | [] => IndexError "index out of bounds"
              | _ :: _ => ValueError "The number of keys must equal the number of entries len(array[i][1:])"
              end).
Proof.
  intros Hpre Hline. unfold array2dict.
  assert (HW0 : forall (l : V) (entry : columns V),
             get eqb (@nil (V * columns V)) l = Some entry ->
             present keys entry) by discriminate.
  rewrite px_foldM_app.
  destruct (@rows_run keys pre [] Hpre HW0) as (d & -> & _). cbn [Px.bind foldM].
  destruct line as [|label vals]; [reflexivity|].
  unfold add_line. rewrite index_0_cons. cbn [lift Px.bind].
  rewrite DiffusivityFacts.slice_from_1. cbn [skipn].
  destruct (Nat.eqb_spec (length keys) (length vals)) as [Heq|_];
    [cbn [length] in Hline; lia|].
  reflexivity.
Qed.

(** X18.  [array2dict] returns exactly when every row has one entry
    more than there are keys.  Otherwise it raises at the first row that
    has not: an [IndexError] when that row is empty, the [ValueError] of
    line 174 when it is not.  It never raises a [KeyError]: the
    dictionary entries that line 176 reads were created at line 172. *)
Theorem array2dict_returns_iff_rows_match_keys
        (array : list (list V)) (keys : list string) :
  (Forall (fun line => length line = S (length keys)) array ->
   exists d, array2dict eqb array keys = Done d) /\
  (forall pre line post,
      array = pre ++ line :: post ->
      Forall (fun line => length line = S (length keys)) pre ->
      length line <> S (length keys) ->
      array2dict eqb array keys
      = Fail (Std match line with
                  | [] => IndexError "index out of bounds"
                  | _ :: _ => ValueError "The number of keys must equal the number of entries len(array[i][1:])"
                  end)) /\
  array2dict eqb array keys <> Fail KeyError.
Proof.
  assert (HW0 : forall (l : V) (entry : columns V),
             get eqb (@nil (V * columns V)) l = Some entry ->
             present keys entry) by discriminate.
  split; [|split].
  - intros Harr. destruct (@rows_run keys array [] Harr HW0) as (d & Hd & _).
    now exists d.
  - intros pre line post -> Hpre Hline.
    now apply array2dict_short_row.
  - destruct (first_short_row array keys)
      as [Hall | (pre & line & post & -> & Hpre & Hline)].
    + destruct (@rows_run keys array [] Hall HW0) as (d & Hd & _).
      unfold array2dict. rewrite Hd. discriminate.
    + rewrite (@array2dict_short_row keys pre line post Hpre Hline). discriminate.
Qed.

Lemma rows_of_app (label : V) (pre : list (list V)) (line : list V) :
  rows_of eqb label (pre ++ [line])
  = rows_of eqb label pre
    ++ match line with
       | first :: _ => if eqb first label then [line] else []
       | [] => []
       end.
Proof.
  unfold rows_of. rewrite filter_app. cbn [filter].
  destruct line as [|first rest]; [reflexivity|].
  now destruct (eqb first label).
Qed.

Lemma column_app (j : nat) (rows : list (list V)) (line : list V) :
  column j (rows ++ [line]) = column j rows ++ firstn 1 (skipn j line).
Proof.
  unfold column. rewrite flat_map_app. cbn [flat_map].
  now rewrite app_nil_r.
Qed.

Lemma firstn_skipn_nth (j : nat) (l : list V) (v : V) :
  nth_error l j = Some v -> firstn 1 (skipn j l) = [v].
Proof.
  revert l. induction j as [|j IH]; intros [|a l] Hn; try discriminate.
  - now injection Hn as ->.
  - cbn [skipn]. now apply IH.
Qed.

(** The dictionary after the rows [pre]: the labels it holds are the
    first entries of the rows, and the list of a label and of the key
    number [j] holds the entries number [j + 1] of the rows of the
    label. *)
Lemma grouped_run (keys : list string) (array : list (list V)) :
  NoDup keys ->
  Forall (fun line => length line = S (length keys)) array ->
  forall (pre : list (list V)) (d : dict V (columns V)),
    (forall l,
        (get eqb d l = None <-> rows_of eqb l pre = []) /\
        forall entry,
          get eqb d l = Some entry ->
          forall j key,
            nth_error keys j = Some key ->
            get String.eqb entry key
            = Some (column (S j) (rows_of eqb l pre))) ->
    exists d',
      foldM (add_line eqb keys) array d = Done d' /\
      forall l,
        (get eqb d' l = None <-> rows_of eqb l (pre ++ array) = []) /\
        forall entry,
          get eqb d' l = Some entry ->
          forall j key,
            nth_error keys j = Some key ->
            get String.eqb entry key
            = Some (column (S j) (rows_of eqb l (pre ++ array))).
Proof.
  intros Hnd Harr.
  induction Harr as [|line array Hline _ IH]; intros pre d HS.
  - exists d. rewrite app_nil_r. now split.
  - destruct line as [|label vals]; [discriminate|].
    injection Hline as Hlen.
    assert (HW : forall l entry, get eqb d l = Some entry ->
                                 present keys entry).
    { intros l entry Hg key Hk.
      apply In_nth_error in Hk as (j & Hj).
      eexists. exact (proj2 (HS l) entry Hg j key Hj). }
    cbn [foldM]. rewrite (@add_line_ok keys d label vals Hlen HW). cbn [Px.bind].
    replace (pre ++ (label :: vals) :: array)
      with ((pre ++ [label :: vals]) ++ array)
      by now rewrite <- app_assoc.
    apply IH. intros l. rewrite rows_of_app.
    destruct (@ensure_entry keys d label HW) as (entry1 & Hg1 & Hp1 & He1).
    rewrite <- He1.
    destruct (PairsFacts.V_eq_dec eqb_decides label l) as [<- | Hne].
    + rewrite (eqb_same eqb_decides), (get_set_same eqb_decides).
      split.
      * split; [discriminate|].
        intros Hc. now apply app_eq_nil in Hc as [_ Hc].
      * intros entry [= <-] j key Hj.
        assert (Hjv : exists v, nth_error vals j = Some v).
        { destruct (nth_error vals j) as [v|] eqn:Hv; [now exists v|].
          apply nth_error_None in Hv.
          assert (j < length keys) by (apply nth_error_Some; congruence).
          lia. }
        destruct Hjv as (v & Hv).
        rewrite column_app. cbn [skipn].
        rewrite (firstn_skipn_nth _ _ Hv).
        apply (@extend_fold_get keys vals _ j key v _ Hnd Hj Hv).
        rewrite He1. unfold columns_of.
        destruct (get eqb d label) as [entry|] eqn:Hg.
        -- exact (proj2 (HS label) entry Hg j key Hj).
        -- apply (proj1 (HS label)) in Hg. rewrite Hg.
           apply empty_columns_get. eapply nth_error_In; eassumption.
    + rewrite (eqb_other eqb_decides) by assumption. rewrite app_nil_r.
      rewrite (get_set_other eqb_decides) by assumption.
      unfold contains. destruct (get eqb d label); cbn [negb].
      * apply HS.
      * rewrite (get_set_other eqb_decides) by assumption. apply HS.
Qed.

(** X19.  [array2dict] groups the rows by their first entry.  When the
    keys are pairwise distinct and the call returns, the dictionary has
    an entry for a label exactly when a row starts with the label, and
    in that entry the list of the key number [j] holds the entries
    number [j + 1] of the rows that start with the label, in the order
    of the rows. *)
Theorem array2dict_groups_rows_by_label
        (array : list (list V)) (keys : list string)
        (d : dict V (columns V)) :
  NoDup keys ->
  array2dict eqb array keys = Done d ->
  forall label,
    (get eqb d label = None <-> rows_of eqb label array = []) /\
    forall entry,
      get eqb d label = Some entry ->
      forall j key,
        nth_error keys j = Some key ->
        get String.eqb entry key
        = Some (column (S j) (rows_of eqb label array)).
Proof.
  intros Hnd Hd.
  assert (Harr : Forall (fun line => length line = S (length keys)) array).
  { destruct (first_short_row array keys)
      as [Hall | (pre & line & post & Ha & Hpre & Hline)]; [assumption|].
    subst array.
    rewrite (@array2dict_short_row keys pre line post Hpre Hline) in Hd. discriminate. }
  destruct (@grouped_run keys array Hnd Harr [] []) as (d' & Hd' & HS).
  - intros l. split; [split; reflexivity | discriminate].
  - unfold array2dict in Hd. rewrite Hd' in Hd. injection Hd as <-.
    exact HS.
Qed.

End WithEq.
End GroupingFacts.

Module GroupingExamples.

Import Px Grouping Tables MoreExamples GroupingFacts.

Lemma array2dict_returns_iff_rows_match_keys_witness :
  (exists d, array2dict Z.eqb labelled_rows ["a"; "b"] = Done d) /\
  array2dict Z.eqb ([[1; 10; 11]] ++ [2; 20] :: [[1; 12; 13]])%Z ["a"; "b"]
  = Fail (Std (ValueError "The number of keys must equal the number of entries len(array[i][1:])")).
Proof.
  split.
  - apply (proj1 (@array2dict_returns_iff_rows_match_keys
                    Z Z.eqb Z.eqb_eq labelled_rows ["a"; "b"])).
    repeat constructor.
  - apply (proj1 (proj2 (@array2dict_returns_iff_rows_match_keys
                           Z Z.eqb Z.eqb_eq
                           ([[1; 10; 11]] ++ [2; 20] :: [[1; 12; 13]])%Z
                           ["a"; "b"]))
                 [[1; 10; 11]]%Z [2; 20]%Z [[1; 12; 13]]%Z).
    + reflexivity.
    + repeat constructor.
    + discriminate.
Defined.

Lemma array2dict_groups_rows_by_label_witness :
  (Dict.get Z.eqb labelled_table 1%Z = None
   <-> rows_of Z.eqb 1%Z labelled_rows = []) /\
  forall entry : columns Z,
    Dict.get Z.eqb labelled_table 1%Z = Some entry ->
    forall (j : nat) (key : string),
      nth_error ["a"; "b"] j = Some key ->
      Dict.get String.eqb entry key
      = Some (column (S j) (rows_of Z.eqb 1%Z labelled_rows)).
Proof.
  apply (@array2dict_groups_rows_by_label
           Z Z.eqb Z.eqb_eq labelled_rows ["a"; "b"] labelled_table).
  - apply NoDup_cons.
    + simpl. intros [E | []]. discriminate E.
    + apply NoDup_cons; [intros [] | apply NoDup_nil].
  - reflexivity.
Defined.

End GroupingExamples.

(* ================================================================== *)
(** ** basic_stats and overlapping_spheres                             *)
(* ================================================================== *)

Module StatisticsFacts.
Section WithLibrary.

Context `{Extern} `{Library}.
Import Np Px PxFacts Special Statistics.
Local Open Scope px_scope.

Lemma count_nan_all (data : list float) :
  Forall (fun x => isnan x = true) data -> count_nan data = length data.
Proof.
  unfold count_nan. induction 1 as [|x data Hx _ IH]; [reflexivity|].
  cbn [filter]. rewrite Hx. cbn [length]. now rewrite IH.
Qed.

Lemma count_numbers (data : list float) :
  length data - count_nan data = length (numbers data).
Proof.
  unfold count_nan, numbers.
  pose proof (ExtremaPartition.filter_partition_length isnan data). lia.
Qed.

Lemma some_number (data : list float) :
  Exists (fun x => isnan x = false) data ->
  negb (length data =? 0) && negb (length data =? count_nan data) = true.
Proof.
  intros Hex.
  assert (Hn : 0 < length (numbers data)).
  { unfold numbers. induction Hex as [x data Hx | x data _ IH].
    - cbn [filter]. rewrite Hx. cbn [negb length]. lia.
    - cbn [filter]. destruct (negb (isnan x)); cbn [length]; lia. }
  rewrite <- count_numbers in Hn.
  destruct (Nat.eqb_spec (length data) 0); [lia|].
  destruct (Nat.eqb_spec (length data) (count_nan data)); [lia|].
  reflexivity.
Qed.

(** X20.  Data without a number has no statistics: for an empty list
    and for a list of NaN only, [basic_stats] returns (NaN, NaN).  It
    does so whatever [error_type] is, also one it does not support, and
    on every NumPy release. *)
Theorem basic_stats_without_numbers
        (data : list float) (confidence : float) (error_type : string) :
  Forall (fun x => isnan x = true) data ->
  basic_stats data confidence error_type = Done (NaN, NaN).
Proof.
  intros Hnan. unfold basic_stats.
  rewrite (count_nan_all Hnan), Nat.eqb_refl. cbn [negb].
  now rewrite andb_false_r.
Qed.

(** X21.  On data with at least one number, and a NumPy that has
    [np.float], an [error_type] other than "standard_error",
    "confidence" and "standard_dev" raises the [ValueError] of line 46,
    whose message names it. *)
Theorem basic_stats_unsupported_error_type
        (data : list float) (confidence : float) (error_type : string) :
  has_np_float = true ->
  Exists (fun x => isnan x = false) data ->
  ~ In error_type ["standard_error"; "confidence"; "standard_dev"] ->
  basic_stats data confidence error_type
  = Fail (Std (ValueError ("error_type, " ++ error_type
                           ++ ", is not supported"))).
Proof.
  intros Hnp Hex Hty. unfold basic_stats.
  rewrite (some_number Hex), Hnp. cbn [Px.bind].
  destruct (String.eqb_spec error_type "standard_error") as [->|_];
    [exfalso; apply Hty; now left|].
  destruct (String.eqb_spec error_type "confidence") as [->|_];
    [exfalso; apply Hty; right; now left|].
  destruct (String.eqb_spec error_type "standard_dev") as [->|_];
    [exfalso; apply Hty; right; right; now left|].
  reflexivity.
Qed.

(** X22.  [basic_stats] cannot warn.  When more than eight entries are
    numbers and the normality test gives a p-value below 0.05, line 51
    calls [warning.warn], but the module is imported under the name
    [warnings]: the call raises a [NameError] and returns no
    statistics. *)
Theorem basic_stats_normality_warning_raises
        (data : list float) (confidence : float) (error_type : string)
        (p : float) :
  has_np_float = true ->
  In error_type ["standard_error"; "confidence"; "standard_dev"] ->
  8 < length (numbers data) ->
  normaltest_pvalue data = Done p ->
  ltb p (Fin (5 # 100)) = true ->
  basic_stats data confidence error_type
  = Fail (NameError "name 'warning' is not defined").
Proof.
  intros Hnp Hty Hlx Hp Hlt. unfold basic_stats.
  rewrite some_number.
  2:{ unfold numbers in Hlx. clear -Hlx.
      induction data as [|x data IH]; [simpl in Hlx; lia|].
      cbn [filter] in Hlx. destruct (isnan x) eqn:Hx.
      - cbn [negb] in Hlx. apply Exists_cons_tl.
        destruct data as [|y data]; [simpl in Hlx; lia|].
        clear IH. revert Hlx. generalize (y :: data). clear.
        intros l Hl. induction l as [|z l IH]; [simpl in Hl; lia|].
        cbn [filter] in Hl. destruct (isnan z) eqn:Hz.
        + apply Exists_cons_tl. apply IH. exact Hl.
        + now apply Exists_cons_hd.
      - now apply Exists_cons_hd. }
  rewrite Hnp. cbn [Px.bind]. rewrite count_numbers.
  destruct (Nat.ltb_spec 8 (length (numbers data))); [|lia].
  rewrite Hp. cbn [Px.bind]. rewrite Hlt.
  destruct Hty as [<- | [<- | [<- | []]]]; reflexivity.
Qed.

(** X26.  On a NumPy release without [np.float], [basic_stats] has no
    result for data with a number in it: line 36 raises an
    [AttributeError], whatever [confidence] and [error_type] are. *)
Theorem basic_stats_needs_np_float
        (data : list float) (confidence : float) (error_type : string) :
  has_np_float = false ->
  Exists (fun x => isnan x = false) data ->
  basic_stats data confidence error_type
  = Fail (AttributeError "module 'numpy' has no attribute 'float'").
Proof.
  intros Hnp Hex. unfold basic_stats.
  rewrite (some_number Hex), Hnp. reflexivity.
Qed.

End WithLibrary.
End StatisticsFacts.

Module MonteCarloFacts.
Section WithLibrary.

Context `{Extern} `{Library}.
Import Np Px PxFacts Special Statistics MonteCarloVolume.
Local Open Scope px_scope.

(** X23.  [overlapping_spheres] returns no volume, whatever its
    arguments.  When its Monte Carlo runs complete, the call of
    [basic_stats] with the keyword [error_descriptor], which is no
    parameter of [basic_stats], raises a [TypeError]; when they raise,
    the call raises with them. *)
Theorem overlapping_spheres_never_returns
        (g : generator) (rcut : scalar_or_array) (ref_pts : list (list float))
        (npts : option float) (repeats : Z) :
  (forall r, overlapping_spheres g rcut ref_pts npts repeats <> Done r) /\
  (forall volumes,
      region_volumes g rcut ref_pts npts repeats = Done volumes ->
      overlapping_spheres g rcut ref_pts npts repeats
      = Fail (TypeError "basic_stats() got an unexpected keyword argument 'error_descriptor'")) /\
  (forall e,
      region_volumes g rcut ref_pts npts repeats = Fail e ->
      overlapping_spheres g rcut ref_pts npts repeats = Fail e).
Proof.
  unfold overlapping_spheres.
  destruct (region_volumes g rcut ref_pts npts repeats) as [volumes|e].
  - split; [|split].
    + intros r. cbn. discriminate.
    + intros v _. reflexivity.
    + intros e. discriminate.
  - split; [|split].
    + intros r. cbn. discriminate.
    + intros v. discriminate.
    + intros e' E. injection E as ->. reflexivity.
Qed.

Lemma mapM_raises {A B} (f : A -> result B) (l1 l2 : list A) (a : A)
      (e : Py.exn) :
  Forall (fun x => exists b, f x = Ok b) l1 -> f a = Raise e ->
  mapM f (l1 ++ a :: l2) = Raise e.
Proof.
  intros Hl1 Ha. induction Hl1 as [|x l1 (b & Hx) _ IH]; cbn [app mapM].
  - now rewrite Ha.
  - rewrite Hx. cbn [Py.bind]. now rewrite IH.
Qed.

Lemma index_beyond {A} (l : list A) :
  Py.index l (Z.of_nat (length l)) = Raise (IndexError "index out of bounds").
Proof.
  unfold Py.index.
  destruct (Z.ltb_spec (Z.of_nat (length l)) 0); [lia|].
  destruct (Z.ltb_spec (Z.of_nat (length l)) 0); [lia|].
  rewrite Nat2Z.id.
  destruct (nth_error l (length l)) eqn:Hn; [|reflexivity].
  assert (length l < length l) by (apply nth_error_Some; congruence). lia.
Qed.

(** X25.  With fewer spheres than dimensions the call fails on its
    ranges: line 66 takes the radius [rcut[i]] at the index [i] of the
    dimension, where [rcut] has one radius per sphere, and raises an
    [IndexError] at the first dimension that has no sphere.  A single
    sphere in two or three dimensions is such a case. *)
Theorem overlapping_spheres_fewer_spheres_than_dimensions
        (g : generator) (rcut : scalar_or_array) (ref_pts : list (list float))
        (npts : option float) (repeats : Z) :
  length ref_pts < length (hd [] ref_pts) ->
  match rcut with
  | Scalar0 _ => True
  | Array1 a => length a = length ref_pts
  end ->
  overlapping_spheres g rcut ref_pts npts repeats
  = Fail (Std (IndexError "index out of bounds")).
Proof.
  intros Hfew Hrcut. unfold overlapping_spheres, region_volumes.
  set (radii := match rcut with
                | Scalar0 x => map (mul x) (repeat one (length ref_pts))
                | Array1 a => a
                end).
  assert (Hr : match rcut with
               | Scalar0 x =>
                   Done (map (mul x) (repeat one (length ref_pts)))
               | Array1 a =>
                   if negb (length ref_pts =? length a)
                   then Fail (Std (ValueError "Length of rcut (circle radii) and number of reference points (circle centers) must be equal"))
                   else Done a
               end = Done radii).
  { subst radii. destruct rcut as [x|a]; [reflexivity|].
    now rewrite Hrcut, Nat.eqb_refl. }
  rewrite Hr. cbn [Px.bind].
  assert (Hlen : length radii = length ref_pts).
  { subst radii. destruct rcut as [x|a]; [|assumption].
    now rewrite length_map, repeat_length. }
  set (dims := length (hd [] ref_pts)) in *.
  replace (seq 0 dims)
    with (seq 0 (length radii)
          ++ length radii :: seq (S (length radii)) (dims - S (length radii))).
  2:{ symmetry.
      transitivity (seq 0 (length radii + S (dims - S (length radii))));
        [f_equal; lia | now rewrite seq_app]. }
  erewrite mapM_raises; [reflexivity | |].
  - apply Forall_forall. intros i Hi. apply in_seq in Hi.
    destruct (nth_error radii i) as [r|] eqn:Hn.
    + rewrite (PyFacts.index_nth_error _ _ Hn). cbn [Py.bind]. eexists.
      reflexivity.
    + apply nth_error_None in Hn. lia.
  - now rewrite index_beyond.
Qed.

Lemma draws_loop (n : nat) (ranges : list (float * float))
      (columns : list (list float)) (g : generator)
      (st : list (list float) * generator) :
  Forall (fun draws => length draws = n) columns ->
  foldM (fun (st : list (list float) * generator) (range : float * float) =>
           r <- uniform (snd st) (fst range) (snd range) n ;;
           Done (fst st ++ [fst r], snd r))
        ranges (columns, g) = Done st ->
  length (fst st) = length columns + length ranges /\
  Forall (fun draws => length draws = n) (fst st).
Proof.
  revert columns g. induction ranges as [|range ranges IH];
    intros columns g Hc Hf.
  - injection Hf as <-. cbn [fst length]. split; [lia | assumption].
  - cbn [foldM] in Hf. apply bind_done in Hf as (st1 & Hst1 & Hf).
    apply bind_done in Hst1 as ([draws g'] & Hu & Hst1).
    injection Hst1 as <-. cbn [fst snd] in *.
    apply uniform_length in Hu.
    apply IH in Hf as [Hlen Hall].
    + split; [|assumption]. rewrite Hlen, length_app. cbn [length]. lia.
    + apply Forall_app. split; [assumption|]. now constructor.
Qed.

(** X24.  [random_points] returns [int(npts)] points with one
    coordinate per range, as its documentation says; a negative [npts]
    is refused. *)
Theorem random_points_shape
        (g g' : generator) (npts : float) (ranges : list (float * float))
        (points : list (list float)) :
  random_points g npts ranges = Done (points, g') ->
  exists n : Z,
    Px.int npts = Done n /\ (0 <= n)%Z /\
    length points = Z.to_nat n /\
    Forall (fun point => length point = length ranges) points.
Proof.
  unfold random_points. intros Hr.
  apply bind_done in Hr as (n & Hn & Hr).
  destruct (Z.ltb_spec n 0) as [|Hpos]; [discriminate|].
  apply bind_done in Hr as (st & Hst & Hr).
  injection Hr as <- _.
  apply draws_loop in Hst as [Hlen _]; [|constructor].
  exists n. split; [assumption|]. split; [assumption|].
  rewrite length_map, length_seq. split; [reflexivity|].
  apply Forall_forall. intros point Hp.
  apply in_map_iff in Hp as (i & <- & _).
  rewrite length_map. exact Hlen.
Qed.

End WithLibrary.
End MonteCarloFacts.

Module StatisticsExamples.

Import Np Px Statistics MoreExamples StatisticsFacts.
#[local] Existing Instance Reference.extern.
#[local] Existing Instance ReferenceLibrary.library.

Lemma basic_stats_without_numbers_witness :
  basic_stats [NaN; NaN] (Fin (95 # 100)) "standard_error"
  = Done (NaN, NaN).
Proof.
  apply (@basic_stats_without_numbers
           Reference.extern ReferenceLibrary.library
           [NaN; NaN] (Fin (95 # 100)) "standard_error").
  repeat constructor.
Defined.

Lemma basic_stats_unsupported_error_type_witness :
  basic_stats [of_Z 1; NaN] (Fin (95 # 100)) "variance"
  = Fail (Std (ValueError ("error_type, " ++ "variance"
                           ++ ", is not supported"))).
Proof.
  apply (@basic_stats_unsupported_error_type
           Reference.extern ReferenceLibrary.library
           [of_Z 1; NaN] (Fin (95 # 100)) "variance").
  - reflexivity.
  - constructor. reflexivity.
  - simpl. intros [E | [E | [E | []]]]; discriminate E.
Defined.

Lemma basic_stats_normality_warning_raises_witness :
  basic_stats nine (Fin (95 # 100)) "standard_error"
  = Fail (NameError "name 'warning' is not defined").
Proof.
  apply (@basic_stats_normality_warning_raises
           Reference.extern ReferenceLibrary.library
           nine (Fin (95 # 100)) "standard_error" zero).
  - reflexivity.
  - simpl. auto.
  - vm_compute. repeat constructor.
  - reflexivity.
  - reflexivity.
Defined.

Lemma basic_stats_needs_np_float_witness :
  @basic_stats Reference.extern NumpyWithoutFloat.library
               [of_Z 1; of_Z 2] (Fin (95 # 100)) "standard_error"
  = Fail (AttributeError "module 'numpy' has no attribute 'float'").
Proof.
  apply (@basic_stats_needs_np_float
           Reference.extern NumpyWithoutFloat.library
           [of_Z 1; of_Z 2] (Fin (95 # 100)) "standard_error").
  - reflexivity.
  - constructor. reflexivity.
Defined.

End StatisticsExamples.

Module MonteCarloExamples.

Import Np Px MonteCarloVolume MonteCarloFacts.
#[local] Existing Instance Reference.extern.
#[local] Existing Instance ReferenceLibrary.library.

(** Two unit circles around (0, 0) and (1, 0), four points per run and
    two runs: the runs complete, and the call raises. *)
Example region_volumes_of_two_circles :
  region_volumes 0 (Scalar0 (of_Z 1)) [[of_Z 0; of_Z 0]; [of_Z 1; of_Z 0]]
                 (Some (of_Z 4)) 2
  = Done ([of_Z 6; of_Z 6], 6).
Proof. vm_compute. reflexivity. Qed.

Example overlapping_spheres_of_two_circles :
  overlapping_spheres 0 (Scalar0 (of_Z 1))
                      [[of_Z 0; of_Z 0]; [of_Z 1; of_Z 0]] (Some (of_Z 4)) 2
  = Fail (TypeError "basic_stats() got an unexpected keyword argument 'error_descriptor'").
Proof. vm_compute. reflexivity. Qed.

Lemma random_points_shape_witness :
  exists n : Z,
    Px.int (Fin (5 # 2)) = Done n /\
    (0 <= n)%Z /\
    length [[of_Z 1; of_Z 2]; [of_Z 1; of_Z 2]] = Z.to_nat n /\
    Forall (fun point : list float =>
              length point = length [(of_Z 0, of_Z 2); (of_Z 1, of_Z 3)])
           [[of_Z 1; of_Z 2]; [of_Z 1; of_Z 2]].
Proof.
  apply (@random_points_shape
           ReferenceLibrary.library 0 3 (Fin (5 # 2))
           [(of_Z 0, of_Z 2); (of_Z 1, of_Z 3)]
           [[of_Z 1; of_Z 2]; [of_Z 1; of_Z 2]]).
  vm_compute. reflexivity.
Defined.

Lemma overlapping_spheres_fewer_spheres_than_dimensions_witness :
  overlapping_spheres 0 (Scalar0 (of_Z 1)) [[of_Z 0; of_Z 0]]
                      (Some (of_Z 4)) 2
  = Fail (Std (IndexError "index out of bounds")).
Proof.
  apply (@overlapping_spheres_fewer_spheres_than_dimensions
           Reference.extern ReferenceLibrary.library
           0 (Scalar0 (of_Z 1)) [[of_Z 0; of_Z 0]] (Some (of_Z 4)) 2).
  - simpl. lia.
  - exact I.
Defined.

End MonteCarloExamples.
